(** * Log analyzer: parser, search and analytics services

    A shallow embedding of the three services of the log analyzer
    ([log-parser.service.ts], [search.service.ts], [analytics.service.ts])
    and the properties of its specification.

    Conventions of the embedding.
    - A JavaScript string is the Rocq [string] of its UTF-8 bytes.  The
      case mappings and the white-space class are the ones of the ASCII
      characters; a theorem whose result depends on what [trim()] strips
      or on the case of a letter outside ASCII excludes such texts by a
      hypothesis ([Unicode.asciiTrimmed], [SearchOps.isAscii]).
    - A JavaScript value is a [JValue]; numbers are exact rationals ([Q]),
      the rounding of IEEE doubles is not modelled.
    - A JavaScript object is an association list of its own properties in
      enumeration order with pairwise distinct keys; assignment to an
      existing key keeps its position.  Every such object inherits from
      [Object.prototype]: a read under a key chosen by the user falls back
      on it ([Search.entryValue]), and an assignment under the key
      [__proto__] stores nothing ([Js.put]).  The numeric-key reordering
      of engines is outside the model.
    - Built-ins whose result depends on the engine or the environment
      (the clock, [Date] parsing, [RegExp], locale formatting, number
      printing, [JSON]) are the fields of the class [Runtime].
    - Exceptions are explicit: a computation that may throw returns a
      [Completion].  The memory of the engine is unbounded; the one
      resource limit in the model is the number of arguments of a call,
      which the timeline histogram can exceed ([Analytics.maxSpread]). *)

From Stdlib Require Import List String Ascii Bool Arith ZArith QArith Lia.
From Stdlib Require Import Sorting.Sorted Sorting.Permutation.
From Stdlib Require Import Numbers.DecimalString Numbers.DecimalNat.
From Stdlib Require Import Floats.PrimFloat Numbers.Cyclic.Int63.Uint63.
Import ListNotations.

Local Close Scope Q_scope.
Local Open Scope string_scope.
Local Open Scope list_scope.
Local Open Scope nat_scope.

(* ===================================================================== *)
(** ** String primitives of the JavaScript runtime *)
(* ===================================================================== *)

Module Str.

Definition LF : ascii := "010"%char.
Definition CR : ascii := "013"%char.
Definition TAB : ascii := "009"%char.
Definition BS : ascii := "008"%char.
Definition FF : ascii := "012"%char.
Definition DQUOTE : ascii := "034"%char.
Definition BACKSLASH : ascii := "\"%char.

Definition code (c : ascii) : nat := nat_of_ascii c.

(** [WhiteSpace] and [LineTerminator] code points below 128; the ones
    above are listed in [Unicode.whiteSpace]. *)
Definition isWhiteSpace (c : ascii) : bool :=
  let n := code c in ((9 <=? n) && (n <=? 13)) || (n =? 32).

Definition isDigit (c : ascii) : bool :=
  let n := code c in (48 <=? n) && (n <=? 57).

Definition isUpper (c : ascii) : bool :=
  let n := code c in (65 <=? n) && (n <=? 90).

Definition isLower (c : ascii) : bool :=
  let n := code c in (97 <=? n) && (n <=? 122).

(** [\w] of a regular expression without the unicode flag. *)
Definition isWordChar (c : ascii) : bool :=
  isDigit c || isUpper c || isLower c || (code c =? 95).

Definition upperChar (c : ascii) : ascii :=
  if isLower c then ascii_of_nat (code c - 32) else c.

Definition lowerChar (c : ascii) : ascii :=
  if isUpper c then ascii_of_nat (code c + 32) else c.

Fixpoint map (f : ascii -> ascii) (s : string) : string :=
  match s with
  | EmptyString => EmptyString
  | String c s' => String (f c) (map f s')
  end.

Definition toUpperCase : string -> string := map upperChar.
Definition toLowerCase : string -> string := map lowerChar.

Fixpoint trimStart (s : string) : string :=
  match s with
  | EmptyString => EmptyString
  | String c s' => if isWhiteSpace c then trimStart s' else s
  end.

Fixpoint trimEnd (s : string) : string :=
  match s with
  | EmptyString => EmptyString
  | String c s' =>
      match trimEnd s' with
      | EmptyString => if isWhiteSpace c then EmptyString else String c EmptyString
      | t => String c t
      end
  end.

(** [s.trim()] for a text that has no white space above code point 127
    next to the white space at its ends ([Unicode.asciiTrimmed]). *)
Definition trim (s : string) : string := trimEnd (trimStart s).

Definition isEmpty (s : string) : bool :=
  match s with EmptyString => true | _ => false end.

(** [s.startsWith(p)] *)
Fixpoint startsWith (p s : string) : bool :=
  match p with
  | EmptyString => true
  | String a p' =>
      match s with
      | EmptyString => false
      | String b s' => Ascii.eqb a b && startsWith p' s'
      end
  end.

Fixpoint drop (n : nat) (s : string) : string :=
  match n, s with
  | O, _ => s
  | S n', String _ s' => drop n' s'
  | S _, EmptyString => EmptyString
  end.

(** [s.endsWith(p)] *)
Definition endsWith (p s : string) : bool :=
  (String.length p <=? String.length s)
  && String.eqb (drop (String.length s - String.length p) s) p.

(** [s.includes(p)] *)
Fixpoint includes (p s : string) : bool :=
  startsWith p s ||
  match s with
  | EmptyString => false
  | String _ s' => includes p s'
  end.

(** [s.split(sep)] for a one-character separator. *)
Fixpoint split (sep : ascii) (s : string) : list string :=
  match s with
  | EmptyString => [EmptyString]
  | String c s' =>
      if Ascii.eqb c sep then EmptyString :: split sep s'
      else match split sep s' with
           | [] => [String c EmptyString]
           | l :: ls => String c l :: ls
           end
  end.

(** [s.replace(/xy/g, r)] for a pattern of two literal characters. *)
Fixpoint replace2 (x y : ascii) (r : ascii) (s : string) : string :=
  match s with
  | EmptyString => EmptyString
  | String a s' =>
      match s' with
      | String b s'' =>
          if Ascii.eqb a x && Ascii.eqb b y
          then String r (replace2 x y r s'')
          else String a (replace2 x y r s')
      | EmptyString => s
      end
  end.

(** Decimal rendering of an array index or a counter. *)
Definition ofNat (n : nat) : string := NilZero.string_of_uint (Nat.to_uint n).

Definition ofZ (z : Z) : string := NilZero.string_of_int (Z.to_int z).

End Str.

(* ===================================================================== *)
(** ** JavaScript values and objects *)
(* ===================================================================== *)

Unset Elimination Schemes.

Inductive JValue : Type :=
| JUndefined : JValue
| JNull : JValue
| JBool : bool -> JValue
| JNumber : Q -> JValue
| JString : string -> JValue
| JArray : list JValue -> JValue
| JObject : list (string * JValue) -> JValue.

Set Elimination Schemes.

(** An object: its own enumerable properties in enumeration order. *)
Definition Obj : Type := list (string * JValue).

(** A parsed log record is a plain object ([LogEntry] of the source). *)
Definition LogEntry : Type := Obj.

Module Js.

(** [o[k]]; [None] stands for the absent property. *)
Fixpoint get (k : string) (o : Obj) : option JValue :=
  match o with
  | [] => None
  | (k', v) :: o' => if String.eqb k k' then Some v else get k o'
  end.

(** Storing [v] as the own property [k] of [o]. *)
Fixpoint set (k : string) (v : JValue) (o : Obj) : Obj :=
  match o with
  | [] => [(k, v)]
  | (k', v') :: o' =>
      if String.eqb k k' then (k, v) :: o' else (k', v') :: set k v o'
  end.

(** The spread [{...target, ...source}]: each property of [source] is
    defined on the new object, after those of [target]. *)
Definition assign (target source : Obj) : Obj :=
  fold_left (fun acc kv => set (fst kv) (snd kv) acc) source target.

Definition keys (o : Obj) : list string := List.map fst o.
Definition values (o : Obj) : list JValue := List.map snd o.

(** The value read by [o[k]] under a key that [Object.prototype] does not
    define: an absent property reads as [undefined]. *)
Definition read (k : string) (o : Obj) : JValue :=
  match get k o with Some v => v | None => JUndefined end.

(** [ToBoolean] *)
Definition truthy (v : JValue) : bool :=
  match v with
  | JUndefined | JNull => false
  | JBool b => b
  | JNumber q => negb (Qeq_bool q 0)
  | JString s => negb (Str.isEmpty s)
  | JArray _ | JObject _ => true
  end.

Definition isString (v : JValue) : bool :=
  match v with JString _ => true | _ => false end.

Definition isNumber (v : JValue) : bool :=
  match v with JNumber _ => true | _ => false end.

(** [typeof v === 'object'] *)
Definition isObjectType (v : JValue) : bool :=
  match v with JNull | JArray _ | JObject _ => true | _ => false end.

(** [v && typeof v === 'object' && !Array.isArray(v)] *)
Definition isPlainObject (v : JValue) : bool :=
  match v with JObject _ => true | _ => false end.

(** [v === null || v === undefined] *)
Definition isNullish (v : JValue) : bool :=
  match v with JUndefined | JNull => true | _ => false end.

Fixpoint joinWith (sep : string) (l : list string) : string :=
  match l with
  | [] => EmptyString
  | [s] => s
  | s :: l' => (s ++ sep ++ joinWith sep l')%string
  end.

Fixpoint chars (s : string) : list JValue :=
  match s with
  | EmptyString => []
  | String c s' => JString (String c EmptyString) :: chars s'
  end.

Fixpoint indexed {A : Type} (i : nat) (l : list A) : list (string * A) :=
  match l with
  | [] => []
  | x :: l' => (Str.ofNat i, x) :: indexed (S i) l'
  end.

(** The names of the properties that an object created by a literal or
    by [JSON.parse] inherits from [Object.prototype]. *)
Definition objectPrototype : list string :=
  [ "constructor"; "hasOwnProperty"; "isPrototypeOf"; "propertyIsEnumerable";
    "toLocaleString"; "toString"; "valueOf"; "__proto__";
    "__defineGetter__"; "__defineSetter__"; "__lookupGetter__"; "__lookupSetter__" ].

(** Whether [o[k]] falls back on [Object.prototype] when [o] has no
    property [k] of its own. *)
Definition inherited (k : string) : bool := existsb (String.eqb k) objectPrototype.

(** [o[k] = v] on an object created by [{}]: under the key [__proto__] the
    assignment runs the setter inherited from [Object.prototype], which
    stores no property of [o]; under every other key it stores [v]. *)
Definition put (k : string) (v : JValue) (o : Obj) : Obj :=
  if String.eqb k "__proto__" then o else set k v o.

(** [Object.assign(target, source)]: one assignment [target[k] = v] per
    property of [source]. *)
Definition objectAssign (target source : Obj) : Obj :=
  fold_left (fun acc kv => put (fst kv) (snd kv) acc) source target.

End Js.

(** Result of a computation that may throw an [Error] with a message. *)
Inductive Completion (A : Type) : Type :=
| Normal : A -> Completion A
| Throw : string -> Completion A.

Arguments Normal {A} _.
Arguments Throw {A} _.

Definition bind {A B : Type} (c : Completion A) (k : A -> Completion B) : Completion B :=
  match c with
  | Normal a => k a
  | Throw m => Throw m
  end.

Notation "x <- c ;; k" := (bind c (fun x => k))
  (at level 61, c at next level, right associativity).

(* ===================================================================== *)
(** ** A reference reader for JSON texts (ECMA-404 grammar) *)
(* ===================================================================== *)

Module Json.

Definition isWs (c : ascii) : bool :=
  let n := Str.code c in (n =? 32) || (n =? 9) || (n =? 10) || (n =? 13).

Fixpoint skipWs (s : string) : string :=
  match s with
  | String c s' => if isWs c then skipWs s' else s
  | EmptyString => s
  end.

Definition digitVal (c : ascii) : Z := Z.of_nat (Str.code c - 48).

(** Longest prefix of decimal digits, as digit values. *)
Fixpoint takeDigits (s : string) : list Z * string :=
  match s with
  | String c s' =>
      if Str.isDigit c
      then let '(ds, r) := takeDigits s' in (digitVal c :: ds, r)
      else ([], s)
  | EmptyString => ([], s)
  end.

Definition digitsToZ (ds : list Z) : Z :=
  fold_left (fun acc d => (acc * 10 + d)%Z) ds 0%Z.

(** [int frac? exp?] after the optional sign. *)
Definition parseUnsigned (s : string) : option (Q * string) :=
  let intPart :=
    match s with
    | String c s' =>
        if Ascii.eqb c "0" then Some ([0%Z], s')
        else if Str.isDigit c then Some (takeDigits s)
        else None
    | EmptyString => None
    end in
  match intPart with
  | None => None
  | Some (ids, r1) =>
      let fracPart :=
        match r1 with
        | String "." r =>
            match takeDigits r with
            | ([], _) => None
            | (fds, r2) => Some (fds, r2)
            end
        | _ => Some ([], r1)
        end in
      match fracPart with
      | None => None
      | Some (fds, r2) =>
          let expPart :=
            match r2 with
            | String e r =>
                if Ascii.eqb e "e" || Ascii.eqb e "E" then
                  let '(neg, r') :=
                    match r with
                    | String "-" r' => (true, r')
                    | String "+" r' => (false, r')
                    | _ => (false, r)
                    end in
                  match takeDigits r' with
                  | ([], _) => None
                  | (eds, r3) =>
                      Some ((if neg then - digitsToZ eds else digitsToZ eds)%Z, r3)
                  end
                else Some (0%Z, r2)
            | EmptyString => Some (0%Z, r2)
            end in
          match expPart with
          | None => None
          | Some (ex, r3) =>
              let mant := digitsToZ (ids ++ fds) in
              let scale := (ex - Z.of_nat (List.length fds))%Z in
              let q := if (0 <=? scale)%Z
                       then Qmake (mant * 10 ^ scale) 1
                       else Qmake mant (Z.to_pos (10 ^ (- scale))) in
              Some (Qred q, r3)
          end
      end
  end.

Definition parseNumber (s : string) : option (JValue * string) :=
  match s with
  | String "-" s' =>
      match parseUnsigned s' with
      | Some (q, r) => Some (JNumber (Qred (Qopp q)), r)
      | None => None
      end
  | _ =>
      match parseUnsigned s with
      | Some (q, r) => Some (JNumber q, r)
      | None => None
      end
  end.

Definition hexVal (c : ascii) : option nat :=
  let n := Str.code c in
  if Str.isDigit c then Some (n - 48)
  else if (97 <=? n) && (n <=? 102) then Some (n - 87)
  else if (65 <=? n) && (n <=? 70) then Some (n - 55)
  else None.

(** A code unit written [\uXXXX], in the byte strings of the model:
    itself below 128, its UTF-8 form above. *)
Definition codeUnit (n : nat) : string :=
  if n <? 128 then String (ascii_of_nat n) EmptyString
  else if n <? 2048 then
    String (ascii_of_nat (192 + n / 64))
      (String (ascii_of_nat (128 + n mod 64)) EmptyString)
  else
    String (ascii_of_nat (224 + n / 4096))
      (String (ascii_of_nat (128 + (n / 64) mod 64))
         (String (ascii_of_nat (128 + n mod 64)) EmptyString)).

(** The characters of a string literal after its opening quote. *)
Fixpoint parseChars (s : string) : option (string * string) :=
  match s with
  | EmptyString => None
  | String c s' =>
      if Ascii.eqb c Str.DQUOTE then Some (EmptyString, s')
      else if Ascii.eqb c Str.BACKSLASH then
        match s' with
        | String e s'' =>
            let simple (ch : ascii) :=
              match parseChars s'' with
              | Some (t, r) => Some (String ch t, r)
              | None => None
              end in
            if Ascii.eqb e Str.DQUOTE then simple Str.DQUOTE
            else if Ascii.eqb e Str.BACKSLASH then simple Str.BACKSLASH
            else if Ascii.eqb e "/" then simple "/"%char
            else if Ascii.eqb e "b" then simple Str.BS
            else if Ascii.eqb e "f" then simple Str.FF
            else if Ascii.eqb e "n" then simple Str.LF
            else if Ascii.eqb e "r" then simple Str.CR
            else if Ascii.eqb e "t" then simple Str.TAB
            else if Ascii.eqb e "u" then
              match s'' with
              | String h1 (String h2 (String h3 (String h4 s4))) =>
                  match hexVal h1, hexVal h2, hexVal h3, hexVal h4 with
                  | Some a, Some b, Some c', Some d =>
                      match parseChars s4 with
                      | Some (t, r) =>
                          Some ((codeUnit (((a * 16 + b) * 16 + c') * 16 + d) ++ t)%string, r)
                      | None => None
                      end
                  | _, _, _, _ => None
                  end
              | _ => None
              end
            else None
        | EmptyString => None
        end
      else if Str.code c <? 32 then None
      else
        match parseChars s' with
        | Some (t, r) => Some (String c t, r)
        | None => None
        end
  end.

Fixpoint parseValue (fuel : nat) (s : string) : option (JValue * string) :=
  match fuel with
  | O => None
  | S fuel' =>
      match skipWs s with
      | EmptyString => None
      | (String c rest) as s0 =>
          if Ascii.eqb c "{" then
            match skipWs rest with
            | String "}" r => Some (JObject [], r)
            | r => parseMembers fuel' r []
            end
          else if Ascii.eqb c "[" then
            match skipWs rest with
            | String "]" r => Some (JArray [], r)
            | r => parseElements fuel' r []
            end
          else if Ascii.eqb c Str.DQUOTE then
            match parseChars rest with
            | Some (t, r) => Some (JString t, r)
            | None => None
            end
          else if Str.startsWith "true" s0 then Some (JBool true, Str.drop 4 s0)
          else if Str.startsWith "false" s0 then Some (JBool false, Str.drop 5 s0)
          else if Str.startsWith "null" s0 then Some (JNull, Str.drop 4 s0)
          else parseNumber s0
      end
  end

with parseMembers (fuel : nat) (s : string) (acc : Obj) : option (JValue * string) :=
  match fuel with
  | O => None
  | S fuel' =>
      match skipWs s with
      | String c rest =>
          if Ascii.eqb c Str.DQUOTE then
            match parseChars rest with
            | Some (key, r1) =>
                match skipWs r1 with
                | String ":" r2 =>
                    match parseValue fuel' r2 with
                    | Some (v, r3) =>
                        let acc' := Js.set key v acc in
                        match skipWs r3 with
                        | String "," r4 => parseMembers fuel' r4 acc'
                        | String "}" r4 => Some (JObject acc', r4)
                        | _ => None
                        end
                    | None => None
                    end
                | _ => None
                end
            | None => None
            end
          else None
      | EmptyString => None
      end
  end

with parseElements (fuel : nat) (s : string) (acc : list JValue) : option (JValue * string) :=
  match fuel with
  | O => None
  | S fuel' =>
      match parseValue fuel' s with
      | Some (v, r1) =>
          match skipWs r1 with
          | String "," r2 => parseElements fuel' r2 (acc ++ [v])
          | String "]" r2 => Some (JArray (acc ++ [v]), r2)
          | _ => None
          end
      | None => None
      end
  end.

(** [JSON.parse(text)]; [None] stands for the [SyntaxError]. *)
Definition parse (text : string) : option JValue :=
  match parseValue (2 * String.length text + 2) text with
  | Some (v, r) => if Str.isEmpty (skipWs r) then Some v else None
  | None => None
  end.

End Json.

(* ===================================================================== *)
(** ** White space outside ASCII *)
(* ===================================================================== *)

Module Unicode.

(** The [WhiteSpace] and [LineTerminator] code points above 127:
    [String.prototype.trim] strips them like the ones below 128. *)
Definition whiteSpace : list N :=
  [ 160; 5760; 8192; 8193; 8194; 8195; 8196; 8197; 8198; 8199; 8200; 8201; 8202;
    8232; 8233; 8239; 8287; 12288; 65279 ]%N.

(** Whether a text opens with one of them, in its UTF-8 form. *)
Definition opensWithSpace (s : string) : bool :=
  existsb (fun n => Str.startsWith (Json.codeUnit (N.to_nat n)) s) whiteSpace.

(** Whether a text ends with one of them. *)
Definition endsWithSpace (s : string) : bool :=
  existsb (fun n => Str.endsWith (Json.codeUnit (N.to_nat n)) s) whiteSpace.

(** Whether [Str.trim] strips from a text all that [trim()] strips: what
    it leaves neither opens nor ends with white space above 127. *)
Definition asciiTrimmed (s : string) : bool :=
  negb (opensWithSpace (Str.trim s)) && negb (endsWithSpace (Str.trim s)).

End Unicode.

(* ===================================================================== *)
(** ** Built-ins of the engine and of the environment *)
(* ===================================================================== *)

(** A time value: milliseconds since the epoch, [None] for [NaN]
    (an invalid [Date]). *)
Definition TimeValue : Type := option Z.

Class Runtime : Type := {
  (** [new Date().toISOString()], the instant of ingestion *)
  now : string;
  (** [Date.parse(s)] *)
  Date_parse : string -> TimeValue;
  (** [Number.prototype.toString] *)
  Number_toString : Q -> string;
  (** [JSON.parse(s)], [None] when it throws a [SyntaxError] *)
  JSON_parse : string -> option JValue;
  (** message of the [SyntaxError] thrown for a text *)
  syntaxErrorMessage : string -> string;
  (** message of the [TypeError] thrown by an operation *)
  typeErrorMessage : string -> string;
  (** [JSON.stringify(v)] for an array or object *)
  JSON_stringify : JValue -> string;
  (** compiled regular expressions *)
  RegExp : Type;
  (** [new RegExp(pattern, ignoreCase ? 'i' : '')], [None] when it throws *)
  RegExp_new : string -> bool -> option RegExp;
  (** [regex.test(s)] for a regular expression without the global flag *)
  RegExp_test : RegExp -> string -> bool;
  (** [d.toLocaleTimeString([], {hour: '2-digit', minute: '2-digit'})] *)
  toLocaleTimeString : Z -> string;
  (** [d.toLocaleDateString([], {weekday: 'short', hour: '2-digit'})] *)
  toLocaleWeekdayHour : Z -> string;
  (** [d.toLocaleDateString([], {month: 'short', day: 'numeric'})] *)
  toLocaleMonthDay : Z -> string;
  (** [String(f)] for the built-in function named [f] *)
  Function_toString : string -> string;
  (** the number of arguments the engine accepts in one call *)
  maxArguments : N;
  (** message of the [RangeError] thrown by a call with more arguments *)
  rangeErrorMessage : string
}.

Module Builtin.
Section WithRuntime.
Context {R : Runtime}.

(** [String(v)] *)
Fixpoint String_ (v : JValue) : string :=
  match v with
  | JUndefined => "undefined"
  | JNull => "null"
  | JBool true => "true"
  | JBool false => "false"
  | JNumber q => Number_toString q
  | JString s => s
  | JArray l =>
      Js.joinWith ","
        (List.map (fun x => if Js.isNullish x then EmptyString else String_ x) l)
  | JObject _ => "[object Object]"
  end.

(** [TimeClip] of a number. *)
Definition timeClip (q : Q) : TimeValue :=
  let t := Z.quot (Qnum q) (Zpos (Qden q)) in
  if (Z.abs t <=? 8640000000000000)%Z then Some t else None.

(** The time value of [new Date(v)]. *)
Definition new_Date (v : JValue) : TimeValue :=
  match v with
  | JUndefined => None
  | JNull => Some 0%Z
  | JBool b => Some (if b then 1%Z else 0%Z)
  | JNumber q => timeClip q
  | JString s => Date_parse s
  | JArray _ | JObject _ => Date_parse (String_ v)
  end.

(** [Object.entries(v)]; throws for [null] and [undefined]. *)
Definition Object_entries (v : JValue) : Completion (list (string * JValue)) :=
  match v with
  | JUndefined | JNull => Throw (typeErrorMessage "Object.entries")
  | JBool _ | JNumber _ => Normal []
  | JString s => Normal (Js.indexed 0 (Js.chars s))
  | JArray l => Normal (Js.indexed 0 l)
  | JObject o => Normal o
  end.

(** [v[k]] for a key that is neither an index nor [length]. *)
Definition member (k : string) (v : JValue) : Completion JValue :=
  match v with
  | JUndefined | JNull => Throw (typeErrorMessage "member")
  | JObject o => Normal (Js.read k o)
  | _ => Normal JUndefined
  end.

(** [String(Object.prototype[k])] for a name [k] of [Object.prototype]:
    the prototype object itself under [__proto__], the function [Object]
    under [constructor], and under every other name the method so named. *)
Definition String_inherited (k : string) : string :=
  if String.eqb k "__proto__" then "[object Object]"
  else Function_toString (if String.eqb k "constructor" then "Object" else k).

(** [JSON.parse(s)] as a computation. *)
Definition JSON_parse_ (s : string) : Completion JValue :=
  match JSON_parse s with
  | Some v => Normal v
  | None => Throw (syntaxErrorMessage s)
  end.

End WithRuntime.
End Builtin.

(* ===================================================================== *)
(** ** Log parser service *)
(* ===================================================================== *)

Module LogParser.

(** The signals of the service. *)
Record State : Type := {
  _logs : list LogEntry;
  _isLoading : bool;
  _error : option string
}.

(** *** Patterns of the plain-text extractors *)

Definition CharClass : Type := ascii -> bool.

Definition lit (c : ascii) : CharClass := fun x => Ascii.eqb x c.
Definition digit : CharClass := Str.isDigit.
Definition sign : CharClass := fun x => Ascii.eqb x "+" || Ascii.eqb x "-".

(** Match a sequence of one-character classes at the start of [s]:
    the matched text and the rest. *)
Fixpoint matchSeq (p : list CharClass) (s : string) : option (string * string) :=
  match p with
  | [] => Some (EmptyString, s)
  | cl :: p' =>
      match s with
      | String c s' =>
          if cl c then
            match matchSeq p' s' with
            | Some (m, r) => Some (String c m, r)
            | None => None
            end
          else None
      | EmptyString => None
      end
  end.

(** [\d{4}-\d{2}-\d{2}] *)
Definition datePat : list CharClass :=
  [digit; digit; digit; digit; lit "-"; digit; digit; lit "-"; digit; digit].

(** [\d{2}:\d{2}:\d{2}] *)
Definition timePat : list CharClass :=
  [digit; digit; lit ":"; digit; digit; lit ":"; digit; digit].

(** A greedy optional group at the end of a pattern. *)
Definition optional (alts : list (list CharClass)) (s : string) : string * string :=
  let fix first (l : list (list CharClass)) :=
    match l with
    | [] => (EmptyString, s)
    | p :: l' =>
        match matchSeq p s with
        | Some mr => mr
        | None => first l'
        end
    end in
  first alts.

(** [/\d{4}-\d{2}-\d{2}T\d{2}:\d{2}:\d{2}(?:\.\d{3})?(?:Z|[+-]\d{2}:?\d{2})?/]
    anchored at the start of [s]. *)
Definition isoAt (s : string) : option string :=
  match matchSeq (datePat ++ [lit "T"] ++ timePat) s with
  | Some (m1, r1) =>
      let '(m2, r2) := optional [[lit "."; digit; digit; digit]] r1 in
      let '(m3, _) :=
        optional [[lit "Z"];
                  [sign; digit; digit; lit ":"; digit; digit];
                  [sign; digit; digit; digit; digit]] r2 in
      Some (m1 ++ m2 ++ m3)%string
  | None => None
  end.

Fixpoint takeSpaces (s : string) : string * string :=
  match s with
  | String c s' =>
      if Str.isWhiteSpace c
      then let '(m, r) := takeSpaces s' in (String c m, r)
      else (EmptyString, s)
  | EmptyString => (EmptyString, s)
  end.

(** [/\d{4}-\d{2}-\d{2}\s+\d{2}:\d{2}:\d{2}/] anchored at the start of [s]. *)
Definition commonAt (s : string) : option string :=
  match matchSeq datePat s with
  | Some (m1, r1) =>
      match takeSpaces r1 with
      | (EmptyString, _) => None
      | (m2, r2) =>
          match matchSeq timePat r2 with
          | Some (m3, _) => Some (m1 ++ m2 ++ m3)%string
          | None => None
          end
      end
  | None => None
  end.

(** [line.match(re)[0]] for an anchored matcher: the leftmost match. *)
Fixpoint search (at_ : string -> option string) (s : string) : option string :=
  match at_ s with
  | Some m => Some m
  | None =>
      match s with
      | String _ s' => search at_ s'
      | EmptyString => None
      end
  end.

Definition levelKeywords : list string :=
  ["DEBUG"; "INFO"; "WARN"; "WARNING"; "ERROR"; "FATAL"; "TRACE"; "CRITICAL"].

Definition firstIsWord (s : string) : bool :=
  match s with
  | String c _ => Str.isWordChar c
  | EmptyString => false
  end.

(** One alternative of the level pattern followed by [\b], ignoring case. *)
Definition keywordAt (kw : string) (s : string) : option string :=
  let n := String.length kw in
  let m := String.substring 0 n s in
  if String.eqb (Str.toUpperCase m) kw && negb (firstIsWord (Str.drop n s))
  then Some m else None.

(** [/\b(DEBUG|INFO|WARN|WARNING|ERROR|FATAL|TRACE|CRITICAL)\b/i] at a
    position whose preceding character is a word character or not. *)
Definition levelAt (prevIsWord : bool) (s : string) : option string :=
  if xorb prevIsWord (firstIsWord s) then
    (fix first (kws : list string) :=
       match kws with
       | [] => None
       | kw :: kws' =>
           match keywordAt kw s with
           | Some m => Some m
           | None => first kws'
           end
       end) levelKeywords
  else None.

Fixpoint searchLevel (prevIsWord : bool) (s : string) : option string :=
  match levelAt prevIsWord s with
  | Some m => Some m
  | None =>
      match s with
      | String c s' => searchLevel (Str.isWordChar c) s'
      | EmptyString => None
      end
  end.

(** [extractTimestampFromLine] *)
Definition extractTimestampFromLine (line : string) : option string :=
  match search isoAt line with
  | Some m => Some m
  | None =>
      match search commonAt line with
      | Some m => Some m
      | None => None
      end
  end.

(** [extractLevelFromLine] *)
Definition extractLevelFromLine (line : string) : option string :=
  match searchLevel false line with
  | Some m => Some (Str.toUpperCase m)
  | None => None
  end.

Definition optString (o : option string) : JValue :=
  match o with Some s => JString s | None => JUndefined end.

Section WithRuntime.
Context {R : Runtime}.

(** [prefix ? `${prefix}.${key}` : key] *)
Definition newKey (prefix key : string) : string :=
  if Str.isEmpty prefix then key else (prefix ++ "." ++ key)%string.

Section FlattenLoop.
Variable flattenObject : JValue -> string -> Completion Obj.
Variable prefix : string.

(** The body of the loop over [Object.entries(obj)]. *)
Definition flattenStep (result : Obj) (key : string) (value : JValue) : Completion Obj :=
  if Js.isPlainObject value then
    sub <- flattenObject value (newKey prefix key) ;;
    Normal (Js.objectAssign result sub)
  else Normal (Js.put (newKey prefix key) value result).

(** The loop over the entries of an object. *)
Fixpoint flattenEntries (es : list (string * JValue)) (result : Obj) : Completion Obj :=
  match es with
  | [] => Normal result
  | (key, value) :: es' =>
      result' <- flattenStep result key value ;;
      flattenEntries es' result'
  end.

(** The loop over the entries of an array, whose keys are its indices. *)
Fixpoint flattenElements (i : nat) (es : list JValue) (result : Obj) : Completion Obj :=
  match es with
  | [] => Normal result
  | value :: es' =>
      result' <- flattenStep result (Str.ofNat i) value ;;
      flattenElements (S i) es' result'
  end.
End FlattenLoop.

(** [flattenObject(obj, prefix)] *)
Fixpoint flattenObject (obj : JValue) (prefix : string) {struct obj} : Completion Obj :=
  match obj with
  | JObject fields => flattenEntries flattenObject prefix fields []
  | JArray elems => flattenElements flattenObject prefix 0 elems []
  | other =>
      es <- Builtin.Object_entries other ;;
      Normal (fold_left (fun result kv => Js.put (newKey prefix (fst kv)) (snd kv) result) es [])
  end.

(** The fields that flattening does not descend into (scalars, [null]
    and arrays), each with its dot-path, in traversal order.  Used to
    state what a flattened object holds. *)
Fixpoint leavesOf (obj : JValue) (prefix : string) {struct obj} : list (string * JValue) :=
  match obj with
  | JObject fields =>
      flat_map (fun kv : string * JValue =>
                  let (key, value) := kv in
                  if Js.isPlainObject value
                  then leavesOf value (newKey prefix key)
                  else [(newKey prefix key, value)]) fields
  | _ => []
  end.

(** What flattening a plain object yields: an object with distinct keys
    that maps each dot-path other than [__proto__] to the last leaf
    written under it, and has no key [__proto__]. *)
Definition flattensTo (v : JValue) (prefix : string) (r : Obj) : Prop :=
  flattenObject v prefix = Normal r /\
  NoDup (Js.keys r) /\
  forall k, Js.get k r =
            if String.eqb k "__proto__" then None
            else Js.get k (rev (leavesOf v prefix)).


(** The fields that [normalizeEntry] names itself. *)
Definition namedFields : list string :=
  ["_id"; "_index"; "@timestamp"; "level"; "message"].

(** The first candidate field that is truthy and, when [strings] is set,
    a string. *)
Fixpoint detectField (strings : bool) (fields : list string) (entry : Obj) : option JValue :=
  match fields with
  | [] => None
  | field :: fields' =>
      let v := Js.read field entry in
      if Js.truthy v && (negb strings || Js.isString v) then Some v
      else detectField strings fields' entry
  end.

Definition timestampFields : list string :=
  ["@timestamp"; "timestamp"; "time"; "datetime"; "date"; "created_at"].
Definition levelFields : list string :=
  ["level"; "log.level"; "severity"; "loglevel"].
Definition messageFields : list string :=
  ["message"; "msg"; "text"; "log"; "log.message"].

(** [detectTimestamp]: [None] is the [null] result. *)
Definition detectTimestamp (entry : Obj) : option string :=
  match detectField true timestampFields entry with
  | Some v => Some (Builtin.String_ v)
  | None => None
  end.

(** [detectLevel]: [None] is the [undefined] result. *)
Definition detectLevel (entry : Obj) : option string :=
  match detectField false levelFields entry with
  | Some v => Some (Str.toUpperCase (Builtin.String_ v))
  | None => None
  end.

(** [detectMessage] *)
Definition detectMessage (entry : Obj) : option string :=
  match detectField true messageFields entry with
  | Some v => Some (Builtin.String_ v)
  | None => None
  end.

(** [normalizeEntry(entry, index)] *)
Definition normalizeEntry (entry : JValue) (index : nat) : Completion LogEntry :=
  flattened <- flattenObject entry EmptyString ;;
  id <- Builtin.member "_id" entry ;;
  idx <- Builtin.member "_index" entry ;;
  Normal
    (Js.assign
       [ ("_id", if Js.truthy id then id else JString ("entry-" ++ Str.ofNat index));
         ("_index", idx);
         ("@timestamp",
           JString (match detectTimestamp flattened with
                    | Some s => s
                    | None => now
                    end));
         ("level", optString (detectLevel flattened));
         ("message", optString (detectMessage flattened)) ]
       flattened).

(** [createTextEntry(line, index)] *)
Definition createTextEntry (line : string) (index : nat) : LogEntry :=
  let timestamp := extractTimestampFromLine line in
  let level := extractLevelFromLine line in
  [ ("_id", JString ("line-" ++ Str.ofNat index));
    ("@timestamp",
      JString (match timestamp with
               | Some s => if Str.isEmpty s then now else s
               | None => now
               end));
    ("level", optString level);
    ("message", JString line);
    ("_raw", JString line) ].

(** [array.map((x, index) => f(x, index))] for a callback that may throw. *)
Fixpoint mapIndexed {A B : Type} (f : A -> nat -> Completion B) (i : nat) (l : list A)
  : Completion (list B) :=
  match l with
  | [] => Normal []
  | x :: l' =>
      y <- f x i ;;
      ys <- mapIndexed f (S i) l' ;;
      Normal (y :: ys)
  end.

Fixpoint mapi {A B : Type} (f : A -> nat -> B) (i : nat) (l : list A) : list B :=
  match l with
  | [] => []
  | x :: l' => f x i :: mapi f (S i) l'
  end.

(** [parseJsonArray(content)] *)
Definition parseJsonArray (content : string) : Completion (list LogEntry) :=
  parsed <- Builtin.JSON_parse_ content ;;
  match parsed with
  | JArray elems => mapIndexed normalizeEntry 0 elems
  | _ => Throw "Expected JSON array"
  end.

(** The callback of [parseNdjson]: [try { ... } catch { ... }] on one line. *)
Definition parseNdjsonLine (line : string) (index : nat) : LogEntry :=
  match (parsed <- Builtin.JSON_parse_ line ;; normalizeEntry parsed index) with
  | Normal entry => entry
  | Throw _ => createTextEntry line index
  end.

(** [parseNdjson(content)] *)
Definition parseNdjson (content : string) : list LogEntry :=
  let lines :=
    List.filter (fun line => negb (Str.isEmpty (Str.trim line)))
      (Str.split Str.LF content) in
  mapi parseNdjsonLine 0 lines.

(** [parsePlainText(content, filename)] *)
Definition parsePlainText (content filename : string) : list LogEntry :=
  let lines := Str.split Str.LF content in
  mapi (fun line index => createTextEntry line index) 0 lines.

(** [parseLogFile(content, filename)]: the state after the call. *)
Definition parseLogFile (content filename : string) (st : State) : State :=
  let st1 := {| _logs := _logs st; _isLoading := true; _error := None |} in
  let body : Completion (list LogEntry) :=
    let trimmed := Str.trim content in
    if Str.startsWith "[" trimmed then parseJsonArray trimmed
    else if Str.startsWith "{" trimmed then Normal (parseNdjson trimmed)
    else Normal (parsePlainText trimmed filename) in
  let st2 :=
    match body with
    | Normal entries =>
        {| _logs := entries; _isLoading := _isLoading st1; _error := _error st1 |}
    | Throw message =>
        {| _logs := _logs st1; _isLoading := _isLoading st1; _error := Some message |}
    end in
  {| _logs := _logs st2; _isLoading := false; _error := _error st2 |}.

(** [clearLogs()] *)
Definition clearLogs (st : State) : State :=
  {| _logs := []; _isLoading := _isLoading st; _error := None |}.

(** The replacement chain of a pass of [unescapeString]. *)
Definition replaceEscapes (s : string) : string :=
  Str.replace2 Str.BACKSLASH Str.BACKSLASH Str.BACKSLASH
    (Str.replace2 Str.BACKSLASH "r" Str.CR
       (Str.replace2 Str.BACKSLASH "t" Str.TAB
          (Str.replace2 Str.BACKSLASH "n" Str.LF
             (Str.replace2 Str.BACKSLASH Str.DQUOTE Str.DQUOTE s)))).

Definition bsq : string := String Str.BACKSLASH (String Str.DQUOTE EmptyString).
Definition bsn : string := String Str.BACKSLASH "n".
Definition bst : string := String Str.BACKSLASH "t".
Definition quote : string := String Str.DQUOTE EmptyString.

(** The escape check and replacement of one pass; [None] is [break]. *)
Definition escapeStep (result : string) : option string :=
  if Str.includes bsq result || Str.includes bsn result || Str.includes bst result
  then
    let unescaped := replaceEscapes result in
    if negb (String.eqb unescaped result) then Some unescaped else None
  else None.

(** The [while (attempts < maxAttempts)] loop, on the passes that remain. *)
Fixpoint unescapeLoop (remaining : nat) (result : string) : Completion string :=
  match remaining with
  | O => Normal result
  | S remaining' =>
      let escapes :=
        match escapeStep result with
        | Some unescaped => unescapeLoop remaining' unescaped
        | None => Normal result
        end in
      if Str.startsWith quote result && Str.endsWith quote result then
        parsed <- Builtin.JSON_parse_ result ;;
        match parsed with
        | JString p => unescapeLoop remaining' p
        | _ => escapes
        end
      else escapes
  end.

Definition maxAttempts : nat := 3.

(** [unescapeString(str)] *)
Definition unescapeString (str : string) : string :=
  if Str.isEmpty str then str
  else
    match unescapeLoop maxAttempts str with
    | Normal result => result
    | Throw _ => str
    end.

End WithRuntime.
End LogParser.

(* ===================================================================== *)
(** ** Search service *)
(* ===================================================================== *)

Module Search.

Inductive Operator : Type := equals | contains | not_equals.

Record SearchFilter : Type := {
  field : string;
  value : string;
  operator : Operator
}.

(** A [Date] object; it is truthy whatever its time value. *)
Record Date : Type := { getTime : TimeValue }.

(** [start] and [end] are [Date | null]. *)
Record TimeRange : Type := {
  start : option Date;
  end_ : option Date
}.

Record State : Type := {
  _searchQuery : string;
  _isRegex : bool;
  _quickFilters : list SearchFilter;
  _timeRange : TimeRange;
  _caseSensitive : bool
}.

(** [a < b] on time values: false as soon as one side is [NaN]. *)
Definition lt (a b : TimeValue) : bool :=
  match a, b with
  | Some x, Some y => (x <? y)%Z
  | _, _ => false
  end.

Definition isSome {A : Type} (o : option A) : bool :=
  match o with Some _ => true | None => false end.

(** [addQuickFilter(field, value, operator)] *)
Definition addQuickFilter (f v : string) (op : Operator) (st : State) : State :=
  let filters := _quickFilters st in
  let exists_ :=
    existsb (fun x => String.eqb (field x) f && String.eqb (value x) v
                      && match operator x, op with
                         | equals, equals | contains, contains
                         | not_equals, not_equals => true
                         | _, _ => false
                         end) filters in
  {| _searchQuery := _searchQuery st;
     _isRegex := _isRegex st;
     _quickFilters :=
       if exists_ then filters
       else filters ++ [{| field := f; value := v; operator := op |}];
     _timeRange := _timeRange st;
     _caseSensitive := _caseSensitive st |}.

(** [clearQuickFilters()] *)
Definition clearQuickFilters (st : State) : State :=
  {| _searchQuery := _searchQuery st;
     _isRegex := _isRegex st;
     _quickFilters := [];
     _timeRange := _timeRange st;
     _caseSensitive := _caseSensitive st |}.

(** [clearAll()] *)
Definition clearAll (st : State) : State :=
  {| _searchQuery := EmptyString;
     _isRegex := _isRegex st;
     _quickFilters := [];
     _timeRange := {| start := None; end_ := None |};
     _caseSensitive := _caseSensitive st |}.

Section WithRuntime.
Context {R : Runtime}.

(** The callback of the time-range stage. *)
Definition inTimeRange (timeRange : TimeRange) (entry : LogEntry) : bool :=
  let timestamp := Builtin.new_Date (Js.read "@timestamp" entry) in
  match start timeRange with
  | Some s => if lt timestamp (getTime s) then false
              else match end_ timeRange with
                   | Some e => if lt (getTime e) timestamp then false else true
                   | None => true
                   end
  | None => match end_ timeRange with
            | Some e => if lt (getTime e) timestamp then false else true
            | None => true
            end
  end.

(** [String(entry[filter.field] ?? '')]: the field name comes from the
    user, so the read finds the record's own property, else the property
    that the record inherits from [Object.prototype], else [undefined]. *)
Definition entryValue (entry : LogEntry) (fieldName : string) : string :=
  match Js.get fieldName entry with
  | Some v => Builtin.String_ (if Js.isNullish v then JString EmptyString else v)
  | None =>
      if Js.inherited fieldName then Builtin.String_inherited fieldName
      else Builtin.String_ (JString EmptyString)
  end.

(** The callback of [quickFilters.every]. *)
Definition matchesFilter (entry : LogEntry) (filter : SearchFilter) : bool :=
  let ev := entryValue entry (field filter) in
  match operator filter with
  | equals => String.eqb ev (value filter)
  | contains => Str.includes (Str.toLowerCase (value filter)) (Str.toLowerCase ev)
  | not_equals => negb (String.eqb ev (value filter))
  end.

(** The string form of a field value in the query stage. *)
Definition stringValue (v : JValue) : string :=
  if Js.isObjectType v then JSON_stringify v else Builtin.String_ v.

(** [matchesRegex(entry, regex)] *)
Definition matchesRegex (entry : LogEntry) (regex : RegExp) : bool :=
  existsb (fun v => negb (Js.isNullish v) && RegExp_test regex (stringValue v))
    (Js.values entry).

(** [matchesSearch(entry, query, caseSensitive)] *)
Definition matchesSearch (entry : LogEntry) (query : string) (caseSensitive : bool) : bool :=
  existsb (fun v =>
             negb (Js.isNullish v) &&
             let sv := stringValue v in
             let compareValue := if caseSensitive then sv else Str.toLowerCase sv in
             Str.includes query compareValue)
    (Js.values entry).

(** Stage 1 of [filterLogs]: the time range. *)
Definition timeRangeStage (st : State) (filtered : list LogEntry) : list LogEntry :=
  let timeRange := _timeRange st in
  if isSome (start timeRange) || isSome (end_ timeRange)
  then List.filter (inTimeRange timeRange) filtered
  else filtered.

(** Stage 2 of [filterLogs]: the quick filters. *)
Definition quickFilterStage (st : State) (filtered : list LogEntry) : list LogEntry :=
  let quickFilters := _quickFilters st in
  if 0 <? List.length quickFilters
  then List.filter (fun entry => forallb (matchesFilter entry) quickFilters) filtered
  else filtered.

(** Stage 3 of [filterLogs]: the search query. *)
Definition queryStage (st : State) (filtered : list LogEntry) : list LogEntry :=
  let query := Str.trim (_searchQuery st) in
  if 0 <? String.length query then
    let isRegex := _isRegex st in
    let caseSensitive := _caseSensitive st in
    if isRegex then
      match RegExp_new query (negb caseSensitive) with
      | Some regex => List.filter (fun entry => matchesRegex entry regex) filtered
      | None => filtered
      end
    else
      let searchLower := if caseSensitive then query else Str.toLowerCase query in
      List.filter (fun entry => matchesSearch entry searchLower caseSensitive) filtered
  else filtered.

(** [filterLogs(logs)] *)
Definition filterLogs (st : State) (logs : list LogEntry) : list LogEntry :=
  queryStage st (quickFilterStage st (timeRangeStage st logs)).

End WithRuntime.
End Search.

(* ===================================================================== *)
(** ** Analytics service *)
(* ===================================================================== *)

Module LevelCount.
Record t : Type := { level : string; count : nat; percentage : Q; color : string }.
End LevelCount.

Module TimelineBucket.
Record t : Type := { time : Z; label : string; count : nat; maxCount : nat }.
End TimelineBucket.

Module DurationPoint.
(** The statistics are [None] where the source yields no number
    ([undefined], or the bound of an empty spread). *)
Record t : Type := {
  time : Z;
  label : string;
  avgDuration : Q;
  maxDuration : option Q;
  minDuration : option Q;
  p95Duration : option Q
}.
End DurationPoint.

Module Analytics.

(** [array.sort(compare)]: a stable sort by insertion, [le a b] standing
    for [compare(a, b) <= 0]. *)
Fixpoint insert {A : Type} (le : A -> A -> bool) (x : A) (l : list A) : list A :=
  match l with
  | [] => [x]
  | y :: l' => if le x y then x :: y :: l' else y :: insert le x l'
  end.

Fixpoint sort {A : Type} (le : A -> A -> bool) (l : list A) : list A :=
  match l with
  | [] => []
  | x :: l' => insert le x (sort le l')
  end.

(** A [Map] in insertion order. *)
Fixpoint mapGet {K V : Type} (eqb : K -> K -> bool) (k : K) (m : list (K * V)) : option V :=
  match m with
  | [] => None
  | (k', v) :: m' => if eqb k k' then Some v else mapGet eqb k m'
  end.

Fixpoint mapSet {K V : Type} (eqb : K -> K -> bool) (k : K) (v : V) (m : list (K * V))
  : list (K * V) :=
  match m with
  | [] => [(k, v)]
  | (k', v') :: m' =>
      if eqb k k' then (k, v) :: m' else (k', v') :: mapSet eqb k v m'
  end.

(** [priority.indexOf(x)] *)
Fixpoint indexOf (x : string) (l : list string) : Z :=
  match l with
  | [] => (-1)%Z
  | y :: l' =>
      if String.eqb x y then 0%Z
      else match indexOf x l' with
           | Zneg _ => (-1)%Z
           | i => (i + 1)%Z
           end
  end.

Definition levelColors : list (string * string) :=
  [ ("ERROR", "#C62828"); ("FATAL", "#AD1457"); ("CRITICAL", "#AD1457");
    ("WARN", "#E65100"); ("WARNING", "#E65100"); ("INFO", "#1565C0");
    ("DEBUG", "#2E7D32"); ("TRACE", "#455A64"); ("UNKNOWN", "#888888") ].

Definition priority : list string :=
  ["ERROR"; "FATAL"; "CRITICAL"; "WARN"; "WARNING"; "INFO"; "DEBUG"; "TRACE"; "UNKNOWN"].

(** The comparator of [levelDistribution]. *)
Definition compareLevels (a b : string * nat) : Z :=
  let aPriority := indexOf (fst a) priority in
  let bPriority := indexOf (fst b) priority in
  if negb (aPriority =? bPriority)%Z then (aPriority - bPriority)%Z
  else (Z.of_nat (snd b) - Z.of_nat (snd a))%Z.

(** [array.filter((_, i) => keep(i))] *)
Fixpoint filterIndex {A : Type} (keep : nat -> bool) (i : nat) (l : list A) : list A :=
  match l with
  | [] => []
  | x :: l' => if keep i then x :: filterIndex keep (S i) l' else filterIndex keep (S i) l'
  end.

(** [Math.ceil(n / 30)] *)
Definition ceilDiv30 (n : nat) : nat := (n + 29) / 30.

(** The limit of the timeline to 30 buckets. *)
Definition downsample {A : Type} (result : list A) : list A :=
  if 30 <? List.length result then
    let step := ceilDiv30 (List.length result) in
    filterIndex (fun i => i mod step =? 0) 0 result
  else result.

(** [Math.floor(t / bucketMs) * bucketMs] *)
Definition bucketOf (t bucketMs : Z) : Z := (t / bucketMs * bucketMs)%Z.

Definition minute : Z := (60 * 1000)%Z.
Definition hour : Z := (60 * 60 * 1000)%Z.
Definition day : Z := (24 * 60 * 60 * 1000)%Z.

(** [Math.floor(n * 0.95)].  The double nearest to 0.95 lies below it by
    less than 5e-17, and the product is rounded to the nearest double, so
    for every array length the floor equals that of the exact [19 n / 20]. *)
Definition p95Index (n : nat) : nat := (19 * n) / 20.

(** The double nearest to 0.95, the value of the literal in the source. *)
Definition double095 : float := 0x1.e666666666666p-1%float.

(** [k <= n * 0.95 < k + 1] in binary64 arithmetic, that is
    [Math.floor(n * 0.95) === k]. *)
Definition doubleFloorIs (n k : nat) : bool :=
  let x := PrimFloat.mul (PrimFloat.of_uint63 (Uint63.of_Z (Z.of_nat n))) double095 in
  PrimFloat.leb (PrimFloat.of_uint63 (Uint63.of_Z (Z.of_nat k))) x
  && PrimFloat.ltb x (PrimFloat.of_uint63 (Uint63.of_Z (Z.of_nat (S k)))).

(** [p95Index] agrees with the double computation for the lengths from
    [n] down to 0. *)
Fixpoint p95IndexExactUpTo (n : nat) : bool :=
  doubleFloorIs n (p95Index n) &&
  match n with
  | O => true
  | S n' => p95IndexExactUpTo n'
  end.

Definition Qsum (l : list Q) : Q := fold_left Qplus l (0%Q).

Definition Qmax (a b : Q) : Q := if Qle_bool a b then b else a.
Definition Qmin (a b : Q) : Q := if Qle_bool a b then a else b.

(** [Math.max(...l)] for a spread within the number of arguments that
    the engine accepts; [None] for the empty spread. *)
Definition maxOf (l : list Q) : option Q :=
  match l with
  | [] => None
  | x :: l' => Some (fold_left Qmax l' x)
  end.

Definition minOf (l : list Q) : option Q :=
  match l with
  | [] => None
  | x :: l' => Some (fold_left Qmin l' x)
  end.

(** [a || b] on array elements read by index: [None] is [undefined]. *)
Definition orElse (a b : option Q) : option Q :=
  match a with
  | Some q => if Qeq_bool q 0 then b else Some q
  | None => b
  end.

(** The gap-filling loop
    [for (bucket = start; bucket <= end; bucket += bucketMs) result.push(...)];
    [None] when [fuel] iterations do not reach the end. *)
Fixpoint fillLoop {A : Type} (fuel : nat) (mk : Z -> A) (bucket endBucket bucketMs : Z)
  (result : list A) : option (list A) :=
  if (bucket <=? endBucket)%Z then
    match fuel with
    | O => None
    | S fuel' => fillLoop fuel' mk (bucket + bucketMs)%Z endBucket bucketMs (result ++ [mk bucket])
    end
  else Some result.

Section WithRuntime.
Context {R : Runtime}.

(** [(log.level || 'UNKNOWN').toUpperCase()] *)
Definition levelOf (log : LogEntry) : Completion string :=
  let v := Js.read "level" log in
  match (if Js.truthy v then v else JString "UNKNOWN") with
  | JString s => Normal (Str.toUpperCase s)
  | _ => Throw (typeErrorMessage "toUpperCase")
  end.

(** The counting loop of [levelDistribution]. *)
Fixpoint countLevels (logs : list LogEntry) (counts : list (string * nat))
  : Completion (list (string * nat)) :=
  match logs with
  | [] => Normal counts
  | log :: logs' =>
      level <- levelOf log ;;
      let old := match mapGet String.eqb level counts with
                 | Some c => c
                 | None => 0
                 end in
      countLevels logs' (mapSet String.eqb level (old + 1) counts)
  end.

(** [levelDistribution] over the filtered logs. *)
Definition levelDistribution (logs : list LogEntry) : Completion (list LevelCount.t) :=
  counts <- countLevels logs [] ;;
  let total := List.length logs in
  Normal
    (List.map
       (fun lc : string * nat =>
          let (level, count) := lc in
          {| LevelCount.level := level;
             LevelCount.count := count;
             LevelCount.percentage :=
               if 0 <? total
               then (inject_Z (Z.of_nat count) / inject_Z (Z.of_nat total) * 100)%Q
               else 0%Q;
             LevelCount.color :=
               match mapGet String.eqb level levelColors with
               | Some c => c
               | None => "#888888"
               end |})
       (sort (fun a b => (compareLevels a b <=? 0)%Z) counts)).

(** The time values of the logs whose timestamp is a valid date. *)
Definition validTimes (logs : list LogEntry) : list Z :=
  flat_map (fun log =>
              match Builtin.new_Date (Js.read "@timestamp" log) with
              | Some t => [t]
              | None => []
              end) logs.

(** The valid time values of the logs, ascending. *)
Definition sortedTimes (logs : list LogEntry) : list Z :=
  sort (fun a b => (a - b <=? 0)%Z) (validTimes logs).

(** The bucket counting loop of [timelineData]. *)
Definition countBuckets (bucketMs : Z) (timestamps : list Z) : list (Z * nat) :=
  fold_left
    (fun buckets ts =>
       let bucketKey := bucketOf ts bucketMs in
       let old := match mapGet Z.eqb bucketKey buckets with
                  | Some c => c
                  | None => 0
                  end in
       mapSet Z.eqb bucketKey (old + 1) buckets)
    timestamps [].

(** The bucket size and the label format that [timelineData] chooses
    from the range of the timestamps. *)
Definition bucketing (range : Z) : Z * (Z -> string) :=
  if (range <? hour)%Z then (minute, toLocaleTimeString)
  else if (range <? day)%Z then ((15 * minute)%Z, toLocaleTimeString)
  else if (range <? 7 * day)%Z then (hour, toLocaleWeekdayHour)
  else (day, toLocaleMonthDay).

(** [Math.max(...counts)] on the counts of a non-empty [Map]: the spread
    passes one argument per count, and a call with more arguments than
    the engine accepts throws a [RangeError]. *)
Definition maxSpread (counts : list nat) : Completion nat :=
  if (N.of_nat (List.length counts) <=? maxArguments)%N
  then Normal (fold_left Nat.max counts 0)
  else Throw rangeErrorMessage.

(** The gap-filled series of [timelineData] before the limit to 30:
    [None] when the fuel of the gap-filling loop does not reach its end,
    [Some (Throw _)] when the call of [Math.max] throws. *)
Definition timelineSeries (logs : list LogEntry)
  : option (Completion (list TimelineBucket.t)) :=
  match sortedTimes logs with
  | [] => Some (Normal [])
  | (minTime :: _) as timestamps =>
      let maxTime := List.last timestamps minTime in
      let range := (maxTime - minTime)%Z in
      let '(bucketMs, formatLabel) := bucketing range in
      let buckets := countBuckets bucketMs timestamps in
      match maxSpread (List.map snd buckets) with
      | Throw message => Some (Throw message)
      | Normal maxCount =>
          let startBucket := bucketOf minTime bucketMs in
          let endBucket := bucketOf maxTime bucketMs in
          option_map Normal
            (fillLoop (S (Z.to_nat ((endBucket - startBucket) / bucketMs)))
               (fun bucket =>
                  {| TimelineBucket.time := bucket;
                     TimelineBucket.label := formatLabel bucket;
                     TimelineBucket.count :=
                       match mapGet Z.eqb bucket buckets with
                       | Some c => c
                       | None => 0
                       end;
                     TimelineBucket.maxCount := maxCount |})
               startBucket endBucket bucketMs [])
      end
  end.

(** [timelineData] over the filtered logs. *)
Definition timelineData (logs : list LogEntry)
  : option (Completion (list TimelineBucket.t)) :=
  match timelineSeries logs with
  | Some (Normal result) => Some (Normal (downsample result))
  | Some (Throw message) => Some (Throw message)
  | None => None
  end.


(** The callback computing the statistics of one bucket. *)
Definition bucketStats (entry : Z * list Q) : DurationPoint.t :=
  let (bucketTime, unsorted) := entry in
  let durations := sort (fun a b => Qle_bool (a - b) 0) unsorted in
  let p95Index := p95Index (List.length durations) in
  {| DurationPoint.time := bucketTime;
     DurationPoint.label := toLocaleTimeString bucketTime;
     DurationPoint.avgDuration :=
       (Qsum durations / inject_Z (Z.of_nat (List.length durations)))%Q;
     DurationPoint.maxDuration := maxOf durations;
     DurationPoint.minDuration := minOf durations;
     DurationPoint.p95Duration :=
       orElse (nth_error durations p95Index)
              (nth_error durations (List.length durations - 1)) |}.

(** The points with a valid time and a numeric duration, by time. *)
Definition dataPoints (logs : list LogEntry) : list (Z * Q) :=
  sort (fun a b => (fst a - fst b <=? 0)%Z)
    (flat_map (fun log =>
                 match Builtin.new_Date (Js.read "@timestamp" log),
                       Js.read "http.duration_ms" log with
                 | Some t, JNumber d => [(t, d)]
                 | _, _ => []
                 end) logs).

(** The grouping loop of [durationEvolution]. *)
Definition groupDurations (bucketMs : Z) (points : list (Z * Q)) : list (Z * list Q) :=
  fold_left
    (fun buckets point =>
       let bucketKey := bucketOf (fst point) bucketMs in
       let old := match mapGet Z.eqb bucketKey buckets with
                  | Some ds => ds
                  | None => []
                  end in
       mapSet Z.eqb bucketKey (old ++ [snd point]) buckets)
    points [].

(** [durationEvolution] over the filtered logs. *)
Definition durationEvolution (logs : list LogEntry) : list DurationPoint.t :=
  match dataPoints logs with
  | [] | [_] => []
  | ((minTime, _) :: _) as points =>
      let maxTime := fst (List.last points (minTime, 0%Q)) in
      let range := (maxTime - minTime)%Z in
      let bucketMs := if (range <? hour)%Z then (5 * minute)%Z else (15 * minute)%Z in
      let buckets := groupDurations bucketMs points in
      List.map bucketStats (sort (fun a b => (fst a - fst b <=? 0)%Z) buckets)
  end.

End WithRuntime.
End Analytics.

(* ===================================================================== *)
(** ** A concrete environment for the worked examples *)
(* ===================================================================== *)

(** An engine in the UTC zone with a fixed clock.  Its [Date.parse] reads
    the ISO form [YYYY-MM-DDTHH:MM:SS(.sss)?Z] only, its number printer
    covers plain decimal notation, and its regular expressions cover the
    patterns of letters, digits and spaces, which match literally (every
    other pattern is reported as invalid).  A call takes up to 65535
    arguments.  The general theorems hold for
    every [Runtime]; this one serves to run the services on inputs. *)
Module Reference.

Definition twoDigits (s : string) : option (Z * string) :=
  match s with
  | String a (String b r) =>
      if Str.isDigit a && Str.isDigit b
      then Some ((Json.digitVal a * 10 + Json.digitVal b)%Z, r)
      else None
  | _ => None
  end.

Definition expect (c : ascii) (s : string) : option string :=
  match s with
  | String x r => if Ascii.eqb x c then Some r else None
  | EmptyString => None
  end.

Definition isLeap (y : Z) : bool :=
  ((y mod 4 =? 0) && negb (y mod 100 =? 0) || (y mod 400 =? 0))%Z.

Definition daysInMonth (y m : Z) : Z :=
  (if m =? 2 then (if isLeap y then 29 else 28)
   else if (m =? 4) || (m =? 6) || (m =? 9) || (m =? 11) then 30 else 31)%Z.

(** Days from the epoch to a date of the proleptic Gregorian calendar. *)
Definition daysFromCivil (y m d : Z) : Z :=
  (let y' := if m <=? 2 then y - 1 else y in
   let era := y' / 400 in
   let yoe := y' - era * 400 in
   let doy := (153 * (if 2 <? m then m - 3 else m + 9) + 2) / 5 + d - 1 in
   let doe := yoe * 365 + yoe / 4 - yoe / 100 + doy in
   era * 146097 + doe - 719468)%Z.

(** The date of a day number, as (year, month, day). *)
Definition civilFromDays (z : Z) : Z * Z * Z :=
  (let z' := z + 719468 in
   let era := z' / 146097 in
   let doe := z' - era * 146097 in
   let yoe := (doe - doe / 1460 + doe / 36524 - doe / 146096) / 365 in
   let doy := doe - (365 * yoe + yoe / 4 - yoe / 100) in
   let mp := (5 * doy + 2) / 153 in
   let d := doy - (153 * mp + 2) / 5 + 1 in
   let m := if mp <? 10 then mp + 3 else mp - 9 in
   (if m <=? 2 then yoe + era * 400 + 1 else yoe + era * 400, m, d))%Z.

Definition parseIso (s : string) : TimeValue :=
  match twoDigits s with
  | Some (c, r0) =>
  match twoDigits r0 with
  | Some (yy, r1) =>
  match expect "-" r1 with
  | Some r2 =>
  match twoDigits r2 with
  | Some (mo, r3) =>
  match expect "-" r3 with
  | Some r4 =>
  match twoDigits r4 with
  | Some (d, r5) =>
  match expect "T" r5 with
  | Some r6 =>
  match twoDigits r6 with
  | Some (h, r7) =>
  match expect ":" r7 with
  | Some r8 =>
  match twoDigits r8 with
  | Some (mi, r9) =>
  match expect ":" r9 with
  | Some r10 =>
  match twoDigits r10 with
  | Some (sec, r11) =>
      let y := (c * 100 + yy)%Z in
      let ms_rest :=
        match r11 with
        | String "." (String a (String b (String c' r))) =>
            if Str.isDigit a && Str.isDigit b && Str.isDigit c'
            then Some ((Json.digitVal a * 100 + Json.digitVal b * 10 + Json.digitVal c')%Z, r)
            else None
        | _ => Some (0%Z, r11)
        end in
      match ms_rest with
      | Some (ms, "Z") =>
          if ((1 <=? mo) && (mo <=? 12) && (1 <=? d) && (d <=? daysInMonth y mo)
              && (h <=? 23) && (mi <=? 59) && (sec <=? 59))%Z
          then Some ((((daysFromCivil y mo d * 24 + h) * 60 + mi) * 60 + sec) * 1000 + ms)%Z
          else None
      | _ => None
      end
  | None => None end | None => None end | None => None end | None => None end
  | None => None end | None => None end | None => None end | None => None end
  | None => None end | None => None end | None => None end | None => None end.

Definition pad2 (n : Z) : string :=
  if (n <? 10)%Z then ("0" ++ Str.ofZ n)%string else Str.ofZ n.

Definition hourOf (t : Z) : Z := ((t / 3600000) mod 24)%Z.
Definition minuteOf (t : Z) : Z := ((t / 60000) mod 60)%Z.
Definition dayNumber (t : Z) : Z := (t / 86400000)%Z.

Definition weekdays : list string := ["Thu"; "Fri"; "Sat"; "Sun"; "Mon"; "Tue"; "Wed"].
Definition months : list string :=
  ["Jan"; "Feb"; "Mar"; "Apr"; "May"; "Jun"; "Jul"; "Aug"; "Sep"; "Oct"; "Nov"; "Dec"].

Definition timeLabel (t : Z) : string :=
  (pad2 (hourOf t) ++ ":" ++ pad2 (minuteOf t))%string.

Definition weekdayHourLabel (t : Z) : string :=
  (nth (Z.to_nat (dayNumber t mod 7)) weekdays EmptyString ++ ", " ++ pad2 (hourOf t))%string.

Definition monthDayLabel (t : Z) : string :=
  let '(_, m, d) := civilFromDays (dayNumber t) in
  (nth (Z.to_nat (m - 1)) months EmptyString ++ " " ++ Str.ofZ d)%string.

(** Digits of the fraction [r / d], at most [n] of them. *)
Fixpoint fraction (n : nat) (r d : Z) : string :=
  match n with
  | O => EmptyString
  | S n' =>
      if (r =? 0)%Z then EmptyString
      else (Str.ofZ (r * 10 / d) ++ fraction n' ((r * 10) mod d) d)%string
  end.

Definition numberToString (q : Q) : string :=
  let q := Qred q in
  let n := Qnum q in
  let d := Zpos (Qden q) in
  let a := Z.abs n in
  let body :=
    if (d =? 1)%Z then Str.ofZ a
    else (Str.ofZ (a / d) ++ "." ++ fraction 17 (a mod d) d)%string in
  if (n <? 0)%Z then ("-" ++ body)%string else body.

Definition hexDigit (n : nat) : ascii :=
  if n <? 10 then ascii_of_nat (48 + n) else ascii_of_nat (87 + n).

Fixpoint quoteChars (s : string) : string :=
  match s with
  | EmptyString => EmptyString
  | String c s' =>
      let esc (e : ascii) := String Str.BACKSLASH (String e (quoteChars s')) in
      if Ascii.eqb c Str.DQUOTE then esc Str.DQUOTE
      else if Ascii.eqb c Str.BACKSLASH then esc Str.BACKSLASH
      else if Ascii.eqb c Str.BS then esc "b"%char
      else if Ascii.eqb c Str.FF then esc "f"%char
      else if Ascii.eqb c Str.LF then esc "n"%char
      else if Ascii.eqb c Str.CR then esc "r"%char
      else if Ascii.eqb c Str.TAB then esc "t"%char
      else if Str.code c <? 32 then
        (String Str.BACKSLASH "u00"
           ++ String (hexDigit (Str.code c / 16))
                (String (hexDigit (Str.code c mod 16)) (quoteChars s')))%string
      else String c (quoteChars s')
  end.

Definition quoteString (s : string) : string :=
  (String Str.DQUOTE (quoteChars s) ++ LogParser.quote)%string.

(** [JSON.stringify(v)]; an [undefined] array element prints as [null],
    an [undefined] property is left out. *)
Fixpoint stringify (v : JValue) : string :=
  match v with
  | JUndefined | JNull => "null"
  | JBool true => "true"
  | JBool false => "false"
  | JNumber q => numberToString q
  | JString s => quoteString s
  | JArray l => ("[" ++ Js.joinWith "," (List.map stringify l) ++ "]")%string
  | JObject o =>
      ("{" ++ Js.joinWith ","
                ((fix members (ps : list (string * JValue)) : list string :=
                    match ps with
                    | [] => []
                    | (k, JUndefined) :: ps' => members ps'
                    | (k, x) :: ps' => (quoteString k ++ ":" ++ stringify x)%string :: members ps'
                    end) o)
           ++ "}")%string
  end.

Fixpoint allChars (p : ascii -> bool) (s : string) : bool :=
  match s with
  | EmptyString => true
  | String c s' => p c && allChars p s'
  end.

Definition literalPattern (s : string) : bool :=
  allChars (fun c => Str.isDigit c || Str.isUpper c || Str.isLower c || Ascii.eqb c " ") s.

#[export] Instance runtime : Runtime := {|
  now := "1970-01-01T00:00:00.000Z";
  Date_parse := parseIso;
  Number_toString := numberToString;
  JSON_parse := Json.parse;
  syntaxErrorMessage := fun _ => "Unexpected token in JSON";
  typeErrorMessage := fun op => ("TypeError: " ++ op)%string;
  JSON_stringify := stringify;
  RegExp := string * bool;
  RegExp_new := fun pattern ignoreCase =>
    if literalPattern pattern then Some (pattern, ignoreCase) else None;
  RegExp_test := fun re s =>
    if snd re then Str.includes (Str.toLowerCase (fst re)) (Str.toLowerCase s)
    else Str.includes (fst re) s;
  toLocaleTimeString := timeLabel;
  toLocaleWeekdayHour := weekdayHourLabel;
  toLocaleMonthDay := monthDayLabel;
  Function_toString := fun name => ("function " ++ name ++ "() { [native code] }")%string;
  maxArguments := 65535%N;
  rangeErrorMessage := "Maximum call stack size exceeded"
|}.

End Reference.

(* ===================================================================== *)
(** ** Inputs of the worked examples *)
(* ===================================================================== *)

Module Examples.

(** A parser state holding one record of an earlier load. *)
Definition loaded : LogParser.State :=
  {| LogParser._logs := [[("_id", JString "entry-0"); ("message", JString "kept")]];
     LogParser._isLoading := false;
     LogParser._error := None |}.

(** Write a text with apostrophes in place of its double quotes. *)
Definition dq (s : string) : string :=
  Str.map (fun c => if Ascii.eqb c "'" then Str.DQUOTE else c) s.

(** Content declared as a JSON array that is not valid JSON. *)
Definition brokenArray : string := dq "[{'level':'info'}".

(** The two-line NDJSON input of the specification. *)
Definition ndjsonLine1 : string :=
  dq "{'@timestamp':'2024-01-01T00:00:00Z','level':'info','msg':'ok'}".
Definition ndjsonLine2 : string := "not json".
Definition ndjson : string := (ndjsonLine1 ++ String Str.LF ndjsonLine2)%string.

(** An object with a nested array and an empty nested object. *)
Definition nested : list (string * JValue) :=
  [ ("http", JObject [("codes", JArray [JNumber 1; JNumber 2])]);
    ("meta", JObject []) ].

(** A record whose timestamp is not a date. *)
Definition undated : LogEntry :=
  [("_id", JString "line-0"); ("@timestamp", JString "yesterday"); ("message", JString "m")].

(** A search state with both bounds of the time range set. *)
Definition bounded : Search.State :=
  {| Search._searchQuery := EmptyString;
     Search._isRegex := false;
     Search._quickFilters := [];
     Search._timeRange :=
       {| Search.start := Some {| Search.getTime := Some 0%Z |};
          Search.end_ := Some {| Search.getTime := Some 1000%Z |} |};
     Search._caseSensitive := false |}.

(** A search state without query, filters and time range. *)
Definition idle : Search.State := Search.clearAll bounded.

Definition timed (duration : Q) : LogEntry :=
  [ ("@timestamp", JString "2024-01-01T00:00:00Z");
    ("http.duration_ms", JNumber duration) ].

(** Twenty-one requests of one bucket: twenty took 0 ms, one took 5 ms. *)
Definition zeroHeavy : list LogEntry := repeat (timed 0) 20 ++ [timed 5].

(** The five requests of the percentile example of the specification. *)
Definition fiveDurations : list LogEntry :=
  List.map timed [10; 20; 30; 40; 100]%Q.

(** Two records three days apart: 73 hourly buckets once the gaps are filled. *)
Definition threeDays : list LogEntry :=
  [ [("@timestamp", JString "2024-01-01T00:00:00Z")];
    [("@timestamp", JString "2024-01-04T00:00:00Z")] ].

(** Two records, one of them with a level outside the priority list. *)
Definition freeFormLevels : list LogEntry :=
  [ [("level", JString "ERROR")]; [("level", JString "NOTICE")] ].

(** A string whose only escape sequence is [\r]. *)
Definition crOnly : string := "a\rb".

(** A string whose only escape sequence is an escaped backslash. *)
Definition backslashOnly : string := "C:\\logs".

(** A record whose source has a field under the key [__proto__]. *)
Definition protoKey : Obj := [("__proto__", JString "x"); ("a", JNumber 1)].

End Examples.

(* ===================================================================== *)
(** ** Log parser service: content types and columns *)
(* ===================================================================== *)

Module ContentType.

(** [ContentType] of the source. *)
Inductive t : Type := json | xml | text | unknown.

Definition bsBrace : string := String Str.BACKSLASH "{".

(** Longest prefix of word characters, and the rest. *)
Fixpoint takeWord (s : string) : string * string :=
  match s with
  | String c s' =>
      if Str.isWordChar c
      then let '(w, r) := takeWord s' in (String c w, r)
      else (EmptyString, s)
  | EmptyString => (EmptyString, s)
  end.

(** [/<(\w+)[^>]*>/] anchored at the start of [s]: the tag name. *)
Definition tagAt (s : string) : option string :=
  match s with
  | String c r =>
      if Ascii.eqb c "<" then
        let '(w, r') := takeWord r in
        if negb (Str.isEmpty w) && Str.includes ">" r' then Some w else None
      else None
  | EmptyString => None
  end.

(** [looksLikeXml(content)] *)
Definition looksLikeXml (content : string) : bool :=
  match LogParser.search tagAt content with
  | None => false
  | Some tagName => Str.includes ("</" ++ tagName ++ ">")%string content
  end.

Section WithRuntime.
Context {R : Runtime}.

(** [detectContentType(content)]; the function calls itself on the
    unescaped text, [None] when [fuel] calls do not reach a result. *)
Fixpoint detectContentType (fuel : nat) (content : string) : option t :=
  match fuel with
  | O => None
  | S fuel' =>
      if Str.isEmpty content then Some unknown
      else
        let trimmed := Str.trim content in
        if Str.startsWith LogParser.bsq trimmed || Str.startsWith bsBrace trimmed then
          let unescaped := LogParser.unescapeString trimmed in
          detectContentType fuel' unescaped
        else if ((Str.startsWith "{" trimmed && Str.endsWith "}" trimmed)
                 || (Str.startsWith "[" trimmed && Str.endsWith "]" trimmed))
                && Search.isSome (JSON_parse trimmed)
        then Some json
        else if Str.startsWith "<?xml" trimmed
                || (Str.startsWith "<" trimmed && Str.endsWith ">" trimmed
                    && looksLikeXml trimmed)
        then Some xml
        else if Str.includes "<soap:Envelope" trimmed || Str.includes "<SOAP-ENV:" trimmed
        then Some xml
        else Some text
  end.

End WithRuntime.
End ContentType.

Module Columns.

(** [set.add(key)] on a [Set] in insertion order. *)
Definition setAdd (key : string) (keys : list string) : list string :=
  if existsb (String.eqb key) keys then keys else keys ++ [key].

(** The loops collecting the keys of all logs. *)
Definition collectKeys (logs : list LogEntry) : list string :=
  fold_left (fun keys log => fold_left (fun ks key => setAdd key ks) (Js.keys log) keys)
    logs [].

Definition priorityFields : list string :=
  ["@timestamp"; "level"; "message"; "_id"; "_index"].

(** [array.includes(x)] *)
Definition includes (x : string) (l : list string) : bool := existsb (String.eqb x) l.

(** [getAvailableColumns()] on the loaded logs; the default [sort()]
    orders strings by their code units. *)
Definition getAvailableColumns (logs : list LogEntry) : list string :=
  if List.length logs =? 0 then []
  else
    let allKeys := collectKeys logs in
    List.filter (fun f => includes f allKeys) priorityFields
    ++ Analytics.sort String.leb
         (List.filter (fun k => negb (includes k priorityFields)) allKeys).

End Columns.

(* ===================================================================== *)
(** ** Search service: state operations and highlighting *)
(* ===================================================================== *)

Module SearchOps.

(** [removeQuickFilter(index)] *)
Definition removeQuickFilter (index : Z) (st : Search.State) : Search.State :=
  {| Search._searchQuery := Search._searchQuery st;
     Search._isRegex := Search._isRegex st;
     Search._quickFilters :=
       Analytics.filterIndex (fun i => negb (Z.of_nat i =? index)%Z) 0
         (Search._quickFilters st);
     Search._timeRange := Search._timeRange st;
     Search._caseSensitive := Search._caseSensitive st |}.

(** [setSearchQuery(query)] *)
Definition setSearchQuery (query : string) (st : Search.State) : Search.State :=
  {| Search._searchQuery := query;
     Search._isRegex := Search._isRegex st;
     Search._quickFilters := Search._quickFilters st;
     Search._timeRange := Search._timeRange st;
     Search._caseSensitive := Search._caseSensitive st |}.

(** [setTimeRange(start, end)] *)
Definition setTimeRange (s e : option Search.Date) (st : Search.State) : Search.State :=
  {| Search._searchQuery := Search._searchQuery st;
     Search._isRegex := Search._isRegex st;
     Search._quickFilters := Search._quickFilters st;
     Search._timeRange := {| Search.start := s; Search.end_ := e |};
     Search._caseSensitive := Search._caseSensitive st |}.

(** [hasActiveFilters] *)
Definition hasActiveFilters (st : Search.State) : bool :=
  (0 <? String.length (Search._searchQuery st))
  || (0 <? List.length (Search._quickFilters st))
  || Search.isSome (Search.start (Search._timeRange st))
  || Search.isSome (Search.end_ (Search._timeRange st)).

(** [s.replace(/c/g, rep)] for a pattern of one literal character. *)
Fixpoint replaceChar (c : ascii) (rep : string) (s : string) : string :=
  match s with
  | EmptyString => EmptyString
  | String a s' =>
      if Ascii.eqb a c then (rep ++ replaceChar c rep s')%string
      else String a (replaceChar c rep s')
  end.

(** [escapeHtml(str)] *)
Definition escapeHtml (str : string) : string :=
  replaceChar Str.DQUOTE "&quot;"
    (replaceChar ">" "&gt;"
       (replaceChar "<" "&lt;"
          (replaceChar "&" "&amp;" str))).

(** Whether every character of a string is an ASCII character: on such
    strings [toLowerCase] and [toUpperCase] only exchange the letters [a-z]
    and [A-Z]. *)
Fixpoint isAscii (s : string) : bool :=
  match s with
  | EmptyString => true
  | String c s' => (Str.code c <? 128) && isAscii s'
  end.

(** Whether a character occurs in a string. *)
Fixpoint hasChar (c : ascii) (s : string) : bool :=
  match s with
  | EmptyString => false
  | String a s' => Ascii.eqb a c || hasChar c s'
  end.

End SearchOps.

(* ===================================================================== *)
(** ** Export service *)
(* ===================================================================== *)

Module CsvExport.

Definition comma : string := ",".
Definition lf : string := String Str.LF EmptyString.

(** The global replacement of each double quote by two of them. *)
Definition doubleQuotes (value : string) : string :=
  SearchOps.replaceChar Str.DQUOTE (String Str.DQUOTE LogParser.quote) value.

(** [escapeCsvValue(value)] *)
Definition escapeCsvValue (value : string) : string :=
  if Str.includes comma value || Str.includes LogParser.quote value
     || Str.includes lf value
  then (LogParser.quote ++ doubleQuotes value ++ LogParser.quote)%string
  else value.

(** Drop the last character of a string. *)
Fixpoint dropLast (s : string) : string :=
  match s with
  | EmptyString => EmptyString
  | String c EmptyString => EmptyString
  | String c s' => String c (dropLast s')
  end.

(** The reader of one CSV field, which the service itself does not have:
    a field that opens with a quote loses its enclosing quotes and has its
    doubled quotes halved. It serves to show that escaping loses nothing. *)
Definition readCsvValue (field : string) : string :=
  match field with
  | String c body =>
      if Ascii.eqb c Str.DQUOTE
      then Str.replace2 Str.DQUOTE Str.DQUOTE Str.DQUOTE (dropLast body)
      else field
  | EmptyString => field
  end.

End CsvExport.

(* ===================================================================== *)
(** ** Analytics service: status codes, summary and error rate *)
(* ===================================================================== *)

Module StatusCount.
Record t : Type := { category : string; count : nat; percentage : Q; color : string }.
End StatusCount.

Module ErrorRateBucket.
Record t : Type := {
  time : Z;
  label : string;
  errorRate : Q;
  errorCount : nat;
  totalCount : nat
}.
End ErrorRateBucket.

Module Summary.
Record t : Type := {
  totalLogs : nat;
  errorCount : nat;
  errorRate : Q;
  successRate : Q;
  avgDuration : Q
}.
End Summary.

Module AnalyticsMore.

(** The counters [{'2xx': 0, '3xx': 0, '4xx': 0, '5xx': 0}]. *)
Record StatusCounts : Type := { c2xx : nat; c3xx : nat; c4xx : nat; c5xx : nat }.

(** The body of the counting loop of [statusDistribution]. *)
Definition countStatus (counts : StatusCounts) (log : LogEntry) : StatusCounts :=
  match Js.read "http.status_code" log with
  | JNumber status =>
      if Qle_bool 200 status && negb (Qle_bool 300 status)
      then {| c2xx := S (c2xx counts); c3xx := c3xx counts;
              c4xx := c4xx counts; c5xx := c5xx counts |}
      else if Qle_bool 300 status && negb (Qle_bool 400 status)
      then {| c2xx := c2xx counts; c3xx := S (c3xx counts);
              c4xx := c4xx counts; c5xx := c5xx counts |}
      else if Qle_bool 400 status && negb (Qle_bool 500 status)
      then {| c2xx := c2xx counts; c3xx := c3xx counts;
              c4xx := S (c4xx counts); c5xx := c5xx counts |}
      else if Qle_bool 500 status
      then {| c2xx := c2xx counts; c3xx := c3xx counts;
              c4xx := c4xx counts; c5xx := S (c5xx counts) |}
      else counts
  | _ => counts
  end.

Definition statusColors : list (string * string) :=
  [ ("2xx", "#2E7D32"); ("3xx", "#E65100"); ("4xx", "#C62828"); ("5xx", "#AD1457") ].

(** [Object.entries(counts)] *)
Definition statusEntries (counts : StatusCounts) : list (string * nat) :=
  [ ("2xx", c2xx counts); ("3xx", c3xx counts); ("4xx", c4xx counts); ("5xx", c5xx counts) ].

(** [statusDistribution] over the filtered logs. *)
Definition statusDistribution (logs : list LogEntry) : list StatusCount.t :=
  let counts :=
    fold_left countStatus logs {| c2xx := 0; c3xx := 0; c4xx := 0; c5xx := 0 |} in
  let total := fold_left Nat.add (List.map snd (statusEntries counts)) 0 in
  List.map
    (fun cc : string * nat =>
       let (category, count) := cc in
       {| StatusCount.category := category;
          StatusCount.count := count;
          StatusCount.percentage :=
            if 0 <? total
            then (inject_Z (Z.of_nat count) / inject_Z (Z.of_nat total) * 100)%Q
            else 0%Q;
          StatusCount.color :=
            match Analytics.mapGet String.eqb category statusColors with
            | Some c => c
            | None => EmptyString
            end |})
    (List.filter (fun cc => 0 <? snd cc) (statusEntries counts)).

Definition errorLevels : list string := ["ERROR"; "FATAL"; "CRITICAL"].

Section WithRuntime.
Context {R : Runtime}.

(** [summary] over the filtered logs. *)
Definition summary (logs : list LogEntry) : Completion Summary.t :=
  levels <- Analytics.levelDistribution logs ;;
  let statuses := statusDistribution logs in
  let errorCount :=
    fold_left (fun sum l => sum + LevelCount.count l)
      (List.filter (fun l => Columns.includes (LevelCount.level l) errorLevels) levels) 0 in
  let successRate :=
    if 0 <? List.length statuses then
      match List.find (fun s => String.eqb (StatusCount.category s) "2xx") statuses with
      | Some s => StatusCount.percentage s
      | None => 0%Q
      end
    else 0%Q in
  let durations :=
    flat_map (fun log => match Js.read "http.duration_ms" log with
                         | JNumber d => [d]
                         | _ => []
                         end) logs in
  let avgDuration :=
    if 0 <? List.length durations
    then (Analytics.Qsum durations / inject_Z (Z.of_nat (List.length durations)))%Q
    else 0%Q in
  Normal
    {| Summary.totalLogs := List.length logs;
       Summary.errorCount := errorCount;
       Summary.errorRate :=
         if 0 <? List.length logs
         then (inject_Z (Z.of_nat errorCount) / inject_Z (Z.of_nat (List.length logs)) * 100)%Q
         else 0%Q;
       Summary.successRate := successRate;
       Summary.avgDuration := avgDuration |}.

(** [['ERROR', 'FATAL', 'CRITICAL'].includes((log.level || '').toUpperCase())] *)
Definition isErrorLog (log : LogEntry) : Completion bool :=
  let v := Js.read "level" log in
  match (if Js.truthy v then v else JString EmptyString) with
  | JString s => Normal (Columns.includes (Str.toUpperCase s) errorLevels)
  | _ => Throw (typeErrorMessage "toUpperCase")
  end.

(** The mapping loop of [errorRateEvolution]: every log with its time
    value and error flag. *)
Fixpoint errorPoints (logs : list LogEntry) : Completion (list (TimeValue * bool)) :=
  match logs with
  | [] => Normal []
  | log :: logs' =>
      isError <- isErrorLog log ;;
      rest <- errorPoints logs' ;;
      Normal ((Builtin.new_Date (Js.read "@timestamp" log), isError) :: rest)
  end.

(** The grouping loop of [errorRateEvolution]: per bucket, the errors and
    the total. *)
Definition groupErrors (bucketMs : Z) (points : list (Z * bool)) : list (Z * (nat * nat)) :=
  fold_left
    (fun (buckets : list (Z * (nat * nat))) (point : Z * bool) =>
       let bucketKey := Analytics.bucketOf (fst point) bucketMs in
       let old := match Analytics.mapGet Z.eqb bucketKey buckets with
                  | Some b => b
                  | None => (0, 0)
                  end in
       Analytics.mapSet Z.eqb bucketKey
         ((if snd point then S (fst old) else fst old), S (snd old)) buckets)
    points [].

(** [errorRateEvolution] over the filtered logs. *)
Definition errorRateEvolution (logs : list LogEntry) : Completion (list ErrorRateBucket.t) :=
  mapped <- errorPoints logs ;;
  let dataPoints :=
    Analytics.sort (fun a b => (fst a - fst b <=? 0)%Z)
      (flat_map (fun p : TimeValue * bool =>
                   match fst p with
                   | Some t => [(t, snd p)]
                   | None => []
                   end) mapped) in
  match dataPoints return Completion (list ErrorRateBucket.t) with
  | [] | [_] => Normal []
  | ((minTime, _) :: _) as points =>
      let maxTime := fst (List.last points (minTime, false)) in
      let range := (maxTime - minTime)%Z in
      let bucketMs :=
        if (range <? Analytics.hour)%Z
        then (5 * Analytics.minute)%Z else (15 * Analytics.minute)%Z in
      let buckets := groupErrors bucketMs points in
      Normal
        (List.map
           (fun entry : Z * (nat * nat) =>
              let '(bucketTime, (errors, total)) := entry in
              {| ErrorRateBucket.time := bucketTime;
                 ErrorRateBucket.label := toLocaleTimeString bucketTime;
                 ErrorRateBucket.errorRate :=
                   if 0 <? total
                   then (inject_Z (Z.of_nat errors) / inject_Z (Z.of_nat total) * 100)%Q
                   else 0%Q;
                 ErrorRateBucket.errorCount := errors;
                 ErrorRateBucket.totalCount := total |})
           (Analytics.sort (fun a b => (fst a - fst b <=? 0)%Z) buckets))
  end.

End WithRuntime.
End AnalyticsMore.

(* ===================================================================== *)
(** ** Further inputs of the worked examples *)
(* ===================================================================== *)

Module MoreExamples.

(** A search state in regex mode whose query is not a valid pattern. *)
Definition brokenRegex : Search.State :=
  {| Search._searchQuery := "(";
     Search._isRegex := true;
     Search._quickFilters :=
       [{| Search.field := "level"; Search.value := "ERROR";
           Search.operator := Search.equals |}];
     Search._timeRange := {| Search.start := None; Search.end_ := None |};
     Search._caseSensitive := false |}.

(** A search state with a literal query in mixed case. *)
Definition mixedCase : Search.State := SearchOps.setSearchQuery "Kept" Examples.idle.

(** A record stamped one second after the epoch. *)
Definition oneSecond : LogEntry := [("@timestamp", JString "1970-01-01T00:00:01Z")].

End MoreExamples.

(* ===================================================================== *)
(** * Properties *)
(* ===================================================================== *)

(** ** Objects *)

(** Induction over values, through the elements of arrays and the
    properties of objects. *)
Lemma JValue_ind (P : JValue -> Prop)
  (Hundef : P JUndefined) (Hnull : P JNull)
  (Hbool : forall b, P (JBool b)) (Hnum : forall q, P (JNumber q))
  (Hstr : forall s, P (JString s))
  (Harr : forall l, Forall P l -> P (JArray l))
  (Hobj : forall o, Forall (fun kv => P (snd kv)) o -> P (JObject o)) :
  forall v, P v.
Proof.
  fix IH 1. intros [ | | b | q | s | l | o].
  - exact Hundef.
  - exact Hnull.
  - apply Hbool.
  - apply Hnum.
  - apply Hstr.
  - apply Harr. revert l. fix IHl 1. intros [ | x l].
    + constructor.
    + constructor; [ apply IH | apply IHl ].
  - apply Hobj. revert o. fix IHo 1. intros [ | [k x] o].
    + constructor.
    + constructor; [ apply IH | apply IHo ].
Qed.

Lemma get_set (k k' : string) (v : JValue) (o : Obj) :
  Js.get k (Js.set k' v o) = if String.eqb k k' then Some v else Js.get k o.
Proof.
  induction o as [ | [k0 v0] o IH]; simpl.
  - reflexivity.
  - destruct (String.eqb k' k0) eqn:E; simpl.
    + apply String.eqb_eq in E. subst k0.
      destruct (String.eqb k k'); reflexivity.
    + destruct (String.eqb k k0) eqn:E0.
      * apply String.eqb_eq in E0. subst k0.
        rewrite String.eqb_sym, E. reflexivity.
      * exact IH.
Qed.

Lemma get_app (k : string) (a b : Obj) :
  Js.get k (a ++ b) = match Js.get k a with Some v => Some v | None => Js.get k b end.
Proof.
  induction a as [ | [k0 v0] a IH]; simpl; [ reflexivity | ].
  destruct (String.eqb k k0); [ reflexivity | exact IH ].
Qed.

Lemma get_In (k : string) (v : JValue) (o : Obj) :
  Js.get k o = Some v -> In (k, v) o.
Proof.
  induction o as [ | [k0 v0] o IH]; simpl; [ discriminate | ].
  destruct (String.eqb k k0) eqn:E.
  - apply String.eqb_eq in E. intros H. injection H as ->. subst. now left.
  - intros H. right. now apply IH.
Qed.

Lemma get_None (k : string) (o : Obj) :
  ~ In k (Js.keys o) -> Js.get k o = None.
Proof.
  induction o as [ | [k0 v0] o IH]; simpl; [ reflexivity | ].
  intros H. destruct (String.eqb k k0) eqn:E.
  - apply String.eqb_eq in E. subst. exfalso. apply H. now left.
  - apply IH. intros Hin. apply H. now right.
Qed.

Lemma In_get (k : string) (v : JValue) (o : Obj) :
  In (k, v) o -> exists v', Js.get k o = Some v'.
Proof.
  induction o as [ | [k0 v0] o IH]; simpl; [ tauto | ].
  intros [H | H].
  - injection H as -> ->. rewrite String.eqb_refl. eauto.
  - destruct (String.eqb k k0); eauto.
Qed.

Lemma In_keys_unique (k : string) (v v' : JValue) (o : Obj) :
  NoDup (Js.keys o) -> In (k, v) o -> In (k, v') o -> v = v'.
Proof.
  induction o as [ | [k0 v0] o IH]; simpl; [ tauto | ].
  intros Hnd. inversion Hnd as [ | ? ? Hnot Hnd']; subst.
  assert (Hk : forall w, In (k0, w) o -> False).
  { intros w Hw. apply Hnot. change k0 with (fst (k0, w)). now apply in_map. }
  intros [H | H] [H' | H'].
  - congruence.
  - injection H as -> ->. destruct (Hk _ H').
  - injection H' as -> ->. destruct (Hk _ H).
  - now apply IH.
Qed.

Lemma get_rev (k : string) (o : Obj) :
  NoDup (Js.keys o) -> Js.get k (rev o) = Js.get k o.
Proof.
  induction o as [ | [k0 v0] o IH]; simpl; [ reflexivity | ].
  intros Hnd. inversion Hnd as [ | ? ? Hnot Hnd']; subst.
  rewrite get_app, (IH Hnd'). simpl.
  destruct (String.eqb k k0) eqn:E.
  - apply String.eqb_eq in E. subst. now rewrite get_None.
  - now destruct (Js.get k o).
Qed.

Lemma keys_set (k : string) (v : JValue) (o : Obj) :
  Js.keys (Js.set k v o) =
  match Js.get k o with Some _ => Js.keys o | None => Js.keys o ++ [k] end.
Proof.
  induction o as [ | [k0 v0] o IH]; simpl; [ reflexivity | ].
  destruct (String.eqb k k0) eqn:E; simpl.
  - apply String.eqb_eq in E. now subst.
  - rewrite IH. now destruct (Js.get k o).
Qed.

Lemma NoDup_set (k : string) (v : JValue) (o : Obj) :
  NoDup (Js.keys o) -> NoDup (Js.keys (Js.set k v o)).
Proof.
  intros Hnd. rewrite keys_set. destruct (Js.get k o) eqn:E; [ exact Hnd | ].
  apply NoDup_rev in Hnd. rewrite <- (rev_involutive (Js.keys o ++ [k])).
  apply NoDup_rev. rewrite rev_app_distr. simpl. constructor; [ | exact Hnd ].
  rewrite <- in_rev. intros Hin. apply in_map_iff in Hin as [[k1 v1] [Hk Hin]].
  simpl in Hk. subst k1. apply In_get in Hin as [v' Hv']. congruence.
Qed.

Lemma NoDup_assign (target source : Obj) :
  NoDup (Js.keys target) -> NoDup (Js.keys (Js.assign target source)).
Proof.
  unfold Js.assign. revert target.
  induction source as [ | [k v] s IH]; intros target Hnd; simpl; [ exact Hnd | ].
  apply IH. now apply NoDup_set.
Qed.

Lemma get_assign (k : string) (target source : Obj) :
  Js.get k (Js.assign target source) =
  match Js.get k (rev source) with Some v => Some v | None => Js.get k target end.
Proof.
  unfold Js.assign. revert target.
  induction source as [ | [k0 v0] s IH]; intros target; simpl; [ reflexivity | ].
  rewrite IH, get_app, get_set. simpl.
  destruct (Js.get k (rev s)); [ reflexivity | ].
  now destruct (String.eqb k k0).
Qed.

(** ** Flattening *)

Section Flatten.
Context {R : Runtime}.

Lemma get_put (k k' : string) (v : JValue) (o : Obj) :
  Js.get k (Js.put k' v o) =
  if String.eqb k' "__proto__" then Js.get k o
  else if String.eqb k k' then Some v else Js.get k o.
Proof.
  unfold Js.put. destruct (String.eqb k' "__proto__"); [ reflexivity | apply get_set ].
Qed.

Lemma NoDup_put (k : string) (v : JValue) (o : Obj) :
  NoDup (Js.keys o) -> NoDup (Js.keys (Js.put k v o)).
Proof.
  intros Hnd. unfold Js.put.
  destruct (String.eqb k "__proto__"); [ exact Hnd | now apply NoDup_set ].
Qed.

(** [Object.assign] from a source without the key [__proto__] stores
    every property of the source. *)
Lemma objectAssign_assign (source : Obj) :
  Js.get "__proto__" source = None ->
  forall target, Js.objectAssign target source = Js.assign target source.
Proof.
  unfold Js.objectAssign, Js.assign.
  induction source as [ | [k v] s IH]; intros Hnone target; [ reflexivity | ].
  cbn [Js.get] in Hnone. cbn [fold_left fst snd].
  destruct (String.eqb "__proto__" k) eqn:E; [ discriminate | ].
  unfold Js.put at 2. rewrite String.eqb_sym, E. now apply IH.
Qed.

Lemma flattenEntries_leaves (prefix : string) (fields : list (string * JValue)) :
  Forall (fun kv => Js.isPlainObject (snd kv) = true ->
                    forall p, exists r, LogParser.flattensTo (snd kv) p r) fields ->
  forall result, NoDup (Js.keys result) ->
  exists r,
    LogParser.flattenEntries LogParser.flattenObject prefix fields result = Normal r /\
    NoDup (Js.keys r) /\
    forall k, Js.get k r =
              if String.eqb k "__proto__" then Js.get k result
              else match Js.get k (rev (LogParser.leavesOf (JObject fields) prefix)) with
                   | Some v => Some v
                   | None => Js.get k result
                   end.
Proof.
  induction 1 as [ | [key value] fields Hv _ IH]; intros result Hnd.
  - exists result. split; [ reflexivity | split; [ exact Hnd | ] ].
    intros k. simpl. now destruct (String.eqb k "__proto__").
  - simpl in Hv. simpl LogParser.flattenEntries. unfold LogParser.flattenStep.
    destruct (Js.isPlainObject value) eqn:Hplain.
    + destruct (Hv eq_refl (LogParser.newKey prefix key)) as [sub [Hsub [Hnds Hget]]].
      rewrite Hsub. simpl bind.
      assert (Hproto : Js.get "__proto__" sub = None) by (now rewrite Hget).
      rewrite (objectAssign_assign sub Hproto).
      destruct (IH (Js.assign result sub)) as [r [Hr [Hndr Hgr]]].
      { now apply NoDup_assign. }
      exists r. split; [ exact Hr | split; [ exact Hndr | ] ].
      intros k. rewrite Hgr, get_assign, (get_rev k sub Hnds), Hget.
      simpl LogParser.leavesOf. rewrite Hplain.
      rewrite rev_app_distr, get_app.
      simpl LogParser.leavesOf.
      destruct (String.eqb k "__proto__"); [ reflexivity | ].
      now destruct (Js.get k (rev (flat_map _ fields))).
    + simpl bind.
      destruct (IH (Js.put (LogParser.newKey prefix key) value result)) as [r [Hr [Hndr Hgr]]].
      { now apply NoDup_put. }
      exists r. split; [ exact Hr | split; [ exact Hndr | ] ].
      intros k. rewrite Hgr, get_put. simpl LogParser.leavesOf. rewrite Hplain.
      rewrite rev_app_distr, get_app.
      simpl LogParser.leavesOf.
      destruct (String.eqb_spec k "__proto__") as [-> | Hk].
      * destruct (String.eqb_spec (LogParser.newKey prefix key) "__proto__") as [ | Hn];
          [ reflexivity | ].
        destruct (String.eqb_spec "__proto__" (LogParser.newKey prefix key)); congruence.
      * destruct (Js.get k (rev (flat_map _ fields))); [ reflexivity | ].
        simpl.
        destruct (String.eqb_spec (LogParser.newKey prefix key) "__proto__") as [Hn | Hn].
        -- destruct (String.eqb_spec k (LogParser.newKey prefix key)); congruence.
        -- now destruct (String.eqb k (LogParser.newKey prefix key)).
Qed.

(** Flattening a plain object never throws. *)
Lemma flattenObject_leaves (fields : list (string * JValue)) (prefix : string) :
  exists r, LogParser.flattensTo (JObject fields) prefix r.
Proof.
  revert prefix.
  assert (H : forall v, Js.isPlainObject v = true -> forall p, exists r, LogParser.flattensTo v p r).
  { induction v using JValue_ind; try discriminate. intros _ p.
    destruct (flattenEntries_leaves p o H [] (NoDup_nil _)) as [r [Hr [Hnd Hg]]].
    exists r. split; [ exact Hr | split; [ exact Hnd | ] ].
    intros k. rewrite Hg. simpl Js.get at 1 3.
    now destruct (Js.get k (rev (LogParser.leavesOf (JObject o) p))). }
  intros prefix. now apply H.
Qed.

(** Flattening stops at every value that is not a plain object. *)
Lemma leavesOf_not_plain (v : JValue) :
  forall prefix k x, In (k, x) (LogParser.leavesOf v prefix) -> Js.isPlainObject x = false.
Proof.
  induction v using JValue_ind; simpl; try tauto.
  intros prefix k x Hin. apply in_flat_map in Hin as [[key value] [Hkv Hin]].
  rewrite Forall_forall in H. specialize (H _ Hkv). simpl in H.
  destruct (Js.isPlainObject value) eqn:E.
  - eapply H; eauto.
  - destruct Hin as [Heq | []]. now injection Heq as _ <-.
Qed.

End Flatten.

(** ** Normalization (C7) *)

Section Normalize.
Context {R : Runtime}.




End Normalize.


(** The same happens to a field under the key [__proto__]: the assignment
    that would store it runs the setter of [Object.prototype] instead. *)
Lemma normalizeEntry_drops_proto :
  LogParser.normalizeEntry (R := Reference.runtime) (JObject Examples.protoKey) 0
  = Normal [ ("_id", JString "entry-0"); ("_index", JUndefined);
             ("@timestamp", JString "1970-01-01T00:00:00.000Z");
             ("level", JUndefined); ("message", JUndefined); ("a", JNumber 1) ].
Proof. reflexivity. Qed.



(** ** Loading a file (C1) *)

(** C1, as stated, fails: a load that fails on content declared as a JSON
    array surfaces the error but the records of the earlier load remain. *)
Lemma parseLogFile_failure_not_cleared :
  Str.startsWith "[" (Str.trim Examples.brokenArray) = true /\
  JSON_parse (Runtime := Reference.runtime) (Str.trim Examples.brokenArray) = None /\
  LogParser._error
    (LogParser.parseLogFile (R := Reference.runtime) Examples.brokenArray "broken.json"
       Examples.loaded)
  = Some "Unexpected token in JSON" /\
  LogParser._logs
    (LogParser.parseLogFile (R := Reference.runtime) Examples.brokenArray "broken.json"
       Examples.loaded)
  = [[("_id", JString "entry-0"); ("message", JString "kept")]].
Proof. repeat split. Qed.

Lemma parseJsonArray_throws {R : Runtime} (content : string) :
  (forall elems, JSON_parse content <> Some (JArray elems)) ->
  exists message, LogParser.parseJsonArray content = Throw message.
Proof.
  intros Hnot. unfold LogParser.parseJsonArray, Builtin.JSON_parse_.
  destruct (JSON_parse content) as [v | ] eqn:E; simpl.
  - destruct v; eauto. destruct (Hnot l eq_refl).
  - eauto.
Qed.

(** C1 (amended): when the trimmed content starts with a bracket and does
    not parse to a JSON array, the call surfaces a load error, stores no
    record of the failing load and leaves the previously loaded records
    as they were.  The content is one that [Str.trim] trims as [trim()]
    does: what is left has no white space above code point 127 at its
    ends. *)
Theorem parseLogFile_failure_keeps_logs {R : Runtime}
  (content filename : string) (st : LogParser.State) :
  Unicode.asciiTrimmed content = true ->
  Str.startsWith "[" (Str.trim content) = true ->
  (forall elems, JSON_parse (Str.trim content) <> Some (JArray elems)) ->
  exists message,
    LogParser._error (LogParser.parseLogFile content filename st) = Some message /\
    LogParser._logs (LogParser.parseLogFile content filename st) = LogParser._logs st /\
    LogParser._isLoading (LogParser.parseLogFile content filename st) = false.
Proof.
  intros _ Hstart Hnot. unfold LogParser.parseLogFile. rewrite Hstart.
  destruct (parseJsonArray_throws _ Hnot) as [message ->].
  exists message. simpl. auto.
Qed.

Lemma parseLogFile_failure_keeps_logs_witness :
  exists message,
    LogParser._error
      (LogParser.parseLogFile (R := Reference.runtime) Examples.brokenArray "broken.json"
         Examples.loaded) = Some message /\
    LogParser._logs
      (LogParser.parseLogFile (R := Reference.runtime) Examples.brokenArray "broken.json"
         Examples.loaded) = LogParser._logs Examples.loaded /\
    LogParser._isLoading
      (LogParser.parseLogFile (R := Reference.runtime) Examples.brokenArray "broken.json"
         Examples.loaded) = false.
Proof.
  apply (parseLogFile_failure_keeps_logs (R := Reference.runtime)).
  - reflexivity.
  - reflexivity.
  - intros elems. vm_compute. discriminate.
Defined.

(** ** Filtering (C2, C9, C10) *)

Section Filtering.
Context {R : Runtime}.

Lemma timeRangeStage_length (st : Search.State) (logs : list LogEntry) :
  List.length (Search.timeRangeStage st logs) <= List.length logs.
Proof.
  unfold Search.timeRangeStage.
  destruct (_ || _); [ apply filter_length_le | apply Nat.le_refl ].
Qed.

Lemma quickFilterStage_length (st : Search.State) (logs : list LogEntry) :
  List.length (Search.quickFilterStage st logs) <= List.length logs.
Proof.
  unfold Search.quickFilterStage.
  destruct (0 <? _); [ apply filter_length_le | apply Nat.le_refl ].
Qed.

Lemma queryStage_length (st : Search.State) (logs : list LogEntry) :
  List.length (Search.queryStage st logs) <= List.length logs.
Proof.
  unfold Search.queryStage.
  destruct (0 <? _); [ | apply Nat.le_refl ].
  destruct (Search._isRegex st); [ | apply filter_length_le ].
  destruct (RegExp_new _ _); [ apply filter_length_le | apply Nat.le_refl ].
Qed.

(** Every stage keeps a record of its input or drops it; none adds one. *)
Lemma queryStage_incl (st : Search.State) (logs : list LogEntry) :
  incl (Search.queryStage st logs) logs.
Proof.
  unfold Search.queryStage.
  destruct (0 <? _); [ | apply incl_refl ].
  destruct (Search._isRegex st); [ | apply incl_filter ].
  destruct (RegExp_new _ _); [ apply incl_filter | apply incl_refl ].
Qed.

Lemma inTimeRange_invalid (timeRange : Search.TimeRange) (entry : LogEntry) :
  Builtin.new_Date (Js.read "@timestamp" entry) = None ->
  Search.inTimeRange timeRange entry = true.
Proof.
  intros Hnan. unfold Search.inTimeRange. rewrite Hnan.
  destruct (Search.start timeRange) as [[s] | ], (Search.end_ timeRange) as [[e] | ];
    simpl; try reflexivity; destruct e; reflexivity.
Qed.

Lemma entryValue_missing (entry : LogEntry) (fieldName : string) :
  Js.isNullish (Js.read fieldName entry) = true ->
  Js.inherited fieldName = false ->
  Search.entryValue entry fieldName = EmptyString.
Proof.
  unfold Search.entryValue, Js.read. intros H Hinh.
  destruct (Js.get fieldName entry); [ now rewrite H | now rewrite Hinh ].
Qed.

Lemma addQuickFilter_In (f v : string) (op : Search.Operator) (st : Search.State) :
  exists x, In x (Search._quickFilters (Search.addQuickFilter f v op st)) /\
            Search.field x = f /\ Search.value x = v /\ Search.operator x = op.
Proof.
  unfold Search.addQuickFilter. simpl.
  destruct (existsb _ _) eqn:E.
  - apply existsb_exists in E as [x [Hin Hx]]. exists x.
    apply andb_prop in Hx as [Hx Hop]. apply andb_prop in Hx as [Hf Hv].
    apply String.eqb_eq in Hf, Hv.
    repeat split; auto.
    destruct (Search.operator x), op; congruence.
  - eexists. split; [ apply in_or_app; right; now left | ]. simpl. auto.
Qed.

End Filtering.

(** C2: filtering never yields more records than it is given, and with
    an empty query, no quick filter and both bounds of the time range null
    it returns the sequence it is given, unchanged. *)
Theorem filterLogs_narrows {R : Runtime} (st : Search.State) (logs : list LogEntry) :
  List.length (Search.filterLogs st logs) <= List.length logs /\
  (Search._searchQuery st = EmptyString ->
   Search._quickFilters st = [] ->
   Search._timeRange st = {| Search.start := None; Search.end_ := None |} ->
   Search.filterLogs st logs = logs).
Proof.
  split.
  - unfold Search.filterLogs.
    eapply Nat.le_trans; [ apply queryStage_length | ].
    eapply Nat.le_trans; [ apply quickFilterStage_length | ].
    apply timeRangeStage_length.
  - intros Hq Hf Ht.
    unfold Search.filterLogs, Search.queryStage, Search.quickFilterStage,
      Search.timeRangeStage.
    rewrite Hq, Hf, Ht. reflexivity.
Qed.

Lemma filterLogs_narrows_witness :
  List.length (Search.filterLogs (R := Reference.runtime) Examples.idle [Examples.undated])
  <= List.length [Examples.undated] /\
  Search.filterLogs (R := Reference.runtime) Examples.idle [Examples.undated]
  = [Examples.undated].
Proof.
  split.
  - apply (filterLogs_narrows (R := Reference.runtime) Examples.idle [Examples.undated]).
  - apply (filterLogs_narrows (R := Reference.runtime) Examples.idle [Examples.undated]);
      reflexivity.
Defined.

(** C9: a record whose timestamp does not yield a valid date fails both
    bound comparisons, so the time-range stage keeps it whatever the
    bounds are. *)
Theorem timeRange_keeps_invalid_timestamp {R : Runtime}
  (st : Search.State) (logs : list LogEntry) (entry : LogEntry) :
  Builtin.new_Date (Js.read "@timestamp" entry) = None ->
  In entry logs ->
  Search.inTimeRange (Search._timeRange st) entry = true /\
  In entry (Search.timeRangeStage st logs).
Proof.
  intros Hnan Hin. split; [ now apply inTimeRange_invalid | ].
  unfold Search.timeRangeStage. destruct (_ || _); [ | exact Hin ].
  apply filter_In. split; [ exact Hin | now apply inTimeRange_invalid ].
Qed.

Lemma timeRange_keeps_invalid_timestamp_witness :
  Search.inTimeRange (R := Reference.runtime) (Search._timeRange Examples.bounded)
    Examples.undated = true /\
  In Examples.undated
    (Search.timeRangeStage (R := Reference.runtime) Examples.bounded [Examples.undated]).
Proof.
  apply (timeRange_keeps_invalid_timestamp (R := Reference.runtime)).
  - reflexivity.
  - simpl. now left.
Defined.

(** C10, as stated, fails: a record without a field [toString] of its
    own still reads the function that [Object.prototype] holds under that
    name, whose string form is not empty; the filter [equals] with the
    empty value does not match the record and the filter [not_equals]
    with the empty value keeps it. *)
Lemma quickFilter_inherited_field :
  Js.get "toString" Examples.undated = None /\
  Search.entryValue (R := Reference.runtime) Examples.undated "toString"
  = "function toString() { [native code] }" /\
  Search.matchesFilter (R := Reference.runtime) Examples.undated
    {| Search.field := "toString"; Search.value := EmptyString;
       Search.operator := Search.equals |} = false /\
  Search.filterLogs (R := Reference.runtime)
    (Search.addQuickFilter "toString" EmptyString Search.equals Examples.idle)
    [Examples.undated] = [] /\
  Search.filterLogs (R := Reference.runtime)
    (Search.addQuickFilter "toString" EmptyString Search.not_equals Examples.idle)
    [Examples.undated] = [Examples.undated].
Proof. repeat split. Qed.

(** C10 (amended): under a field name that [Object.prototype] does not
    define, a record without the field of a quick filter, or with [null]
    or [undefined] there, is compared as the empty string: the filter
    [equals] with the empty value matches it and keeps it, the filter
    [not_equals] with the empty value fails on it and excludes it from the
    result. *)
Theorem quickFilter_missing_field {R : Runtime}
  (st : Search.State) (logs : list LogEntry) (entry : LogEntry) (fieldName : string) :
  Js.inherited fieldName = false ->
  Js.isNullish (Js.read fieldName entry) = true ->
  In entry logs ->
  Search.matchesFilter entry
    {| Search.field := fieldName; Search.value := EmptyString;
       Search.operator := Search.equals |} = true /\
  Search.matchesFilter entry
    {| Search.field := fieldName; Search.value := EmptyString;
       Search.operator := Search.not_equals |} = false /\
  In entry
    (Search.quickFilterStage
       (Search.addQuickFilter fieldName EmptyString Search.equals
          (Search.clearQuickFilters st)) logs) /\
  ~ In entry
    (Search.filterLogs
       (Search.addQuickFilter fieldName EmptyString Search.not_equals st) logs).
Proof.
  intros Hown Hmiss Hin.
  assert (Heq : Search.matchesFilter entry
                  {| Search.field := fieldName; Search.value := EmptyString;
                     Search.operator := Search.equals |} = true).
  { unfold Search.matchesFilter. simpl. now rewrite entryValue_missing. }
  assert (Hne : forall x, Search.field x = fieldName -> Search.value x = EmptyString ->
                          Search.operator x = Search.not_equals ->
                          Search.matchesFilter entry x = false).
  { intros x Hf Hv Ho. unfold Search.matchesFilter.
    rewrite Ho, Hf, Hv, entryValue_missing by assumption. reflexivity. }
  split; [ exact Heq | ]. split; [ now apply Hne | ]. split.
  - unfold Search.quickFilterStage. simpl.
    apply filter_In. split; [ exact Hin | ]. simpl. now rewrite Heq.
  - intros Hres.
    destruct (addQuickFilter_In fieldName EmptyString Search.not_equals st)
      as [x [Hx [Hf [Hv Ho]]]].
    apply queryStage_incl in Hres.
    unfold Search.quickFilterStage in Hres.
    destruct (Search._quickFilters _) as [ | y ys] eqn:E; [ destruct Hx | ].
    simpl Nat.ltb in Hres. cbv iota in Hres.
    apply filter_In in Hres as [_ Hall].
    rewrite forallb_forall in Hall. specialize (Hall x Hx).
    rewrite (Hne x Hf Hv Ho) in Hall. discriminate.
Qed.

Lemma quickFilter_missing_field_witness :
  Search.matchesFilter (R := Reference.runtime) Examples.undated
    {| Search.field := "http.status_code"; Search.value := EmptyString;
       Search.operator := Search.equals |} = true /\
  Search.matchesFilter (R := Reference.runtime) Examples.undated
    {| Search.field := "http.status_code"; Search.value := EmptyString;
       Search.operator := Search.not_equals |} = false /\
  In Examples.undated
    (Search.quickFilterStage (R := Reference.runtime)
       (Search.addQuickFilter "http.status_code" EmptyString Search.equals
          (Search.clearQuickFilters Examples.idle)) [Examples.undated]) /\
  ~ In Examples.undated
    (Search.filterLogs (R := Reference.runtime)
       (Search.addQuickFilter "http.status_code" EmptyString Search.not_equals
          Examples.idle) [Examples.undated]).
Proof.
  apply (quickFilter_missing_field (R := Reference.runtime)).
  - reflexivity.
  - reflexivity.
  - simpl. now left.
Defined.

(** ** Timeline histogram (C3) *)






Lemma bucketing_positive {R : Runtime} (range : Z) :
  (0 < fst (Analytics.bucketing range))%Z.
Proof.
  unfold Analytics.bucketing.
  destruct (range <? Analytics.hour)%Z;
    [ | destruct (range <? Analytics.day)%Z;
        [ | destruct (range <? 7 * Analytics.day)%Z ] ];
    reflexivity.
Qed.






(** A series of 73 hourly buckets is cut down with [N = 3] to 25 points. *)
Lemma timelineData_three_days :
  exists series result,
    Analytics.timelineSeries (R := Reference.runtime) Examples.threeDays
    = Some (Normal series) /\
    List.length series = 73 /\
    Analytics.ceilDiv30 73 = 3 /\
    Analytics.timelineData (R := Reference.runtime) Examples.threeDays
    = Some (Normal result) /\
    List.map TimelineBucket.time result
    = List.map (fun i => (1704067200000 + Z.of_nat i * 3 * Analytics.hour)%Z) (seq 0 25).
Proof.
  eexists _, _. split; [ vm_compute; reflexivity | ].
  split; [ reflexivity | ]. split; [ reflexivity | ].
  split; [ vm_compute; reflexivity | ]. vm_compute. reflexivity.
Qed.

(** ** Percentile of a bucket (C4) *)

(** On the binary64 numbers of the source, [Math.floor(n * 0.95)] is
    [p95Index n] for every bucket of up to 2048 values. *)
Lemma p95Index_matches_double : Analytics.p95IndexExactUpTo 2048 = true.
Proof. vm_compute. reflexivity. Qed.

(** The index of the percentile lies within the bucket. *)
Lemma p95Index_in_range (n : nat) : 0 < n -> Analytics.p95Index n < n.
Proof.
  intros Hpos. unfold Analytics.p95Index.
  apply Nat.Div0.div_lt_upper_bound. lia.
Qed.

(** The reported percentile: the element at the index, unless that element
    is zero, in which case the last element of the bucket is reported. *)
Lemma bucketStats_p95 {R : Runtime} (bucketTime : Z) (unsorted : list Q) (q : Q) :
  let durations := Analytics.sort (fun a b => Qle_bool (a - b) 0) unsorted in
  nth_error durations (Analytics.p95Index (List.length durations)) = Some q ->
  DurationPoint.p95Duration (Analytics.bucketStats (bucketTime, unsorted)) =
  if Qeq_bool q 0 then nth_error durations (List.length durations - 1) else Some q.
Proof.
  intros durations Hq. unfold Analytics.bucketStats. simpl.
  fold durations. rewrite Hq. reflexivity.
Qed.

(** The percentile example of the specification. *)
Lemma durationEvolution_five :
  List.map DurationPoint.p95Duration
    (Analytics.durationEvolution (R := Reference.runtime) Examples.fiveDurations)
  = [Some 100%Q].
Proof. vm_compute. reflexivity. Qed.

(** C4 on a bucket whose value at the percentile index is 0: of the 21
    sorted durations, the one at index [floor(21 * 0.95) = 19] is 0, and
    the reported percentile is the last element, 5. *)
Theorem durationEvolution_p95_zero_falls_back :
  Analytics.p95Index 21 = 19 /\
  nth_error (Analytics.sort (fun a b => Qle_bool (a - b) 0) (repeat 0%Q 20 ++ [5%Q])) 19
  = Some 0%Q /\
  List.map DurationPoint.p95Duration
    (Analytics.durationEvolution (R := Reference.runtime) Examples.zeroHeavy)
  = [Some 5%Q].
Proof. vm_compute. repeat split. Qed.

(** ** Level distribution (C5) *)

Lemma sort_insert_sorted {A : Type} (le : A -> A -> bool) (x : A) (l : list A) :
  (forall a b, le a b = false -> le b a = true) ->
  Sorted (fun a b => le a b = true) l ->
  Sorted (fun a b => le a b = true) (Analytics.insert le x l).
Proof.
  intros Htotal Hs. induction Hs as [ | y l Hs IH Hhd]; simpl.
  - repeat constructor.
  - destruct (le x y) eqn:E.
    + repeat constructor; assumption.
    + constructor; [ exact IH | ].
      destruct l as [ | z l]; simpl.
      * constructor. now apply Htotal.
      * destruct (le x z); constructor; [ now apply Htotal | ].
        now inversion Hhd.
Qed.

Lemma sort_sorted {A : Type} (le : A -> A -> bool) (l : list A) :
  (forall a b, le a b = false -> le b a = true) ->
  Sorted (fun a b => le a b = true) (Analytics.sort le l).
Proof.
  intros Htotal. induction l as [ | x l IH]; simpl.
  - constructor.
  - now apply sort_insert_sorted.
Qed.

Lemma sort_insert_perm {A : Type} (le : A -> A -> bool) (x : A) (l : list A) :
  Permutation (x :: l) (Analytics.insert le x l).
Proof.
  induction l as [ | y l IH]; simpl; [ reflexivity | ].
  destruct (le x y); [ reflexivity | ].
  rewrite perm_swap. now apply perm_skip.
Qed.

Lemma sort_perm {A : Type} (le : A -> A -> bool) (l : list A) :
  Permutation l (Analytics.sort le l).
Proof.
  induction l as [ | x l IH]; simpl; [ constructor | ].
  rewrite <- sort_insert_perm. now apply perm_skip.
Qed.

(** What the code does: the groups come out ordered by the position of
    their level in the priority list, with position -1 for a level that
    is not listed, and by descending count within one position. *)
Lemma levelDistribution_sorted {R : Runtime} (logs : list LogEntry)
  (result : list LevelCount.t) :
  Analytics.levelDistribution logs = Normal result ->
  Sorted (fun a b =>
            let pa := Analytics.indexOf (LevelCount.level a) Analytics.priority in
            let pb := Analytics.indexOf (LevelCount.level b) Analytics.priority in
            (pa < pb)%Z \/ (pa = pb /\ LevelCount.count b <= LevelCount.count a))
    result.
Proof.
  unfold Analytics.levelDistribution.
  destruct (Analytics.countLevels logs []) as [counts | m]; cbn [bind]; [ | discriminate ].
  intros H. injection H as <-.
  assert (Hs : Sorted (fun a b => (Analytics.compareLevels a b <=? 0)%Z = true)
                 (Analytics.sort (fun a b => (Analytics.compareLevels a b <=? 0)%Z) counts)).
  { apply sort_sorted. intros a b Hab. unfold Analytics.compareLevels in *.
    apply Z.leb_gt in Hab. apply Z.leb_le.
    destruct (Z.eqb_spec (Analytics.indexOf (fst a) Analytics.priority)
                (Analytics.indexOf (fst b) Analytics.priority)) as [E | E];
      cbn [negb] in Hab.
    - rewrite E, Z.eqb_refl. cbn [negb]. lia.
    - destruct (Z.eqb_spec (Analytics.indexOf (fst b) Analytics.priority)
                  (Analytics.indexOf (fst a) Analytics.priority)); cbn [negb]; lia. }
  induction Hs as [ | [la ca] l Hs IH Hhd]; cbn [List.map]; constructor; [ exact IH | ].
  destruct Hhd as [ | [lb cb] l Hab]; cbn [List.map]; constructor.
  cbn [LevelCount.level LevelCount.count].
  unfold Analytics.compareLevels in Hab. cbn [fst snd] in Hab. apply Z.leb_le in Hab.
  destruct (Z.eqb_spec (Analytics.indexOf la Analytics.priority)
              (Analytics.indexOf lb Analytics.priority)); cbn [negb] in Hab; cbv zeta; lia.
Qed.

(** C5 on records with a free-form level: the group of the label that is
    not in the priority list comes out before the [ERROR] group. *)
Theorem levelDistribution_free_form_first {R : Runtime} :
  exists result,
    Analytics.levelDistribution Examples.freeFormLevels = Normal result /\
    List.map (fun lc => (LevelCount.level lc, LevelCount.count lc)) result
    = [("NOTICE", 1); ("ERROR", 1)] /\
    Analytics.indexOf "NOTICE" Analytics.priority = (-1)%Z /\
    Analytics.indexOf "ERROR" Analytics.priority = 0%Z.
Proof. eexists. repeat split. Qed.

(** The level-distribution scenario of the specification. *)
Lemma levelDistribution_scenario {R : Runtime} :
  exists result,
    Analytics.levelDistribution
      [ [("level", JString "ERROR")]; [("level", JString "INFO")];
        [("level", JString "INFO")] ] = Normal result /\
    List.map (fun lc => (LevelCount.level lc, LevelCount.count lc)) result
    = [("ERROR", 1); ("INFO", 2)].
Proof. eexists. repeat split. Qed.

(** ** Unescaping (C6) *)

(** A pass leaves a string alone when it is not quoted and holds none of
    the three sequences that the pass checks for. *)
Lemma unescapeString_unchecked {R : Runtime} (str : string) :
  Str.startsWith LogParser.quote str = false ->
  Str.includes LogParser.bsq str = false ->
  Str.includes LogParser.bsn str = false ->
  Str.includes LogParser.bst str = false ->
  LogParser.unescapeString str = str.
Proof.
  intros Hq H1 H2 H3. unfold LogParser.unescapeString.
  destruct (Str.isEmpty str); [ reflexivity | ].
  unfold LogParser.maxAttempts. cbn [LogParser.unescapeLoop].
  unfold LogParser.escapeStep. rewrite Hq, H1, H2, H3. reflexivity.
Qed.

(** C6 on strings whose only escape sequence is [\r], or an escaped
    backslash: the replacement chain would rewrite them, and
    [unescapeString] returns them unchanged. *)
Theorem unescapeString_misses_cr_and_backslash {R : Runtime} :
  LogParser.unescapeString Examples.crOnly = Examples.crOnly /\
  LogParser.replaceEscapes Examples.crOnly
  = String "a" (String Str.CR (String "b" EmptyString)) /\
  LogParser.unescapeString Examples.backslashOnly = Examples.backslashOnly /\
  LogParser.replaceEscapes Examples.backslashOnly = "C:\logs".
Proof. repeat split. Qed.

(** ** Newline-delimited JSON (C8) *)

(** A line that is not JSON becomes a plain-text record: the whole line is
    its message and its raw attribute. *)
Lemma parseNdjsonLine_downgrade {R : Runtime} (line : string) (index : nat) :
  JSON_parse line = None ->
  LogParser.parseNdjsonLine line index = LogParser.createTextEntry line index /\
  Js.get "message" (LogParser.parseNdjsonLine line index) = Some (JString line) /\
  Js.get "_raw" (LogParser.parseNdjsonLine line index) = Some (JString line).
Proof.
  intros Hfail. unfold LogParser.parseNdjsonLine, Builtin.JSON_parse_.
  rewrite Hfail. simpl. auto.
Qed.

Lemma mapi_length {A B : Type} (f : A -> nat -> B) (l : list A) :
  forall i, List.length (LogParser.mapi f i l) = List.length l.
Proof. induction l as [ | x l IH]; intros i; simpl; [ reflexivity | now rewrite IH ]. Qed.

(** Every non-blank line yields one record, whether it parses or not. *)
Lemma parseNdjson_length {R : Runtime} (content : string) :
  List.length (LogParser.parseNdjson content) =
  List.length (List.filter (fun line => negb (Str.isEmpty (Str.trim line)))
                 (Str.split Str.LF content)).
Proof. unfold LogParser.parseNdjson. apply mapi_length. Qed.

(** C8 on the two-line input of the specification: two records, the second
    the plain-text record of the line that is not JSON; the first keeps the
    level as the source writes it, [info]. *)
Theorem parseNdjson_scenario :
  LogParser.parseNdjson (R := Reference.runtime) Examples.ndjson
  = [ [ ("_id", JString "entry-0"); ("_index", JUndefined);
        ("@timestamp", JString "2024-01-01T00:00:00Z");
        ("level", JString "info"); ("message", JString "ok");
        ("msg", JString "ok") ];
      [ ("_id", JString "line-1");
        ("@timestamp", JString "1970-01-01T00:00:00.000Z");
        ("level", JUndefined); ("message", JString "not json");
        ("_raw", JString "not json") ] ] /\
  LogParser.detectLevel (R := Reference.runtime)
    [ ("@timestamp", JString "2024-01-01T00:00:00Z");
      ("level", JString "info"); ("msg", JString "ok") ] = Some "INFO".
Proof. vm_compute. repeat split. Qed.

(* ===================================================================== *)
(** * Further properties of the services *)
(* ===================================================================== *)

(** ** Flattening an object that is already flat *)

Lemma set_fresh (k : string) (v : JValue) (o : Obj) :
  Js.get k o = None -> Js.set k v o = o ++ [(k, v)].
Proof.
  induction o as [ | [k0 v0] o IH]; simpl; [ reflexivity | ].
  destruct (String.eqb k k0); [ discriminate | ].
  intros H. now rewrite IH.
Qed.

Lemma flattenEntries_flat {R : Runtime} (es : list (string * JValue)) :
  forall acc,
    Forall (fun kv => Js.isPlainObject (snd kv) = false) es ->
    Forall (fun kv => fst kv <> "__proto__") es ->
    NoDup (Js.keys (acc ++ es)) ->
    LogParser.flattenEntries LogParser.flattenObject EmptyString es acc
    = Normal (acc ++ es).
Proof.
  induction es as [ | [key value] es IH]; intros acc Hflat Hkeys Hnd; simpl.
  - now rewrite app_nil_r.
  - inversion Hflat as [ | ? ? Hv Hrest]; subst. simpl in Hv.
    inversion Hkeys as [ | ? ? Hkey Hkeys']; subst. simpl in Hkey.
    unfold LogParser.flattenStep. rewrite Hv. simpl.
    change (LogParser.newKey EmptyString key) with key.
    unfold Js.put. destruct (String.eqb_spec key "__proto__") as [ | _]; [ contradiction | ].
    assert (Hfresh : Js.get key acc = None).
    { apply get_None. intros Hin. unfold Js.keys in Hnd. rewrite map_app in Hnd.
      simpl in Hnd. apply NoDup_remove_2 in Hnd. apply Hnd.
      apply in_or_app. now left. }
    rewrite (set_fresh _ _ _ Hfresh).
    rewrite IH;
      [ now rewrite <- app_assoc | exact Hrest | exact Hkeys' | now rewrite <- app_assoc ].
Qed.

Lemma flattened_keys_stored {R : Runtime} (v : JValue) (prefix : string) (r : Obj) :
  LogParser.flattensTo v prefix r ->
  Forall (fun kv => fst kv <> "__proto__") r.
Proof.
  intros [_ [_ Hget]]. apply Forall_forall. intros [k x] Hin Hk. simpl in Hk. subst k.
  destruct (In_get _ _ _ Hin) as [x' Hx']. rewrite Hget in Hx'. discriminate.
Qed.

Lemma flattened_values_not_plain {R : Runtime} (v : JValue) (prefix : string) (r : Obj) :
  LogParser.flattensTo v prefix r ->
  Forall (fun kv => Js.isPlainObject (snd kv) = false) r.
Proof.
  intros [_ [Hnd Hget]]. apply Forall_forall. intros [k x] Hin. simpl.
  assert (Hk : Js.get k r = Some x).
  { destruct (In_get k x r Hin) as [x' Hx'].
    rewrite Hx'. f_equal. apply get_In in Hx'.
    exact (In_keys_unique k x' x r Hnd Hx' Hin). }
  rewrite Hget in Hk. destruct (String.eqb k "__proto__"); [ discriminate | ].
  apply get_In in Hk. apply in_rev in Hk.
  exact (leavesOf_not_plain _ _ _ _ Hk).
Qed.

(** X1: Flattening is idempotent: the flattened form of an object is its own
    flattened form. *)
Theorem flattenObject_idempotent {R : Runtime}
  (fields : list (string * JValue)) (prefix : string) :
  exists r,
    LogParser.flattenObject (JObject fields) prefix = Normal r /\
    LogParser.flattenObject (JObject r) EmptyString = Normal r.
Proof.
  destruct (flattenObject_leaves fields prefix) as [r Hr].
  exists r. split; [ apply Hr | ].
  simpl. apply (flattenEntries_flat r []).
  - exact (flattened_values_not_plain _ _ _ Hr).
  - exact (flattened_keys_stored _ _ _ Hr).
  - apply Hr.
Qed.

(** ** Plain-text files *)

Lemma mapi_nth_error {A B : Type} (f : A -> nat -> B) (l : list A) :
  forall i n x, nth_error l n = Some x ->
                nth_error (LogParser.mapi f i l) n = Some (f x (i + n)).
Proof.
  induction l as [ | y l IH]; intros i [ | n] x H; simpl in *; try discriminate.
  - injection H as ->. now rewrite Nat.add_0_r.
  - rewrite (IH (S i) n x H). f_equal. f_equal. lia.
Qed.

Lemma split_nonempty (sep : ascii) (s : string) : Str.split sep s <> [].
Proof.
  destruct s as [ | c s]; simpl; [ discriminate | ].
  destruct (Ascii.eqb c sep); [ discriminate | ].
  destruct (Str.split sep s); discriminate.
Qed.

(** X2: Every line of a plain-text file, blank ones included, becomes one
    record named after its position whose message and raw attribute are
    the line; a file is never read as zero records. *)
Theorem parsePlainText_lines {R : Runtime} (content filename : string)
  (i : nat) (line : string) :
  nth_error (Str.split Str.LF content) i = Some line ->
  List.length (LogParser.parsePlainText content filename)
  = List.length (Str.split Str.LF content) /\
  0 < List.length (LogParser.parsePlainText content filename) /\
  exists entry,
    nth_error (LogParser.parsePlainText content filename) i = Some entry /\
    Js.get "_id" entry = Some (JString ("line-" ++ Str.ofNat i)) /\
    Js.get "message" entry = Some (JString line) /\
    Js.get "_raw" entry = Some (JString line).
Proof.
  intros Hline. unfold LogParser.parsePlainText.
  rewrite mapi_length. split; [ reflexivity | ]. split.
  - pose proof (split_nonempty Str.LF content).
    destruct (Str.split Str.LF content); [ congruence | simpl; lia ].
  - eexists. split; [ apply (mapi_nth_error _ _ 0 i line Hline) | ].
    simpl. auto.
Qed.

Lemma parsePlainText_lines_witness :
  List.length (LogParser.parsePlainText (R := Reference.runtime) EmptyString "empty.log")
  = List.length (Str.split Str.LF EmptyString) /\
  0 < List.length (LogParser.parsePlainText (R := Reference.runtime) EmptyString "empty.log") /\
  exists entry,
    nth_error (LogParser.parsePlainText (R := Reference.runtime) EmptyString "empty.log") 0
    = Some entry /\
    Js.get "_id" entry = Some (JString ("line-" ++ Str.ofNat 0)) /\
    Js.get "message" entry = Some (JString EmptyString) /\
    Js.get "_raw" entry = Some (JString EmptyString).
Proof.
  apply (parsePlainText_lines (R := Reference.runtime) EmptyString "empty.log" 0 EmptyString).
  reflexivity.
Defined.

Lemma ofNat_injective (n m : nat) : Str.ofNat n = Str.ofNat m -> n = m.
Proof.
  unfold Str.ofNat. intros H.
  assert (Hu : NilZero.uint_of_string (NilZero.string_of_uint (Nat.to_uint n))
               = NilZero.uint_of_string (NilZero.string_of_uint (Nat.to_uint m)))
    by now rewrite H.
  assert (Hnn : forall k, Nat.to_uint k <> Decimal.Nil).
  { intros k Hk. pose proof (Unsigned.of_to k) as Hof.
    pose proof (Unsigned.to_of (Nat.to_uint k)) as Hto.
    rewrite Hof in Hto. rewrite Hk in Hto at 2. simpl in Hto.
    rewrite Hk in Hto. discriminate. }
  rewrite !NilZero.usu in Hu by apply Hnn.
  injection Hu as Hu.
  rewrite <- (Unsigned.of_to n), <- (Unsigned.of_to m). now rewrite Hu.
Qed.

Lemma NoDup_map_injective {A B : Type} (f : A -> B) (l : list A) :
  (forall a b, f a = f b -> a = b) -> NoDup l -> NoDup (List.map f l).
Proof.
  intros Hinj. induction 1 as [ | x l Hnot Hnd IH]; simpl; constructor; [ | exact IH ].
  intros Hin. apply in_map_iff in Hin as [y [Heq Hy]]. apply Hinj in Heq. now subst.
Qed.

Lemma mapi_ids {R : Runtime} (lines : list string) :
  forall i,
    List.map (Js.get "_id") (LogParser.mapi LogParser.createTextEntry i lines)
    = List.map (fun k => Some (JString ("line-" ++ Str.ofNat k))) (seq i (List.length lines)).
Proof.
  induction lines as [ | l lines IH]; intros i; simpl; [ reflexivity | ].
  now rewrite IH.
Qed.

(** X3: The records of a plain-text file have pairwise distinct ids. *)
Theorem parsePlainText_ids_distinct {R : Runtime} (content filename : string) :
  NoDup (List.map (Js.get "_id") (LogParser.parsePlainText content filename)).
Proof.
  unfold LogParser.parsePlainText.
  change (LogParser.mapi (fun line index => LogParser.createTextEntry line index))
    with (LogParser.mapi LogParser.createTextEntry).
  rewrite mapi_ids. apply NoDup_map_injective; [ | apply seq_NoDup ].
  intros a b H. injection H as H. now apply ofNat_injective.
Qed.

(** ** Loading content that is not a JSON array *)

Lemma trimEnd_nonblank (c : ascii) (s : string) :
  Str.isWhiteSpace c = false -> exists t, Str.trimEnd (String c s) = String c t.
Proof.
  intros Hc. simpl. destruct (Str.trimEnd s); [ rewrite Hc | ]; eauto.
Qed.

Lemma trim_nonblank (c : ascii) (s : string) :
  Str.isWhiteSpace c = false -> exists t, Str.trim (String c s) = String c t.
Proof.
  intros Hc. unfold Str.trim. simpl. rewrite Hc. now apply trimEnd_nonblank.
Qed.

Lemma split_first (sep c : ascii) (s : string) :
  Ascii.eqb c sep = false ->
  exists l ls, Str.split sep (String c s) = String c l :: ls.
Proof.
  intros Hc. simpl. rewrite Hc.
  pose proof (split_nonempty sep s).
  destruct (Str.split sep s); [ congruence | eauto ].
Qed.

Lemma parseNdjson_nonempty {R : Runtime} (content : string) :
  Str.startsWith "{" content = true -> 0 < List.length (LogParser.parseNdjson content).
Proof.
  intros Hs. rewrite parseNdjson_length.
  destruct content as [ | c s]; [ discriminate | ].
  cbn [Str.startsWith] in Hs. apply andb_prop in Hs as [Hc _].
  apply Ascii.eqb_eq in Hc. subst c.
  destruct (split_first Str.LF "{" s eq_refl) as [l [ls ->]].
  simpl. destruct (trim_nonblank "{" l eq_refl) as [t ->]. simpl. lia.
Qed.

(** X4: A load of content that does not start with a bracket never fails:
    it surfaces no error, also clears the error of an earlier load, and
    replaces the records by at least one record, whatever was loaded before
    (an empty file gives one record with an empty message).  The content
    is one whose first character after [Str.trim] is not white space
    above code point 127, which [trim()] would strip as well. *)
Theorem parseLogFile_non_array_succeeds {R : Runtime}
  (content filename : string) (st : LogParser.State) :
  Unicode.opensWithSpace (Str.trim content) = false ->
  Str.startsWith "[" (Str.trim content) = false ->
  LogParser._error (LogParser.parseLogFile content filename st) = None /\
  LogParser._isLoading (LogParser.parseLogFile content filename st) = false /\
  0 < List.length (LogParser._logs (LogParser.parseLogFile content filename st)) /\
  forall st',
    LogParser._logs (LogParser.parseLogFile content filename st)
    = LogParser._logs (LogParser.parseLogFile content filename st').
Proof.
  intros _ Hs. unfold LogParser.parseLogFile. rewrite Hs.
  destruct (Str.startsWith "{" (Str.trim content)) eqn:Hb; simpl.
  - repeat split. now apply parseNdjson_nonempty.
  - repeat split.
    pose proof (split_nonempty Str.LF (Str.trim content)) as Hne.
    unfold LogParser.parsePlainText. rewrite mapi_length.
    destruct (Str.split Str.LF (Str.trim content)); [ congruence | simpl; lia ].
Qed.

Lemma parseLogFile_non_array_succeeds_witness :
  LogParser._error
    (LogParser.parseLogFile (R := Reference.runtime) EmptyString "empty.log" Examples.loaded)
  = None /\
  LogParser._isLoading
    (LogParser.parseLogFile (R := Reference.runtime) EmptyString "empty.log" Examples.loaded)
  = false /\
  0 < List.length
        (LogParser._logs
           (LogParser.parseLogFile (R := Reference.runtime) EmptyString "empty.log"
              Examples.loaded)) /\
  forall st',
    LogParser._logs
      (LogParser.parseLogFile (R := Reference.runtime) EmptyString "empty.log" Examples.loaded)
    = LogParser._logs
        (LogParser.parseLogFile (R := Reference.runtime) EmptyString "empty.log" st').
Proof.
  apply (parseLogFile_non_array_succeeds (R := Reference.runtime)); reflexivity.
Defined.

(** ** A JSON array with a null element *)

Lemma mapIndexed_throws {A B : Type} (f : A -> nat -> Completion B) (l : list A) (x : A) :
  (forall i, exists m, f x i = Throw m) ->
  In x l ->
  forall i, exists m, LogParser.mapIndexed f i l = Throw m.
Proof.
  intros Hx. induction l as [ | y l IH]; intros Hin i; [ destruct Hin | ].
  simpl. destruct Hin as [-> | Hin].
  - destruct (Hx i) as [m ->]. simpl. eauto.
  - destruct (f y i); simpl; [ | eauto ].
    destruct (IH Hin (S i)) as [m ->]. simpl. eauto.
Qed.

(** X5: One [null] element makes the load of a whole JSON array fail, with
    the other elements lost; the same value on a line of NDJSON content
    only downgrades that line to a plain-text record. *)
Theorem parseJsonArray_null_element {R : Runtime} (content : string) (elems : list JValue) :
  JSON_parse content = Some (JArray elems) ->
  In JNull elems ->
  (exists message, LogParser.parseJsonArray content = Throw message) /\
  (forall line index,
      JSON_parse line = Some JNull ->
      LogParser.parseNdjsonLine line index = LogParser.createTextEntry line index).
Proof.
  intros Hp Hin. split.
  - unfold LogParser.parseJsonArray, Builtin.JSON_parse_. rewrite Hp. simpl.
    apply (mapIndexed_throws _ _ JNull); [ | exact Hin ].
    intros i. unfold LogParser.normalizeEntry. simpl. eauto.
  - intros line index Hl. unfold LogParser.parseNdjsonLine, Builtin.JSON_parse_.
    rewrite Hl. reflexivity.
Qed.

Lemma parseJsonArray_null_element_witness :
  (exists message,
      LogParser.parseJsonArray (R := Reference.runtime) "[1, null]" = Throw message) /\
  (forall line index,
      JSON_parse (Runtime := Reference.runtime) line = Some JNull ->
      LogParser.parseNdjsonLine (R := Reference.runtime) line index
      = LogParser.createTextEntry (R := Reference.runtime) line index).
Proof.
  apply (parseJsonArray_null_element (R := Reference.runtime) "[1, null]" [JNumber 1; JNull]).
  - reflexivity.
  - simpl. tauto.
Defined.

(** ** Unescaping *)

Lemma includes_hasChar (c y : ascii) (s : string) :
  Str.includes (String c (String y EmptyString)) s = true ->
  SearchOps.hasChar c s = true.
Proof.
  induction s as [ | a s IH]; cbn [Str.includes Str.startsWith SearchOps.hasChar].
  - discriminate.
  - intros H. apply orb_prop in H as [H | H].
    + apply andb_prop in H as [H _]. rewrite Ascii.eqb_sym, H. reflexivity.
    + rewrite (IH H). apply orb_true_r.
Qed.

Lemma not_hasChar_includes (c y : ascii) (s : string) :
  SearchOps.hasChar c s = false ->
  Str.includes (String c (String y EmptyString)) s = false.
Proof.
  intros H. destruct (Str.includes _ s) eqn:E; [ | reflexivity ].
  apply includes_hasChar in E. congruence.
Qed.

(** X6: Unescaping is a no-op on a string without a backslash that does not
    open with a double quote. *)
Theorem unescapeString_no_escapes {R : Runtime} (str : string) :
  SearchOps.hasChar Str.BACKSLASH str = false ->
  Str.startsWith LogParser.quote str = false ->
  LogParser.unescapeString str = str.
Proof.
  intros Hb Hq. apply unescapeString_unchecked; [ exact Hq | | | ];
    now apply not_hasChar_includes.
Qed.

Lemma unescapeString_no_escapes_witness :
  LogParser.unescapeString (R := Reference.runtime) "GET /health 200" = "GET /health 200".
Proof.
  apply (unescapeString_no_escapes (R := Reference.runtime)); reflexivity.
Defined.

(** ** Content type of a text that opens with an escaped brace *)

Lemma brace_inv (s : string) :
  Str.startsWith ContentType.bsBrace s = true ->
  exists t, s = String Str.BACKSLASH (String "{" t).
Proof.
  unfold ContentType.bsBrace. destruct s as [ | a [ | b s]]; cbn [Str.startsWith].
  - discriminate.
  - rewrite andb_false_r. discriminate.
  - intros H. apply andb_prop in H as [Ha Hb]. apply andb_prop in Hb as [Hb _].
    apply Ascii.eqb_eq in Ha, Hb. subst a b. eauto.
Qed.

Lemma replace2_keeps_brace (x y r : ascii) (s : string) :
  Ascii.eqb y "{" = false ->
  Ascii.eqb x "{" = false ->
  Str.startsWith ContentType.bsBrace s = true ->
  Str.startsWith ContentType.bsBrace (Str.replace2 x y r s) = true.
Proof.
  intros Hy Hx Hs.
  destruct (brace_inv s Hs) as [t ->]. clear Hs. rename t into s.
  cbn [Str.replace2].
  assert (E1 : Ascii.eqb Str.BACKSLASH x && Ascii.eqb "{" y = false).
  { rewrite (Ascii.eqb_sym "{" y), Hy. apply andb_false_r. }
  rewrite E1.
  destruct s as [ | c s].
  - reflexivity.
  - rewrite (Ascii.eqb_sym "{" x), Hx. cbn [andb]. reflexivity.
Qed.

Lemma replaceEscapes_keeps_brace (s : string) :
  Str.startsWith ContentType.bsBrace s = true ->
  Str.startsWith ContentType.bsBrace (LogParser.replaceEscapes s) = true.
Proof.
  intros Hs. unfold LogParser.replaceEscapes.
  repeat (apply replace2_keeps_brace; [ reflexivity | reflexivity | ]).
  exact Hs.
Qed.

Lemma brace_not_quote (s : string) :
  Str.startsWith ContentType.bsBrace s = true ->
  Str.startsWith LogParser.quote s = false.
Proof.
  intros Hs. destruct (brace_inv s Hs) as [t ->]. reflexivity.
Qed.

Lemma unescapeLoop_keeps_brace {R : Runtime} (n : nat) :
  forall s, Str.startsWith ContentType.bsBrace s = true ->
            exists r, LogParser.unescapeLoop n s = Normal r /\
                      Str.startsWith ContentType.bsBrace r = true.
Proof.
  induction n as [ | n IH]; intros s Hs; cbn [LogParser.unescapeLoop].
  - eauto.
  - rewrite (brace_not_quote s Hs). cbn [andb].
    unfold LogParser.escapeStep.
    destruct (_ || _); [ | eauto ].
    destruct (negb _); [ | eauto ].
    apply IH. now apply replaceEscapes_keeps_brace.
Qed.

Lemma unescapeString_keeps_brace {R : Runtime} (s : string) :
  Str.startsWith ContentType.bsBrace s = true ->
  Str.startsWith ContentType.bsBrace (LogParser.unescapeString s) = true.
Proof.
  intros Hs. unfold LogParser.unescapeString.
  destruct (Str.isEmpty s); [ exact Hs | ].
  destruct (unescapeLoop_keeps_brace LogParser.maxAttempts s Hs) as [r [-> Hr]].
  exact Hr.
Qed.

Lemma trim_keeps_brace (s : string) :
  Str.startsWith ContentType.bsBrace s = true ->
  Str.startsWith ContentType.bsBrace (Str.trim s) = true.
Proof.
  intros Hs. destruct (brace_inv s Hs) as [t ->]. clear Hs. rename t into s.
  unfold Str.trim. cbn [Str.trimStart]. 
  change (Str.isWhiteSpace Str.BACKSLASH) with false. cbn iota.
  cbn [Str.trimEnd].
  destruct (trimEnd_nonblank "{" s eq_refl) as [t Ht].
  cbn [Str.trimEnd] in Ht. rewrite Ht. reflexivity.
Qed.

(** X7: [detectContentType] never returns for a text whose trimmed form opens
    with an escaped brace: unescaping keeps the escaped brace in front, so
    the function calls itself again on every round. *)
Theorem detectContentType_escaped_brace_diverges {R : Runtime} (fuel : nat) :
  forall content,
    Str.startsWith ContentType.bsBrace (Str.trim content) = true ->
    ContentType.detectContentType fuel content = None.
Proof.
  induction fuel as [ | fuel IH]; intros content Hs; [ reflexivity | ].
  cbn [ContentType.detectContentType].
  destruct (Str.isEmpty content) eqn:He.
  - destruct content; [ discriminate Hs | discriminate He ].
  - rewrite Hs, orb_true_r. apply IH.
    apply trim_keeps_brace. now apply unescapeString_keeps_brace.
Qed.

Lemma detectContentType_escaped_brace_diverges_witness :
  ContentType.detectContentType (R := Reference.runtime) 1000 " \{a:1}" = None.
Proof.
  apply (detectContentType_escaped_brace_diverges (R := Reference.runtime)).
  reflexivity.
Defined.

(** ** Level and timestamp of a text line *)

Lemma keywordAt_upper (kw s m : string) :
  LogParser.keywordAt kw s = Some m -> Str.toUpperCase m = kw.
Proof.
  unfold LogParser.keywordAt.
  destruct (String.eqb _ kw && _) eqn:E; [ | discriminate ].
  intros H. injection H as <-. apply andb_prop in E as [E _].
  now apply String.eqb_eq in E.
Qed.

Lemma levelAt_keyword (prev : bool) (s m : string) :
  LogParser.levelAt prev s = Some m -> In (Str.toUpperCase m) LogParser.levelKeywords.
Proof.
  unfold LogParser.levelAt. destruct (xorb _ _); [ | discriminate ].
  assert (H : forall kws,
             (fix first (kws : list string) : option string :=
                match kws with
                | [] => None
                | kw :: kws' =>
                    match LogParser.keywordAt kw s with
                    | Some m => Some m
                    | None => first kws'
                    end
                end) kws = Some m -> In (Str.toUpperCase m) kws).
  { induction kws as [ | kw kws IH]; [ discriminate | ].
    destruct (LogParser.keywordAt kw s) eqn:E.
    - intros H. injection H as ->. left. symmetry. now apply keywordAt_upper with s.
    - intros H. right. now apply IH. }
  apply H.
Qed.

(** X8: The level extracted from a text line is always one of the eight
    keywords, in upper case. *)
Theorem extractLevelFromLine_keyword (line level : string) :
  LogParser.extractLevelFromLine line = Some level ->
  In level LogParser.levelKeywords.
Proof.
  unfold LogParser.extractLevelFromLine.
  destruct (LogParser.searchLevel false line) as [m | ] eqn:E; [ | discriminate ].
  intros H. injection H as <-.
  revert E. generalize false. induction line as [ | c line IH]; intros prev; simpl.
  - destruct (LogParser.levelAt prev EmptyString) eqn:E; [ | discriminate ].
    intros H. injection H as ->. now apply levelAt_keyword with prev EmptyString.
  - destruct (LogParser.levelAt prev (String c line)) eqn:E.
    + intros H. injection H as ->. now apply levelAt_keyword with prev (String c line).
    + apply IH.
Qed.

Lemma extractLevelFromLine_keyword_witness :
  In "WARNING" LogParser.levelKeywords.
Proof.
  apply (extractLevelFromLine_keyword "12:00 [warning] disk almost full" "WARNING").
  reflexivity.
Defined.

(** ** Columns of the loaded logs *)

Lemma includes_In (x : string) (l : list string) :
  Columns.includes x l = true <-> In x l.
Proof.
  unfold Columns.includes. rewrite existsb_exists. split.
  - intros [y [Hin Heq]]. apply String.eqb_eq in Heq. now subst.
  - intros Hin. exists x. split; [ exact Hin | apply String.eqb_refl ].
Qed.

Lemma setAdd_In (x k : string) (l : list string) :
  In k (Columns.setAdd x l) <-> k = x \/ In k l.
Proof.
  unfold Columns.setAdd. fold (Columns.includes x l).
  destruct (Columns.includes x l) eqn:E.
  - apply includes_In in E. split; [ tauto | intros [-> | H]; assumption ].
  - rewrite in_app_iff. simpl. intuition.
Qed.

Lemma setAdd_NoDup (x : string) (l : list string) :
  NoDup l -> NoDup (Columns.setAdd x l).
Proof.
  intros Hnd. unfold Columns.setAdd. fold (Columns.includes x l).
  destruct (Columns.includes x l) eqn:E; [ exact Hnd | ].
  apply NoDup_rev in Hnd. rewrite <- (rev_involutive (l ++ [x])).
  apply NoDup_rev. rewrite rev_app_distr. simpl. constructor; [ | exact Hnd ].
  rewrite <- in_rev. intros Hin. apply includes_In in Hin. congruence.
Qed.

Lemma addKeys_spec (ks : list string) :
  forall acc,
    (forall k, In k (fold_left (fun a key => Columns.setAdd key a) ks acc)
               <-> In k ks \/ In k acc) /\
    (NoDup acc -> NoDup (fold_left (fun a key => Columns.setAdd key a) ks acc)).
Proof.
  induction ks as [ | x ks IH]; intros acc; simpl.
  - split; [ tauto | auto ].
  - destruct (IH (Columns.setAdd x acc)) as [Hin Hnd]. split.
    + intros k. rewrite Hin, setAdd_In. intuition.
    + intros H. apply Hnd. now apply setAdd_NoDup.
Qed.

Lemma collectKeys_spec (logs : list LogEntry) :
  forall acc,
    (forall k,
        In k (fold_left
                (fun keys log =>
                   fold_left (fun ks key => Columns.setAdd key ks) (Js.keys log) keys)
                logs acc)
        <-> (exists log, In log logs /\ In k (Js.keys log)) \/ In k acc) /\
    (NoDup acc ->
     NoDup (fold_left
              (fun keys log =>
                 fold_left (fun ks key => Columns.setAdd key ks) (Js.keys log) keys)
              logs acc)).
Proof.
  induction logs as [ | log logs IH]; intros acc; simpl.
  - split; [ intros k; split; [ tauto | intros [[l [[] _]] | H]; exact H ] | auto ].
  - destruct (IH (fold_left (fun ks key => Columns.setAdd key ks) (Js.keys log) acc))
      as [Hin Hnd].
    destruct (addKeys_spec (Js.keys log) acc) as [Hin' Hnd']. split.
    + intros k. rewrite Hin, Hin'. split.
      * intros [[l [Hl Hk]] | [Hk | Hk]]; eauto.
      * intros [[l [[<- | Hl] Hk]] | Hk]; eauto.
    + intros H. apply Hnd. now apply Hnd'.
Qed.

Lemma getAvailableColumns_keys (logs : list LogEntry) :
  NoDup (Columns.getAvailableColumns logs) /\
  forall k, In k (Columns.getAvailableColumns logs)
            <-> exists log, In log logs /\ In k (Js.keys log).
Proof.
  unfold Columns.getAvailableColumns.
  destruct logs as [ | log0 logs0]; cbn [List.length Nat.eqb].
  - split; [ constructor | ]. intros k. split; [ intros [] | intros [l [[] _]] ].
  - set (logs := log0 :: logs0).
    destruct (collectKeys_spec logs []) as [Hin Hnd].
    fold (Columns.collectKeys logs) in Hin, Hnd.
    specialize (Hnd (NoDup_nil _)).
    assert (Hall : forall k, In k (Columns.collectKeys logs)
                             <-> exists log, In log logs /\ In k (Js.keys log)).
    { intros k. rewrite Hin. split; [ intros [H | []]; exact H | tauto ]. }
    set (rest := List.filter (fun k => negb (Columns.includes k Columns.priorityFields))
                   (Columns.collectKeys logs)).
    pose proof (sort_perm String.leb rest) as Hperm.
    split.
    + apply NoDup_app.
      * apply NoDup_filter. unfold Columns.priorityFields.
        repeat constructor; simpl; intuition discriminate.
      * apply (Permutation_NoDup Hperm). now apply NoDup_filter.
      * intros k Hp Hr. apply filter_In in Hp as [Hp _].
        apply (Permutation_in _ (Permutation_sym Hperm)) in Hr.
        apply filter_In in Hr as [_ Hr]. apply negb_true_iff in Hr.
        apply includes_In in Hp. congruence.
    + intros k. rewrite <- Hall, in_app_iff, filter_In. split.
      * intros [[_ Hk] | Hr]; [ now apply includes_In | ].
        apply (Permutation_in _ (Permutation_sym Hperm)) in Hr.
        now apply filter_In in Hr as [Hr _].
      * intros Hk. destruct (Columns.includes k Columns.priorityFields) eqn:E.
        -- left. split; [ now apply includes_In | now apply includes_In ].
        -- right. apply (Permutation_in _ Hperm). apply filter_In.
           split; [ exact Hk | now rewrite E ].
Qed.

Lemma collectKeys_keys (logs : list LogEntry) (k : string) :
  In k (Columns.collectKeys logs) <-> exists log, In log logs /\ In k (Js.keys log).
Proof.
  destruct (collectKeys_spec logs []) as [Hin _].
  fold (Columns.collectKeys logs) in Hin.
  rewrite Hin. split; [ intros [H | []]; exact H | tauto ].
Qed.

(** X9: The available columns are exactly the keys that occur in some loaded
    record, each of them once, in this order: first the priority fields
    that occur, in the order [@timestamp], [level], [message], [_id],
    [_index]; then every other key, in ascending order of the strings
    (for keys of ASCII characters, on which the order of the bytes is the
    order of the code units that [sort()] compares). *)
Theorem getAvailableColumns_union (logs : list LogEntry) :
  NoDup (Columns.getAvailableColumns logs) /\
  (forall k, In k (Columns.getAvailableColumns logs)
             <-> exists log, In log logs /\ In k (Js.keys log)) /\
  exists rest,
    Columns.getAvailableColumns logs
    = List.filter (fun f => Columns.includes f (Columns.getAvailableColumns logs))
        Columns.priorityFields ++ rest /\
    Forall (fun k => ~ In k Columns.priorityFields) rest /\
    ((forall k, In k rest -> SearchOps.isAscii k = true) ->
     Sorted (fun a b => String.leb a b = true) rest).
Proof.
  destruct (getAvailableColumns_keys logs) as [Hnd Hkeys].
  split; [ exact Hnd | ]. split; [ exact Hkeys | ].
  assert (Hsame : forall f,
             Columns.includes f (Columns.getAvailableColumns logs)
             = Columns.includes f (Columns.collectKeys logs)).
  { intros f.
    destruct (Columns.includes f (Columns.collectKeys logs)) eqn:E.
    - apply includes_In. apply Hkeys. apply collectKeys_keys. now apply includes_In.
    - destruct (Columns.includes f (Columns.getAvailableColumns logs)) eqn:E';
        [ | reflexivity ].
      apply includes_In, Hkeys, collectKeys_keys, includes_In in E'. congruence. }
  rewrite (filter_ext _ _ Hsame).
  unfold Columns.getAvailableColumns.
  destruct logs as [ | log0 logs0]; cbn [List.length Nat.eqb].
  - exists []. split; [ reflexivity | ]. split; constructor.
  - eexists. split; [ reflexivity | ]. split.
    + apply Forall_forall. intros k Hk.
      apply (Permutation_in _ (Permutation_sym (sort_perm _ _))) in Hk.
      apply filter_In in Hk as [_ Hk]. apply negb_true_iff in Hk.
      intros Hp. apply includes_In in Hp. congruence.
    + intros _. apply sort_sorted. intros a b Hab.
      destruct (String.leb_total a b) as [H | H]; congruence.
Qed.

Lemma getAvailableColumns_union_witness :
  Columns.getAvailableColumns
    [ [("zone", JNull); ("message", JNull)]; [("host", JNull); ("@timestamp", JNull)] ]
  = ["@timestamp"; "message"; "host"; "zone"] /\
  NoDup
    (Columns.getAvailableColumns
       [ [("zone", JNull); ("message", JNull)]; [("host", JNull); ("@timestamp", JNull)] ]).
Proof.
  split; [ reflexivity | ].
  exact (proj1 (getAvailableColumns_union
                  [ [("zone", JNull); ("message", JNull)];
                    [("host", JNull); ("@timestamp", JNull)] ])).
Defined.

(** ** Quick filters of the search state *)

Lemma addQuickFilter_present (f v : string) (op : Search.Operator) (st : Search.State) :
  In {| Search.field := f; Search.value := v; Search.operator := op |}
    (Search._quickFilters st) ->
  Search._quickFilters (Search.addQuickFilter f v op st) = Search._quickFilters st.
Proof.
  intros Hin. unfold Search.addQuickFilter. cbn [Search._quickFilters].
  destruct (existsb _ _) eqn:E; [ reflexivity | ].
  exfalso. apply Bool.not_true_iff_false in E. apply E.
  apply existsb_exists. eexists. split; [ exact Hin | ].
  cbn [Search.field Search.value Search.operator].
  rewrite !String.eqb_refl. now destruct op.
Qed.

Lemma addQuickFilter_absent (f v : string) (op : Search.Operator) (st : Search.State) :
  ~ In {| Search.field := f; Search.value := v; Search.operator := op |}
      (Search._quickFilters st) ->
  Search._quickFilters (Search.addQuickFilter f v op st)
  = Search._quickFilters st
    ++ [{| Search.field := f; Search.value := v; Search.operator := op |}].
Proof.
  intros Hnot. unfold Search.addQuickFilter. cbn [Search._quickFilters].
  destruct (existsb _ _) eqn:E; [ | reflexivity ].
  exfalso. apply Hnot.
  apply existsb_exists in E as [[f' v' op'] [Hin Hx]].
  cbn [Search.field Search.value Search.operator] in Hx.
  apply andb_prop in Hx as [Hx Hop]. apply andb_prop in Hx as [Hf Hv].
  apply String.eqb_eq in Hf, Hv. subst f' v'.
  destruct op', op; try discriminate; exact Hin.
Qed.

Lemma filter_dec (x : Search.SearchFilter) (l : list Search.SearchFilter) :
  In x l \/ ~ In x l.
Proof.
  assert (Hdec : forall a b : Search.SearchFilter, {a = b} + {a <> b}).
  { decide equality; [ decide equality | apply string_dec | apply string_dec ]. }
  destruct (in_dec Hdec x l); auto.
Qed.

(** X10: Adding a quick filter twice is the same as adding it once. *)
Theorem addQuickFilter_idempotent (f v : string) (op : Search.Operator) (st : Search.State) :
  Search.addQuickFilter f v op (Search.addQuickFilter f v op st)
  = Search.addQuickFilter f v op st.
Proof.
  assert (Hin : In {| Search.field := f; Search.value := v; Search.operator := op |}
                  (Search._quickFilters (Search.addQuickFilter f v op st))).
  { destruct (addQuickFilter_In f v op st) as [[f' v' op'] [Hx [Hf [Hv Ho]]]].
    simpl in Hf, Hv, Ho. now subst. }
  pose proof (addQuickFilter_present f v op _ Hin) as Heq.
  set (st1 := Search.addQuickFilter f v op st) in *.
  unfold Search.addQuickFilter at 1.
  unfold Search.addQuickFilter at 1 in Heq. cbn [Search._quickFilters] in Heq.
  rewrite Heq. now destruct st1.
Qed.

(** X11: The list of quick filters never holds the same filter twice. *)
Theorem addQuickFilter_no_duplicates (f v : string) (op : Search.Operator)
  (st : Search.State) :
  NoDup (Search._quickFilters st) ->
  NoDup (Search._quickFilters (Search.addQuickFilter f v op st)).
Proof.
  intros Hnd.
  destruct (filter_dec {| Search.field := f; Search.value := v; Search.operator := op |}
              (Search._quickFilters st)) as [Hin | Hnot].
  - now rewrite addQuickFilter_present.
  - rewrite addQuickFilter_absent by exact Hnot.
    apply NoDup_rev in Hnd. rewrite <- (rev_involutive (_ ++ [_])).
    apply NoDup_rev. rewrite rev_app_distr. simpl. constructor; [ | exact Hnd ].
    now rewrite <- in_rev.
Qed.

Lemma addQuickFilter_no_duplicates_witness :
  NoDup (Search._quickFilters
           (Search.addQuickFilter "level" "ERROR" Search.equals
              (Search.addQuickFilter "level" "ERROR" Search.equals Examples.idle))).
Proof.
  apply addQuickFilter_no_duplicates. apply addQuickFilter_no_duplicates.
  simpl. constructor.
Defined.

Lemma filterIndex_remove {A : Type} (index : Z) (l : list A) :
  forall k,
    List.length (Analytics.filterIndex (fun i => negb (Z.of_nat i =? index)%Z) k l)
    = if ((Z.of_nat k <=? index) && (index <? Z.of_nat (k + List.length l)))%Z
      then List.length l - 1 else List.length l.
Proof.
  induction l as [ | x l IH]; intros k; cbn [Analytics.filterIndex List.length].
  - destruct (_ && _); reflexivity.
  - specialize (IH (S k)).
    destruct (Z.of_nat k =? index)%Z eqn:E; cbn [negb List.length]; rewrite IH.
    + apply Z.eqb_eq in E.
      replace ((Z.of_nat (S k) <=? index)%Z) with false by (symmetry; apply Z.leb_gt; lia).
      replace ((Z.of_nat k <=? index)%Z) with true by (symmetry; apply Z.leb_le; lia).
      replace ((index <? Z.of_nat (k + S (List.length l)))%Z) with true
        by (symmetry; apply Z.ltb_lt; lia).
      simpl. lia.
    + apply Z.eqb_neq in E.
      destruct (Z.leb_spec (Z.of_nat (S k)) index), (Z.leb_spec (Z.of_nat k) index),
        (Z.ltb_spec index (Z.of_nat (S k + List.length l))),
        (Z.ltb_spec index (Z.of_nat (k + S (List.length l)))); simpl; lia.
Qed.

Lemma filterIndex_keep_all {A : Type} (index : Z) (l : list A) :
  forall k, (index < Z.of_nat k \/ Z.of_nat (k + List.length l) <= index)%Z ->
            Analytics.filterIndex (fun i => negb (Z.of_nat i =? index)%Z) k l = l.
Proof.
  induction l as [ | x l IH]; intros k Hk; cbn [Analytics.filterIndex]; [ reflexivity | ].
  cbn [List.length] in Hk.
  replace ((Z.of_nat k =? index)%Z) with false by (symmetry; apply Z.eqb_neq; lia).
  cbn [negb]. rewrite IH; [ reflexivity | lia ].
Qed.

Lemma filterIndex_drop_last {A : Type} (l : list A) (x : A) :
  forall k,
    Analytics.filterIndex
      (fun i => negb (Z.of_nat i =? Z.of_nat (k + List.length l))%Z) k (l ++ [x]) = l.
Proof.
  induction l as [ | y l IH]; intros k; cbn [Analytics.filterIndex List.length app].
  - rewrite Nat.add_0_r, Z.eqb_refl. reflexivity.
  - replace ((Z.of_nat k =? Z.of_nat (k + S (List.length l)))%Z) with false
      by (symmetry; apply Z.eqb_neq; lia).
    cbn [negb]. replace (k + S (List.length l)) with (S k + List.length l) by lia.
    now rewrite IH.
Qed.

Lemma filterIndex_at {A : Type} (index : Z) (l : list A) :
  forall k,
    (Z.of_nat k <= index < Z.of_nat (k + List.length l))%Z ->
    Analytics.filterIndex (fun i => negb (Z.of_nat i =? index)%Z) k l
    = firstn (Z.to_nat index - k) l ++ skipn (S (Z.to_nat index - k)) l.
Proof.
  induction l as [ | x l IH]; intros k Hk; cbn [List.length] in Hk; [ lia | ].
  cbn [Analytics.filterIndex].
  destruct (Z.eqb_spec (Z.of_nat k) index) as [Heq | Hne]; cbn [negb].
  - rewrite filterIndex_keep_all by lia.
    replace (Z.to_nat index - k) with 0 by lia. reflexivity.
  - rewrite IH by lia.
    replace (Z.to_nat index - k) with (S (Z.to_nat index - S k)) by lia.
    reflexivity.
Qed.

(** X12: Removing the quick filter at an index that is in range takes
    exactly the filter at that index out of the list and keeps the others
    in their order; for every other index, negative or too large, the
    state is left as it is.  Query, regex mode, time range and case
    sensitivity are never touched. *)
Theorem removeQuickFilter_at_index (index : Z) (st : Search.State) :
  ((0 <= index < Z.of_nat (List.length (Search._quickFilters st)))%Z ->
   Search._quickFilters (SearchOps.removeQuickFilter index st)
   = firstn (Z.to_nat index) (Search._quickFilters st)
     ++ skipn (S (Z.to_nat index)) (Search._quickFilters st) /\
   List.length (Search._quickFilters (SearchOps.removeQuickFilter index st))
   = List.length (Search._quickFilters st) - 1) /\
  ((index < 0 \/ Z.of_nat (List.length (Search._quickFilters st)) <= index)%Z ->
   SearchOps.removeQuickFilter index st = st) /\
  Search._searchQuery (SearchOps.removeQuickFilter index st) = Search._searchQuery st /\
  Search._isRegex (SearchOps.removeQuickFilter index st) = Search._isRegex st /\
  Search._timeRange (SearchOps.removeQuickFilter index st) = Search._timeRange st /\
  Search._caseSensitive (SearchOps.removeQuickFilter index st) = Search._caseSensitive st.
Proof.
  unfold SearchOps.removeQuickFilter. cbn [Search._quickFilters Search._searchQuery
    Search._isRegex Search._timeRange Search._caseSensitive].
  split; [ | split; [ | repeat split ] ].
  - intros Hin. split.
    + rewrite filterIndex_at by (cbn; lia). now rewrite Nat.sub_0_r.
    + rewrite filterIndex_remove. cbn [Nat.add Z.of_nat].
      destruct (Z.leb_spec 0 index), (Z.ltb_spec index
        (Z.of_nat (List.length (Search._quickFilters st)))); cbn [andb]; lia.
  - intros Hout. rewrite filterIndex_keep_all by (cbn; lia). now destruct st.
Qed.

Lemma removeQuickFilter_at_index_witness :
  Search._quickFilters
    (SearchOps.removeQuickFilter 1
       (Search.addQuickFilter "host" "b" Search.equals
          (Search.addQuickFilter "level" "ERROR" Search.contains
             (Search.addQuickFilter "host" "a" Search.equals Examples.idle))))
  = [ {| Search.field := "host"; Search.value := "a"; Search.operator := Search.equals |};
      {| Search.field := "host"; Search.value := "b"; Search.operator := Search.equals |} ].
Proof.
  destruct (removeQuickFilter_at_index 1
              (Search.addQuickFilter "host" "b" Search.equals
                 (Search.addQuickFilter "level" "ERROR" Search.contains
                    (Search.addQuickFilter "host" "a" Search.equals Examples.idle))))
    as [Hin _].
  destruct Hin as [Hfilters _]; [ cbn; lia | ].
  rewrite Hfilters. reflexivity.
Defined.

(** X13: Adding a filter that is not in the list and then removing the last
    index gives back the state. *)
Theorem removeQuickFilter_after_add (f v : string) (op : Search.Operator)
  (st : Search.State) :
  ~ In {| Search.field := f; Search.value := v; Search.operator := op |}
      (Search._quickFilters st) ->
  SearchOps.removeQuickFilter (Z.of_nat (List.length (Search._quickFilters st)))
    (Search.addQuickFilter f v op st) = st.
Proof.
  intros Hnot. pose proof (addQuickFilter_absent f v op st Hnot) as Hadd.
  unfold SearchOps.removeQuickFilter. rewrite Hadd.
  rewrite (filterIndex_drop_last (Search._quickFilters st) _ 0).
  now destruct st.
Qed.

Lemma removeQuickFilter_after_add_witness :
  SearchOps.removeQuickFilter (Z.of_nat (List.length (Search._quickFilters Examples.bounded)))
    (Search.addQuickFilter "level" "ERROR" Search.equals Examples.bounded)
  = Examples.bounded.
Proof.
  apply removeQuickFilter_after_add. simpl. tauto.
Defined.

(** ** Filtering *)

Lemma filter_true {A : Type} (l : list A) : List.filter (fun _ => true) l = l.
Proof. induction l as [ | x l IH]; simpl; [ reflexivity | now rewrite IH ]. Qed.

Lemma filter_compose {A : Type} (p q : A -> bool) (l : list A) :
  List.filter p (List.filter q l) = List.filter (fun x => q x && p x) l.
Proof.
  induction l as [ | x l IH]; simpl; [ reflexivity | ].
  destruct (q x); simpl; [ destruct (p x) | ]; now rewrite IH.
Qed.

(** [filterLogs] decides record by record: whether a record is kept does
    not depend on the other records. *)
Lemma filterLogs_per_record {R : Runtime} (st : Search.State) :
  exists keep, forall logs, Search.filterLogs st logs = List.filter keep logs.
Proof.
  assert (H1 : exists p, forall logs, Search.timeRangeStage st logs = List.filter p logs).
  { unfold Search.timeRangeStage. destruct (_ || _).
    - eexists. reflexivity.
    - exists (fun _ => true). intros. now rewrite filter_true. }
  assert (H2 : exists p, forall logs, Search.quickFilterStage st logs = List.filter p logs).
  { unfold Search.quickFilterStage. destruct (0 <? _).
    - eexists. reflexivity.
    - exists (fun _ => true). intros. now rewrite filter_true. }
  assert (H3 : exists p, forall logs, Search.queryStage st logs = List.filter p logs).
  { unfold Search.queryStage. destruct (0 <? _).
    - destruct (Search._isRegex st).
      + destruct (RegExp_new _ _).
        * eexists. reflexivity.
        * exists (fun _ => true). intros. now rewrite filter_true.
      + eexists. reflexivity.
    - exists (fun _ => true). intros. now rewrite filter_true. }
  destruct H1 as [p1 H1], H2 as [p2 H2], H3 as [p3 H3].
  exists (fun x => p1 x && (p2 x && p3 x)). intros logs.
  unfold Search.filterLogs. now rewrite H3, H2, H1, !filter_compose.
Qed.

(** X14: Filtering an already filtered sequence changes nothing. *)
Theorem filterLogs_idempotent {R : Runtime} (st : Search.State) (logs : list LogEntry) :
  Search.filterLogs st (Search.filterLogs st logs) = Search.filterLogs st logs.
Proof.
  destruct (filterLogs_per_record st) as [keep H].
  rewrite !H, filter_compose. apply filter_ext. intros x. apply andb_diag.
Qed.

(** X15: Filtering two sequences one after the other is filtering their
    concatenation: the result keeps the order of the input. *)
Theorem filterLogs_app {R : Runtime} (st : Search.State) (a b : list LogEntry) :
  Search.filterLogs st (a ++ b) = Search.filterLogs st a ++ Search.filterLogs st b.
Proof.
  destruct (filterLogs_per_record st) as [keep H].
  rewrite !H. apply filter_app.
Qed.

(** X16: When [hasActiveFilters] is false, [filterLogs] returns its input. *)
Theorem filterLogs_inactive {R : Runtime} (st : Search.State) (logs : list LogEntry) :
  SearchOps.hasActiveFilters st = false ->
  Search.filterLogs st logs = logs.
Proof.
  unfold SearchOps.hasActiveFilters. intros H.
  apply orb_false_elim in H as [H He]. apply orb_false_elim in H as [H Hs].
  apply orb_false_elim in H as [Hq Hf].
  destruct st as [q rx fs [s e] cs]. cbn in Hq, Hf, Hs, He.
  destruct q; [ | discriminate ]. destruct fs; [ | discriminate ].
  destruct s; [ discriminate | ]. destruct e; [ discriminate | ].
  reflexivity.
Qed.

Lemma filterLogs_inactive_witness :
  Search.filterLogs (R := Reference.runtime) (Search.clearAll Examples.bounded)
    [Examples.undated] = [Examples.undated].
Proof.
  apply (filterLogs_inactive (R := Reference.runtime)). reflexivity.
Defined.

(** X17: A query that is not a valid regular expression is ignored: the result
    is the one of the same state with an empty query. *)
Theorem filterLogs_invalid_regex {R : Runtime} (st : Search.State) (logs : list LogEntry) :
  Search._isRegex st = true ->
  RegExp_new (Str.trim (Search._searchQuery st)) (negb (Search._caseSensitive st)) = None ->
  Search.filterLogs st logs
  = Search.filterLogs (SearchOps.setSearchQuery EmptyString st) logs.
Proof.
  intros Hrx Hnew. unfold Search.filterLogs.
  change (Search.timeRangeStage (SearchOps.setSearchQuery EmptyString st))
    with (Search.timeRangeStage st).
  change (Search.quickFilterStage (SearchOps.setSearchQuery EmptyString st))
    with (Search.quickFilterStage st).
  generalize (Search.quickFilterStage st (Search.timeRangeStage st logs)). intros l.
  unfold Search.queryStage at 1. rewrite Hrx, Hnew.
  destruct (0 <? _); reflexivity.
Qed.

Lemma filterLogs_invalid_regex_witness :
  Search.filterLogs (R := Reference.runtime) MoreExamples.brokenRegex [Examples.undated]
  = Search.filterLogs (R := Reference.runtime)
      (SearchOps.setSearchQuery EmptyString MoreExamples.brokenRegex) [Examples.undated].
Proof.
  apply (filterLogs_invalid_regex (R := Reference.runtime)); reflexivity.
Defined.

(** X18: The bounds of the time range are inclusive and compared as time
    values: a record with a valid time is kept exactly when no valid start
    lies after it and no valid end lies before it; a null bound and a
    bound that is an invalid date exclude nothing. *)
Theorem inTimeRange_inclusive {R : Runtime} (timeRange : Search.TimeRange)
  (entry : LogEntry) (t : Z) :
  Builtin.new_Date (Js.read "@timestamp" entry) = Some t ->
  (Search.inTimeRange timeRange entry = true <->
   (forall s, Search.start timeRange = Some {| Search.getTime := Some s |} -> (s <= t)%Z) /\
   (forall e, Search.end_ timeRange = Some {| Search.getTime := Some e |} -> (t <= e)%Z)).
Proof.
  intros Ht. unfold Search.inTimeRange. rewrite Ht.
  destruct timeRange as [[[[s | ]] | ] [[[e | ]] | ]]; cbn [Search.start Search.end_ Search.getTime Search.lt].
  all: repeat match goal with
         | |- context [(?a <? ?b)%Z] => destruct (Z.ltb_spec a b)
         end.
  all: split;
    [ intros Hkeep; try discriminate; split; intros x Hx;
      try discriminate; injection Hx as <-; lia
    | intros [Hs He]; try reflexivity;
      try (specialize (Hs _ eq_refl)); try (specialize (He _ eq_refl)); lia ].
Qed.

Lemma inTimeRange_inclusive_witness :
  Search.inTimeRange (R := Reference.runtime) (Search._timeRange Examples.bounded)
    MoreExamples.oneSecond = true <->
  (forall s, Search.start (Search._timeRange Examples.bounded)
             = Some {| Search.getTime := Some s |} -> (s <= 1000)%Z) /\
  (forall e, Search.end_ (Search._timeRange Examples.bounded)
             = Some {| Search.getTime := Some e |} -> (1000 <= e)%Z).
Proof.
  apply (inTimeRange_inclusive (R := Reference.runtime)). reflexivity.
Defined.

(** ** Escaping for HTML and CSV *)

Lemma hasChar_app (c : ascii) (a b : string) :
  SearchOps.hasChar c (a ++ b) = SearchOps.hasChar c a || SearchOps.hasChar c b.
Proof.
  induction a as [ | x a IH]; cbn [String.append SearchOps.hasChar]; [ reflexivity | ].
  now rewrite IH, orb_assoc.
Qed.

Lemma replaceChar_removes (c : ascii) (rep s : string) :
  SearchOps.hasChar c rep = false ->
  SearchOps.hasChar c (SearchOps.replaceChar c rep s) = false.
Proof.
  intros Hrep. induction s as [ | a s IH]; cbn [SearchOps.replaceChar]; [ reflexivity | ].
  destruct (Ascii.eqb a c) eqn:E.
  - now rewrite hasChar_app, Hrep, IH.
  - cbn [SearchOps.hasChar]. now rewrite E, IH.
Qed.

Lemma replaceChar_keeps_absent (d c : ascii) (rep s : string) :
  SearchOps.hasChar d rep = false ->
  SearchOps.hasChar d s = false ->
  SearchOps.hasChar d (SearchOps.replaceChar c rep s) = false.
Proof.
  intros Hrep. induction s as [ | a s IH]; cbn [SearchOps.replaceChar SearchOps.hasChar];
    [ reflexivity | ].
  intros H. apply orb_false_elim in H as [Ha Hs].
  destruct (Ascii.eqb a c).
  - now rewrite hasChar_app, Hrep, IH.
  - cbn [SearchOps.hasChar]. now rewrite Ha, IH.
Qed.

(** X19: The escaped text holds no angle bracket and no double quote, whatever
    the input. *)
Theorem escapeHtml_safe (str : string) :
  SearchOps.hasChar "<" (SearchOps.escapeHtml str) = false /\
  SearchOps.hasChar ">" (SearchOps.escapeHtml str) = false /\
  SearchOps.hasChar Str.DQUOTE (SearchOps.escapeHtml str) = false.
Proof.
  unfold SearchOps.escapeHtml. repeat split.
  - apply replaceChar_keeps_absent; [ reflexivity | ].
    apply replaceChar_keeps_absent; [ reflexivity | ].
    now apply replaceChar_removes.
  - apply replaceChar_keeps_absent; [ reflexivity | ].
    now apply replaceChar_removes.
  - now apply replaceChar_removes.
Qed.

Lemma replaceChar_absent (c : ascii) (rep s : string) :
  SearchOps.hasChar c s = false -> SearchOps.replaceChar c rep s = s.
Proof.
  induction s as [ | a s IH]; cbn [SearchOps.replaceChar SearchOps.hasChar];
    [ reflexivity | ].
  intros H. apply orb_false_elim in H as [Ha Hs]. now rewrite Ha, IH.
Qed.

Lemma dropLast_app (s : string) (c : ascii) :
  CsvExport.dropLast (s ++ String c EmptyString) = s.
Proof.
  induction s as [ | a s IH]; [ reflexivity | ].
  cbn [String.append CsvExport.dropLast]. rewrite IH.
  destruct s; reflexivity.
Qed.

Lemma halve_doubled (value : string) :
  Str.replace2 Str.DQUOTE Str.DQUOTE Str.DQUOTE (CsvExport.doubleQuotes value) = value.
Proof.
  unfold CsvExport.doubleQuotes.
  induction value as [ | a s IH]; [ reflexivity | ].
  cbn [SearchOps.replaceChar].
  destruct (Ascii.eqb a Str.DQUOTE) eqn:E.
  - apply Ascii.eqb_eq in E. subst a.
    cbn [String.append LogParser.quote Str.replace2].
    rewrite Ascii.eqb_refl. cbn [andb]. now rewrite IH.
  - cbn [Str.replace2]. rewrite E. cbn [andb].
    destruct (SearchOps.replaceChar Str.DQUOTE _ s) eqn:Es.
    + destruct s as [ | b s']; [ reflexivity | ].
      cbn [SearchOps.replaceChar] in Es. destruct (Ascii.eqb b Str.DQUOTE); discriminate.
    + now rewrite IH.
Qed.

Lemma includes_first (c : ascii) (s : string) :
  Str.includes (String c EmptyString) (String c s) = true.
Proof. cbn [Str.includes Str.startsWith]. now rewrite Ascii.eqb_refl. Qed.

Lemma readCsvValue_escapeCsvValue (value : string) :
  CsvExport.readCsvValue (CsvExport.escapeCsvValue value) = value.
Proof.
  unfold CsvExport.escapeCsvValue.
  destruct (_ || _) eqn:E.
  - unfold LogParser.quote at 1. cbn [String.append CsvExport.readCsvValue].
    rewrite Ascii.eqb_refl. unfold LogParser.quote.
    rewrite dropLast_app. apply halve_doubled.
  - apply orb_false_elim in E as [E _]. apply orb_false_elim in E as [_ Hq].
    destruct value as [ | c s]; [ reflexivity | ].
    cbn [CsvExport.readCsvValue].
    destruct (Ascii.eqb c Str.DQUOTE) eqn:Ec; [ | reflexivity ].
    apply Ascii.eqb_eq in Ec. subst c.
    unfold LogParser.quote in Hq. rewrite includes_first in Hq. discriminate.
Qed.

(** X20: Escaping loses nothing: two different values are never written as
    the same CSV field. *)
Theorem escapeCsvValue_distinct (a b : string) :
  a <> b -> CsvExport.escapeCsvValue a <> CsvExport.escapeCsvValue b.
Proof.
  intros Hab Heq. apply Hab.
  rewrite <- (readCsvValue_escapeCsvValue a), <- (readCsvValue_escapeCsvValue b).
  now rewrite Heq.
Qed.

Lemma escapeCsvValue_distinct_witness :
  CsvExport.escapeCsvValue "a,b" <> CsvExport.escapeCsvValue (Examples.dq "'a,b'").
Proof.
  apply (escapeCsvValue_distinct "a,b" (Examples.dq "'a,b'")). vm_compute. discriminate.
Defined.

(** ** Maps in insertion order *)

Section MapFacts.
Context {K V : Type} (eqb : K -> K -> bool).
Hypothesis eqb_spec : forall a b, eqb a b = true <-> a = b.

Lemma mapGet_None (k : K) (m : list (K * V)) :
  Analytics.mapGet eqb k m = None <-> ~ In k (List.map fst m).
Proof.
  induction m as [ | [k0 v0] m IH]; simpl; [ tauto | ].
  destruct (eqb k k0) eqn:E.
  - apply eqb_spec in E. subst. split; [ discriminate | intros H; exfalso; apply H; now left ].
  - rewrite IH. split.
    + intros H [Heq | Hin]; [ | tauto ].
      subst. assert (eqb k k = true) by now apply eqb_spec. congruence.
    + tauto.
Qed.

Lemma mapGet_mapSet (k k' : K) (v : V) (m : list (K * V)) :
  Analytics.mapGet eqb k (Analytics.mapSet eqb k' v m)
  = if eqb k k' then Some v else Analytics.mapGet eqb k m.
Proof.
  induction m as [ | [k0 v0] m IH]; simpl; [ reflexivity | ].
  destruct (eqb k' k0) eqn:E'; simpl.
  - apply eqb_spec in E'. subst k0. now destruct (eqb k k').
  - rewrite IH. destruct (eqb k k0) eqn:E; [ | reflexivity ].
    apply eqb_spec in E. subst k0.
    destruct (eqb k k') eqn:Ekk; [ | reflexivity ].
    apply eqb_spec in Ekk. subst k'.
    assert (Hrefl : eqb k k = true) by now apply eqb_spec.
    congruence.
Qed.

Lemma mapGet_In (k : K) (v : V) (m : list (K * V)) :
  Analytics.mapGet eqb k m = Some v -> In (k, v) m.
Proof.
  induction m as [ | [k0 v0] m IH]; simpl; [ discriminate | ].
  destruct (eqb k k0) eqn:E.
  - apply eqb_spec in E. subst. intros H. injection H as ->. now left.
  - intros H. right. now apply IH.
Qed.

Lemma mapSet_keys (k : K) (v : V) (m : list (K * V)) :
  List.map fst (Analytics.mapSet eqb k v m) =
  match Analytics.mapGet eqb k m with
  | Some _ => List.map fst m
  | None => List.map fst m ++ [k]
  end.
Proof.
  induction m as [ | [k0 v0] m IH]; simpl; [ reflexivity | ].
  destruct (eqb k k0) eqn:E; simpl.
  - apply eqb_spec in E. now subst.
  - rewrite IH. now destruct (Analytics.mapGet eqb k m).
Qed.

Lemma mapSet_NoDup (k : K) (v : V) (m : list (K * V)) :
  NoDup (List.map fst m) -> NoDup (List.map fst (Analytics.mapSet eqb k v m)).
Proof.
  intros Hnd. rewrite mapSet_keys.
  destruct (Analytics.mapGet eqb k m) eqn:E; [ exact Hnd | ].
  apply mapGet_None in E.
  apply NoDup_rev in Hnd. rewrite <- (rev_involutive (_ ++ [k])).
  apply NoDup_rev. rewrite rev_app_distr. simpl. constructor; [ | exact Hnd ].
  now rewrite <- in_rev.
Qed.

(** An invariant of the values is kept by an update that respects it. *)
Lemma mapSet_Forall (P : V -> Prop) (k : K) (v : V) (m : list (K * V)) :
  P v -> Forall (fun kv => P (snd kv)) m ->
  Forall (fun kv => P (snd kv)) (Analytics.mapSet eqb k v m).
Proof.
  intros Hv. induction 1 as [ | [k0 v0] m Hkv Hm IH]; simpl.
  - repeat constructor. exact Hv.
  - destruct (eqb k k0); constructor; auto.
Qed.

(** The sum of a measure of the values after an update. *)
Lemma mapSet_sum (w : V -> nat) (k : K) (v : V) (m : list (K * V)) :
  list_sum (List.map (fun kv => w (snd kv)) (Analytics.mapSet eqb k v m))
  + match Analytics.mapGet eqb k m with Some old => w old | None => 0 end
  = list_sum (List.map (fun kv => w (snd kv)) m) + w v.
Proof.
  induction m as [ | [k0 v0] m IH]; simpl; [ lia | ].
  destruct (eqb k k0); simpl; lia.
Qed.

End MapFacts.

Lemma list_sum_perm (l l' : list nat) : Permutation l l' -> list_sum l = list_sum l'.
Proof. induction 1; simpl; lia. Qed.

(** ** Level distribution *)

Lemma countLevels_invariant {R : Runtime} (logs : list LogEntry) :
  forall counts counts',
    Analytics.countLevels logs counts = Normal counts' ->
    NoDup (List.map fst counts) ->
    Forall (fun kv => 0 < snd kv) counts ->
    NoDup (List.map fst counts') /\
    Forall (fun kv => 0 < snd kv) counts' /\
    list_sum (List.map snd counts') = list_sum (List.map snd counts) + List.length logs.
Proof.
  induction logs as [ | log logs IH]; intros counts counts' H Hnd Hpos; simpl in H.
  - injection H as <-. simpl. split; [ exact Hnd | split; [ exact Hpos | lia ] ].
  - destruct (Analytics.levelOf log) as [level | m]; simpl in H; [ | discriminate ].
    apply IH in H.
    + destruct H as [Hnd' [Hpos' Hsum]]. split; [ exact Hnd' | split; [ exact Hpos' | ] ].
      rewrite Hsum.
      pose proof (mapSet_sum String.eqb (fun n : nat => n) level
                    (match Analytics.mapGet String.eqb level counts with
                     | Some c => c | None => 0 end + 1) counts) as Hs.
      cbv beta in Hs.
      change (fun kv : string * nat => snd kv) with (@snd string nat) in Hs.
      cbn [List.length]. destruct (Analytics.mapGet String.eqb level counts); lia.
    + apply mapSet_NoDup; [ apply String.eqb_eq | exact Hnd ].
    + apply (mapSet_Forall String.eqb (fun n => 0 < n)); [ lia | exact Hpos ].
Qed.

Lemma levelDistribution_total {R : Runtime} (logs : list LogEntry)
  (result : list LevelCount.t) :
  Analytics.levelDistribution logs = Normal result ->
  list_sum (List.map LevelCount.count result) = List.length logs.
Proof.
  unfold Analytics.levelDistribution.
  destruct (Analytics.countLevels logs []) as [counts | m] eqn:E; cbn [bind];
    [ | discriminate ].
  intros H. injection H as <-.
  apply countLevels_invariant in E; [ | constructor | constructor ].
  destruct E as [_ [_ Hsum]].
  rewrite map_map.
  rewrite (map_ext _ snd) by now intros [l c].
  rewrite <- (list_sum_perm _ _ (Permutation_map snd (sort_perm _ counts))).
  simpl in Hsum. exact Hsum.
Qed.

(** X21: The level distribution partitions the records: its groups have
    pairwise distinct levels, none is empty, and their counts add up to
    the number of records. *)
Theorem levelDistribution_partition {R : Runtime} (logs : list LogEntry)
  (result : list LevelCount.t) :
  Analytics.levelDistribution logs = Normal result ->
  NoDup (List.map LevelCount.level result) /\
  Forall (fun lc => 0 < LevelCount.count lc) result /\
  list_sum (List.map LevelCount.count result) = List.length logs.
Proof.
  unfold Analytics.levelDistribution.
  destruct (Analytics.countLevels logs []) as [counts | m] eqn:E; cbn [bind];
    [ | discriminate ].
  intros H. injection H as <-.
  apply countLevels_invariant in E; [ | constructor | constructor ].
  destruct E as [Hnd [Hpos Hsum]].
  set (sorted := Analytics.sort _ counts).
  assert (Hperm : Permutation counts sorted) by apply sort_perm.
  match goal with |- context [List.map ?f sorted] => set (mk := f) end.
  assert (Hl : List.map LevelCount.level (List.map mk sorted) = List.map fst sorted).
  { rewrite map_map. apply map_ext. now intros [l c]. }
  assert (Hc : List.map LevelCount.count (List.map mk sorted) = List.map snd sorted).
  { rewrite map_map. apply map_ext. now intros [l c]. }
  rewrite Hl, Hc. split; [ | split ].
  - apply (Permutation_NoDup (Permutation_map fst Hperm) Hnd).
  - apply (Permutation_Forall Hperm) in Hpos.
    apply Forall_forall. intros lc Hin. apply in_map_iff in Hin as [[l c] [<- Hin]].
    rewrite Forall_forall in Hpos. exact (Hpos _ Hin).
  - rewrite <- (list_sum_perm _ _ (Permutation_map snd Hperm)). simpl in Hsum. exact Hsum.
Qed.

Lemma levelDistribution_partition_witness :
  exists result,
    Analytics.levelDistribution (R := Reference.runtime) Examples.freeFormLevels
    = Normal result /\
    NoDup (List.map LevelCount.level result) /\
    Forall (fun lc => 0 < LevelCount.count lc) result /\
    list_sum (List.map LevelCount.count result) = List.length Examples.freeFormLevels.
Proof.
  eexists. split; [ reflexivity | ].
  apply (levelDistribution_partition (R := Reference.runtime) Examples.freeFormLevels).
  reflexivity.
Defined.

(** ** Status distribution *)

Lemma Qle_bool_trans_false (a b q : Q) :
  (a <= b)%Q -> Qle_bool a q = false -> Qle_bool b q = false.
Proof.
  intros Hab Ha. destruct (Qle_bool b q) eqn:E; [ | reflexivity ].
  apply Qle_bool_iff in E.
  assert (H : Qle_bool a q = true) by (apply Qle_bool_iff; eapply Qle_trans; eauto).
  congruence.
Qed.

Lemma countStatus_total (counts : AnalyticsMore.StatusCounts) (log : LogEntry) :
  let total c := AnalyticsMore.c2xx c + AnalyticsMore.c3xx c
                 + AnalyticsMore.c4xx c + AnalyticsMore.c5xx c in
  total (AnalyticsMore.countStatus counts log)
  = total counts
    + (match Js.read "http.status_code" log with
       | JNumber status => if Qle_bool 200 status then 1 else 0
       | _ => 0
       end).
Proof.
  intros total. unfold AnalyticsMore.countStatus.
  destruct (Js.read "http.status_code" log) as [ | | b | status | s | l | o];
    try (unfold total; lia).
  destruct (Qle_bool 200 status) eqn:E200.
  - destruct (Qle_bool 300 status); cbn [negb andb]; [ | unfold total; simpl; lia ].
    destruct (Qle_bool 400 status); cbn [negb andb]; [ | unfold total; simpl; lia ].
    destruct (Qle_bool 500 status); cbn [negb andb]; unfold total; simpl; lia.
  - assert (E300 : Qle_bool 300 status = false)
      by (apply (Qle_bool_trans_false 200); [ discriminate | exact E200 ]).
    assert (E400 : Qle_bool 400 status = false)
      by (apply (Qle_bool_trans_false 200); [ discriminate | exact E200 ]).
    assert (E500 : Qle_bool 500 status = false)
      by (apply (Qle_bool_trans_false 200); [ discriminate | exact E200 ]).
    rewrite E300, E400, E500. cbn [negb andb]. unfold total. lia.
Qed.

Lemma countStatus_fold (logs : list LogEntry) :
  forall counts,
    let total c := AnalyticsMore.c2xx c + AnalyticsMore.c3xx c
                   + AnalyticsMore.c4xx c + AnalyticsMore.c5xx c in
    total (fold_left AnalyticsMore.countStatus logs counts)
    = total counts
      + List.length
          (List.filter
             (fun log => match Js.read "http.status_code" log with
                         | JNumber status => Qle_bool 200 status
                         | _ => false
                         end) logs).
Proof.
  induction logs as [ | log logs IH]; intros counts total; simpl fold_left.
  - simpl. lia.
  - unfold total. rewrite IH. pose proof (countStatus_total counts log) as H.
    cbv zeta in H. rewrite H. simpl List.filter.
    destruct (Js.read "http.status_code" log) as [ | | b | status | s | l | o];
      try lia.
    destruct (Qle_bool 200 status); simpl; lia.
Qed.

(** X22: The status distribution counts exactly the records whose status code
    is a number of at least 200, in the groups 2xx to 5xx in that order,
    and lists no empty group; a record with a status code below 200 or
    with a status code that is not a number counts nowhere. *)
Theorem statusDistribution_counts (logs : list LogEntry) :
  list_sum (List.map StatusCount.count (AnalyticsMore.statusDistribution logs))
  = List.length
      (List.filter
         (fun log => match Js.read "http.status_code" log with
                     | JNumber status => Qle_bool 200 status
                     | _ => false
                     end) logs) /\
  Forall (fun sc => 0 < StatusCount.count sc) (AnalyticsMore.statusDistribution logs) /\
  exists keep,
    List.map StatusCount.category (AnalyticsMore.statusDistribution logs)
    = List.filter keep ["2xx"; "3xx"; "4xx"; "5xx"].
Proof.
  unfold AnalyticsMore.statusDistribution.
  pose proof (countStatus_fold logs
                {| AnalyticsMore.c2xx := 0; AnalyticsMore.c3xx := 0;
                   AnalyticsMore.c4xx := 0; AnalyticsMore.c5xx := 0 |}) as Hsum.
  cbv zeta in Hsum. cbn [AnalyticsMore.c2xx AnalyticsMore.c3xx AnalyticsMore.c4xx
                          AnalyticsMore.c5xx Nat.add] in Hsum.
  rewrite <- Hsum. clear Hsum.
  set (counts := fold_left AnalyticsMore.countStatus logs _).
  unfold AnalyticsMore.statusEntries.
  destruct (AnalyticsMore.c2xx counts) as [ | a], (AnalyticsMore.c3xx counts) as [ | b],
    (AnalyticsMore.c4xx counts) as [ | c], (AnalyticsMore.c5xx counts) as [ | d];
    cbn [List.filter List.map snd Nat.ltb Nat.leb StatusCount.count StatusCount.category
         list_sum fold_right];
    (split; [ lia | split; [ repeat (apply Forall_cons; [ cbn [StatusCount.count]; lia | ]); apply Forall_nil | ] ]).
  - exists (fun _ => false). reflexivity.
  - exists (fun k => String.eqb k "5xx"). reflexivity.
  - exists (fun k => String.eqb k "4xx"). reflexivity.
  - exists (fun k => String.eqb k "4xx" || String.eqb k "5xx"). reflexivity.
  - exists (fun k => String.eqb k "3xx"). reflexivity.
  - exists (fun k => String.eqb k "3xx" || String.eqb k "5xx"). reflexivity.
  - exists (fun k => String.eqb k "3xx" || String.eqb k "4xx"). reflexivity.
  - exists (fun k => negb (String.eqb k "2xx")). reflexivity.
  - exists (fun k => String.eqb k "2xx"). reflexivity.
  - exists (fun k => String.eqb k "2xx" || String.eqb k "5xx"). reflexivity.
  - exists (fun k => String.eqb k "2xx" || String.eqb k "4xx"). reflexivity.
  - exists (fun k => negb (String.eqb k "3xx")). reflexivity.
  - exists (fun k => String.eqb k "2xx" || String.eqb k "3xx"). reflexivity.
  - exists (fun k => negb (String.eqb k "4xx")). reflexivity.
  - exists (fun k => negb (String.eqb k "5xx")). reflexivity.
  - exists (fun _ => true). reflexivity.
Qed.

(** ** Summary *)

Lemma fold_count_le (levels : list LevelCount.t) (p : LevelCount.t -> bool) :
  forall acc,
    fold_left (fun sum l => sum + LevelCount.count l) (List.filter p levels) acc
    <= acc + list_sum (List.map LevelCount.count levels).
Proof.
  induction levels as [ | l levels IH]; intros acc; simpl; [ lia | ].
  destruct (p l); simpl.
  - specialize (IH (acc + LevelCount.count l)). lia.
  - specialize (IH acc). lia.
Qed.

(** X23: In the summary the number of errors never exceeds the number of
    records, and the total is the number of records. *)
Theorem summary_error_count {R : Runtime} (logs : list LogEntry) (s : Summary.t) :
  AnalyticsMore.summary logs = Normal s ->
  Summary.totalLogs s = List.length logs /\
  Summary.errorCount s <= Summary.totalLogs s.
Proof.
  unfold AnalyticsMore.summary.
  destruct (Analytics.levelDistribution logs) as [levels | m] eqn:E; cbn [bind];
    [ | discriminate ].
  intros H. injection H as <-. cbn [Summary.totalLogs Summary.errorCount].
  split; [ reflexivity | ].
  apply levelDistribution_total in E as Hsum.
  rewrite <- Hsum. apply (fold_count_le levels _ 0).
Qed.

Lemma summary_error_count_witness :
  exists s,
    AnalyticsMore.summary (R := Reference.runtime) Examples.freeFormLevels = Normal s /\
    Summary.totalLogs s = List.length Examples.freeFormLevels /\
    Summary.errorCount s <= Summary.totalLogs s.
Proof.
  eexists. split; [ reflexivity | ].
  apply (summary_error_count (R := Reference.runtime) Examples.freeFormLevels).
  reflexivity.
Defined.

(** ** Buckets over time *)

Lemma sorted_keys_ascending {V : Type} (l : list (Z * V)) :
  Sorted (fun a b => (fst a - fst b <=? 0)%Z = true) l ->
  NoDup (List.map fst l) ->
  Sorted Z.lt (List.map fst l).
Proof.
  induction 1 as [ | a l Hs IH Hhd]; intros Hnd; simpl; constructor.
  - apply IH. now inversion Hnd.
  - destruct Hhd as [ | b l Hab]; simpl; constructor.
    apply Z.leb_le in Hab. inversion Hnd as [ | ? ? Hnot _]; subst.
    assert (fst a <> fst b) by (intros Heq; apply Hnot; simpl; now left).
    lia.
Qed.

Lemma sort_by_key_ascending {V : Type} (m : list (Z * V)) :
  NoDup (List.map fst m) ->
  Sorted Z.lt (List.map fst (Analytics.sort (fun a b => (fst a - fst b <=? 0)%Z) m)).
Proof.
  intros Hnd. apply sorted_keys_ascending.
  - apply sort_sorted. intros a b Hab. apply Z.leb_gt in Hab. apply Z.leb_le. lia.
  - apply (Permutation_NoDup (Permutation_map fst (sort_perm _ m)) Hnd).
Qed.

Lemma groupDurations_invariant (bucketMs : Z) (points : list (Z * Q)) :
  forall buckets,
    NoDup (List.map fst buckets) ->
    Forall (fun kv => snd kv <> []) buckets ->
    let grouped :=
      fold_left
        (fun buckets point =>
           let bucketKey := Analytics.bucketOf (fst point) bucketMs in
           let old := match Analytics.mapGet Z.eqb bucketKey buckets with
                      | Some ds => ds
                      | None => []
                      end in
           Analytics.mapSet Z.eqb bucketKey (old ++ [snd point]) buckets)
        points buckets in
    NoDup (List.map fst grouped) /\ Forall (fun kv => snd kv <> []) grouped.
Proof.
  induction points as [ | p points IH]; intros buckets Hnd Hne; simpl.
  - auto.
  - apply IH.
    + apply mapSet_NoDup; [ apply Z.eqb_eq | exact Hnd ].
    + apply (mapSet_Forall Z.eqb (fun ds : list Q => ds <> [])); [ | exact Hne ].
      now destruct (match Analytics.mapGet Z.eqb _ buckets with Some ds => ds | None => [] end).
Qed.

Lemma sort_length {A : Type} (le : A -> A -> bool) (l : list A) :
  List.length (Analytics.sort le l) = List.length l.
Proof. symmetry. apply Permutation_length, sort_perm. Qed.

Lemma bucketStats_defined {R : Runtime} (bucketTime : Z) (durations : list Q) :
  durations <> [] ->
  DurationPoint.p95Duration (Analytics.bucketStats (bucketTime, durations)) <> None /\
  DurationPoint.maxDuration (Analytics.bucketStats (bucketTime, durations)) <> None /\
  DurationPoint.minDuration (Analytics.bucketStats (bucketTime, durations)) <> None.
Proof.
  intros Hne. unfold Analytics.bucketStats.
  cbn [DurationPoint.p95Duration DurationPoint.maxDuration DurationPoint.minDuration].
  set (sorted := Analytics.sort _ durations).
  assert (Hlen : 0 < List.length sorted).
  { unfold sorted. rewrite sort_length. destruct durations; [ congruence | simpl; lia ]. }
  destruct sorted as [ | x xs] eqn:Es; [ simpl in Hlen; lia | ].
  split; [ | split; discriminate ].
  assert (Hlast : nth_error (x :: xs) (List.length (x :: xs) - 1) <> None).
  { apply nth_error_Some. simpl. lia. }
  unfold Analytics.orElse.
  destruct (nth_error (x :: xs) (Analytics.p95Index (List.length (x :: xs)))) as [q | ];
    [ destruct (Qeq_bool q 0); [ exact Hlast | discriminate ] | exact Hlast ].
Qed.

(** X24: The points of the duration chart come in strictly ascending time, one
    per bucket, and each has a defined minimum, maximum and percentile: no
    bucket is empty. *)
Theorem durationEvolution_ascending {R : Runtime} (logs : list LogEntry) :
  Sorted Z.lt (List.map DurationPoint.time (Analytics.durationEvolution logs)) /\
  Forall (fun p => DurationPoint.p95Duration p <> None /\
                   DurationPoint.maxDuration p <> None /\
                   DurationPoint.minDuration p <> None)
    (Analytics.durationEvolution logs).
Proof.
  unfold Analytics.durationEvolution.
  destruct (Analytics.dataPoints logs) as [ | [minTime d0] [ | p1 points]];
    try (split; constructor).
  set (all := (minTime, d0) :: p1 :: points).
  set (bucketMs := if (_ <? _)%Z then _ else _).
  destruct (groupDurations_invariant bucketMs all [] (NoDup_nil _) (Forall_nil _))
    as [Hnd Hne].
  fold (Analytics.groupDurations bucketMs all) in Hnd, Hne.
  set (sorted := Analytics.sort _ (Analytics.groupDurations bucketMs all)).
  split.
  - rewrite map_map.
    rewrite (map_ext _ fst); [ now apply sort_by_key_ascending | ].
    now intros [t ds].
  - apply Forall_forall. intros p Hin. apply in_map_iff in Hin as [[t ds] [<- Hin]].
    apply bucketStats_defined.
    apply (Permutation_in _ (Permutation_sym (sort_perm _ _))) in Hin.
    rewrite Forall_forall in Hne. exact (Hne _ Hin).
Qed.

Lemma groupErrors_invariant (bucketMs : Z) (points : list (Z * bool)) :
  forall buckets,
    NoDup (List.map fst buckets) ->
    Forall (fun kv : Z * (nat * nat) => fst (snd kv) <= snd (snd kv) /\ 0 < snd (snd kv))
      buckets ->
    let grouped :=
      fold_left
        (fun (buckets : list (Z * (nat * nat))) (point : Z * bool) =>
           let bucketKey := Analytics.bucketOf (fst point) bucketMs in
           let old := match Analytics.mapGet Z.eqb bucketKey buckets with
                      | Some b => b
                      | None => (0, 0)
                      end in
           Analytics.mapSet Z.eqb bucketKey
             ((if snd point then S (fst old) else fst old), S (snd old)) buckets)
        points buckets in
    NoDup (List.map fst grouped) /\
    Forall (fun kv : Z * (nat * nat) => fst (snd kv) <= snd (snd kv) /\ 0 < snd (snd kv))
      grouped.
Proof.
  induction points as [ | p points IH]; intros buckets Hnd Hinv; simpl.
  - auto.
  - apply IH.
    + apply mapSet_NoDup; [ apply Z.eqb_eq | exact Hnd ].
    + apply (mapSet_Forall Z.eqb
               (fun v : nat * nat => fst v <= snd v /\ 0 < snd v)); [ | exact Hinv ].
      destruct (Analytics.mapGet Z.eqb _ buckets) as [[e t] | ] eqn:E.
      * apply mapGet_In in E; [ | apply Z.eqb_eq ].
        rewrite Forall_forall in Hinv. specialize (Hinv _ E). simpl in *.
        destruct (snd p); simpl; lia.
      * simpl. destruct (snd p); simpl; lia.
Qed.

(** X25: The points of the error-rate chart come in strictly ascending time,
    one per bucket; each bucket counts at least one record and no more
    errors than records. *)
Theorem errorRateEvolution_buckets {R : Runtime} (logs : list LogEntry)
  (result : list ErrorRateBucket.t) :
  AnalyticsMore.errorRateEvolution logs = Normal result ->
  Sorted Z.lt (List.map ErrorRateBucket.time result) /\
  Forall (fun b => ErrorRateBucket.errorCount b <= ErrorRateBucket.totalCount b /\
                   0 < ErrorRateBucket.totalCount b) result.
Proof.
  unfold AnalyticsMore.errorRateEvolution.
  destruct (AnalyticsMore.errorPoints logs) as [mapped | m]; cbn [bind]; [ | discriminate ].
  destruct (Analytics.sort _ _) as [ | [minTime e0] [ | p1 points]];
    try (intros H; injection H as <-; split; constructor).
  set (all := (minTime, e0) :: p1 :: points).
  set (bucketMs := if (_ <? _)%Z then _ else _).
  destruct (groupErrors_invariant bucketMs all [] (NoDup_nil _) (Forall_nil _))
    as [Hnd Hinv].
  fold (AnalyticsMore.groupErrors bucketMs all) in Hnd, Hinv.
  intros H. injection H as <-. split.
  - rewrite map_map.
    rewrite (map_ext _ fst); [ now apply sort_by_key_ascending | ].
    now intros [t [e n]].
  - apply Forall_forall. intros b Hin. apply in_map_iff in Hin as [[t [e n]] [<- Hin]].
    apply (Permutation_in _ (Permutation_sym (sort_perm _ _))) in Hin.
    rewrite Forall_forall in Hinv. exact (Hinv _ Hin).
Qed.

Lemma fold_max_ge (l : list nat) : forall a, a <= fold_left Nat.max l a.
Proof.
  induction l as [ | x l IH]; intros a; simpl; [ lia | ].
  specialize (IH (Nat.max a x)). lia.
Qed.

Lemma fold_max_In (l : list nat) (x : nat) :
  In x l -> forall a, x <= fold_left Nat.max l a.
Proof.
  induction l as [ | y l IH]; intros Hin a; [ destruct Hin | ].
  simpl. destruct Hin as [-> | Hin].
  - pose proof (fold_max_ge l (Nat.max a x)). lia.
  - now apply IH.
Qed.

(** The gap-filling loop, run with enough fuel, lists every bucket from
    the first to the last. *)
Lemma fillLoop_exact {A : Type} (mk : Z -> A) (endBucket bucketMs : Z) :
  (0 < bucketMs)%Z ->
  forall fuel bucket acc,
    (bucket <= endBucket)%Z ->
    Z.to_nat ((endBucket - bucket) / bucketMs) < fuel ->
    Analytics.fillLoop fuel mk bucket endBucket bucketMs acc
    = Some (acc ++ List.map (fun i => mk (bucket + Z.of_nat i * bucketMs)%Z)
                     (seq 0 (S (Z.to_nat ((endBucket - bucket) / bucketMs))))).
Proof.
  intros Hpos. induction fuel as [ | fuel IH]; intros bucket acc Hle Hfuel; [ lia | ].
  cbn [Analytics.fillLoop].
  apply Z.leb_le in Hle. rewrite Hle. apply Z.leb_le in Hle.
  destruct (Z_le_gt_dec (bucket + bucketMs) endBucket) as [Hnext | Hlast].
  - assert (Hdiv : ((endBucket - (bucket + bucketMs)) / bucketMs
                    = (endBucket - bucket) / bucketMs - 1)%Z).
    { replace (endBucket - (bucket + bucketMs))%Z
        with (endBucket - bucket + (-1) * bucketMs)%Z by lia.
      rewrite Z.div_add by lia. lia. }
    assert (Hq : (1 <= (endBucket - bucket) / bucketMs)%Z).
    { apply Z.div_le_lower_bound; lia. }
    rewrite IH; [ | exact Hnext | rewrite Hdiv; lia ].
    rewrite Hdiv, <- app_assoc. do 2 f_equal.
    replace (S (Z.to_nat ((endBucket - bucket) / bucketMs)))
      with (S (S (Z.to_nat ((endBucket - bucket) / bucketMs - 1)))) by lia.
    set (n := S (Z.to_nat ((endBucket - bucket) / bucketMs - 1))).
    change (seq 0 (S n)) with (0 :: seq 1 n).
    cbn [List.map app]. f_equal.
    + f_equal. lia.
    + rewrite <- seq_shift, map_map. apply map_ext. intros i. f_equal. lia.
  - assert (Hdiv : ((endBucket - bucket) / bucketMs = 0)%Z) by (apply Z.div_small; lia).
    rewrite Hdiv. cbn [Z.to_nat seq List.map].
    replace (bucket + Z.of_nat 0 * bucketMs)%Z with bucket by lia.
    assert (Hcond : (bucket + bucketMs <=? endBucket)%Z = false) by (apply Z.leb_gt; lia).
    destruct fuel; cbn [Analytics.fillLoop]; now rewrite Hcond.
Qed.

(** The count that the histogram holds for a bucket is the number of
    timestamps that fall into it. *)
Lemma countBuckets_count (bucketMs : Z) (timestamps : list Z) (bucket : Z) :
  match Analytics.mapGet Z.eqb bucket (Analytics.countBuckets bucketMs timestamps) with
  | Some c => c
  | None => 0
  end
  = count_occ Z.eq_dec
      (List.map (fun t => Analytics.bucketOf t bucketMs) timestamps) bucket.
Proof.
  unfold Analytics.countBuckets.
  assert (H : forall acc,
             match Analytics.mapGet Z.eqb bucket
                     (fold_left
                        (fun buckets ts =>
                           Analytics.mapSet Z.eqb (Analytics.bucketOf ts bucketMs)
                             (match Analytics.mapGet Z.eqb
                                      (Analytics.bucketOf ts bucketMs) buckets with
                              | Some c => c
                              | None => 0
                              end + 1) buckets) timestamps acc) with
             | Some c => c
             | None => 0
             end
             = match Analytics.mapGet Z.eqb bucket acc with Some c => c | None => 0 end
               + count_occ Z.eq_dec
                   (List.map (fun t => Analytics.bucketOf t bucketMs) timestamps) bucket).
  { induction timestamps as [ | ts timestamps IH]; intros acc; [ simpl; lia | ].
    cbn [fold_left List.map count_occ]. rewrite IH.
    rewrite (mapGet_mapSet Z.eqb Z.eqb_eq).
    destruct (Z.eq_dec (Analytics.bucketOf ts bucketMs) bucket) as [Heq | Hne].
    - rewrite Heq, Z.eqb_refl.
      destruct (Analytics.mapGet Z.eqb bucket acc); lia.
    - destruct (Z.eqb_spec bucket (Analytics.bucketOf ts bucketMs)); [ congruence | ].
      reflexivity. }
  exact (H []).
Qed.

(** In an ascending list every element lies between the first and the
    last. *)
Lemma ascending_bounds (l : list Z) :
  Sorted (fun a b => (a - b <=? 0)%Z = true) l ->
  forall d,
    Forall (fun t => (hd d l <= t <= List.last l d)%Z) l.
Proof.
  intros Hs. apply Sorted_StronglySorted in Hs.
  2:{ intros a b c Hab Hbc. apply Z.leb_le in Hab, Hbc. apply Z.leb_le. lia. }
  induction Hs as [ | a l Hs IH Hall]; intros d; [ constructor | ].
  cbn [hd]. destruct l as [ | b l].
  - repeat constructor; simpl; lia.
  - specialize (IH d). cbn [hd] in IH.
    change (List.last (a :: b :: l) d) with (List.last (b :: l) d).
    assert (Hab : (a <= b)%Z).
    { inversion Hall as [ | ? ? Hab _]; subst. apply Z.leb_le in Hab. lia. }
    assert (Hlast : (b <= List.last (b :: l) d)%Z).
    { inversion IH as [ | ? ? Hb _]; subst. lia. }
    constructor; [ lia | ].
    eapply Forall_impl; [ | exact IH ]. cbv beta. intros t Ht. lia.
Qed.

Lemma sortedTimes_ascending {R : Runtime} (logs : list LogEntry) :
  Sorted (fun a b => (a - b <=? 0)%Z = true) (Analytics.sortedTimes logs).
Proof.
  unfold Analytics.sortedTimes. apply sort_sorted.
  intros a b Hab. apply Z.leb_gt in Hab. apply Z.leb_le. lia.
Qed.

Lemma bucketOf_monotone (a b bucketMs : Z) :
  (0 < bucketMs)%Z -> (a <= b)%Z ->
  (Analytics.bucketOf a bucketMs <= Analytics.bucketOf b bucketMs)%Z.
Proof.
  intros Hpos Hab. unfold Analytics.bucketOf.
  apply Z.mul_le_mono_nonneg_r; [ lia | ]. now apply Z.div_le_mono.
Qed.

(** X26: The gap-filled timeline has no gap.  With [minTime] the
    earliest and [maxTime] the latest of the valid timestamps and the
    bucket size chosen from their range, the buckets run from the one of
    [minTime] to the one of [maxTime] in steps of the bucket size, none
    left out; the count of a bucket is the number of valid timestamps
    that fall into it, zero for a gap, and is never above the maximum
    that the bucket reports. *)
Theorem timelineSeries_continuous {R : Runtime} (logs : list LogEntry)
  (series : list TimelineBucket.t) (minTime : Z) (times : list Z) :
  Analytics.sortedTimes logs = minTime :: times ->
  Analytics.timelineSeries logs = Some (Normal series) ->
  let maxTime := List.last (minTime :: times) minTime in
  let bucketMs := fst (Analytics.bucketing (maxTime - minTime)) in
  let startBucket := Analytics.bucketOf minTime bucketMs in
  let endBucket := Analytics.bucketOf maxTime bucketMs in
  Permutation (Analytics.validTimes logs) (minTime :: times) /\
  Forall (fun t => (minTime <= t <= maxTime)%Z) (minTime :: times) /\
  List.map TimelineBucket.time series
  = List.map (fun i => (startBucket + Z.of_nat i * bucketMs)%Z)
      (seq 0 (S (Z.to_nat ((endBucket - startBucket) / bucketMs)))) /\
  Forall (fun b =>
            TimelineBucket.count b
            = count_occ Z.eq_dec
                (List.map (fun t => Analytics.bucketOf t bucketMs) (minTime :: times))
                (TimelineBucket.time b) /\
            TimelineBucket.count b <= TimelineBucket.maxCount b) series.
Proof.
  intros Hsorted Hseries maxTime bucketMs startBucket endBucket.
  assert (Hbounds : Forall (fun t => (minTime <= t <= maxTime)%Z) (minTime :: times)).
  { pose proof (sortedTimes_ascending logs) as Hasc. rewrite Hsorted in Hasc.
    exact (ascending_bounds _ Hasc minTime). }
  split; [ rewrite <- Hsorted; apply sort_perm | ].
  split; [ exact Hbounds | ].
  assert (Hpos : (0 < bucketMs)%Z) by apply bucketing_positive.
  assert (Hle : (startBucket <= endBucket)%Z).
  { apply bucketOf_monotone; [ exact Hpos | ].
    inversion Hbounds as [ | ? ? Hmin _]; subst. lia. }
  unfold Analytics.timelineSeries in Hseries. rewrite Hsorted in Hseries.
  cbv zeta in Hseries. fold maxTime in Hseries.
  subst startBucket endBucket bucketMs.
  destruct (Analytics.bucketing (maxTime - minTime)) as [bucketMs formatLabel].
  cbn [fst] in *.
  destruct (Analytics.maxSpread _) as [maxCount | message] eqn:Hmax; [ | discriminate ].
  rewrite fillLoop_exact in Hseries by (try assumption; lia).
  set (grid := seq 0 _) in *. clearbody grid.
  rewrite app_nil_l in Hseries. cbn [option_map] in Hseries.
  match type of Hseries with
  | Some (Normal ?l) = _ => assert (Hs : series = l) by congruence
  end.
  subst series. clear Hseries.
  unfold Analytics.maxSpread in Hmax.
  destruct (N.leb _ _); [ | discriminate ]. injection Hmax as <-.
  split.
  - rewrite map_map. reflexivity.
  - apply Forall_forall. intros b Hin. apply in_map_iff in Hin as [i [<- _]].
    cbn [TimelineBucket.count TimelineBucket.maxCount TimelineBucket.time].
    split; [ apply countBuckets_count | ].
    destruct (Analytics.mapGet Z.eqb _ _) as [c | ] eqn:E; [ | lia ].
    apply mapGet_In in E; [ | apply Z.eqb_eq ].
    apply fold_max_In.
    change c with (snd ((Analytics.bucketOf minTime bucketMs + Z.of_nat i * bucketMs)%Z, c)).
    now apply in_map.
Qed.

Lemma timelineSeries_continuous_witness :
  exists series,
    Analytics.timelineSeries (R := Reference.runtime) Examples.threeDays
    = Some (Normal series) /\
    List.map TimelineBucket.time series
    = List.map (fun i => (1704067200000 + Z.of_nat i * Analytics.hour)%Z) (seq 0 73) /\
    Forall (fun b =>
              TimelineBucket.count b
              = count_occ Z.eq_dec
                  (List.map (fun t => Analytics.bucketOf t Analytics.hour)
                     [1704067200000; 1704326400000]%Z)
                  (TimelineBucket.time b) /\
              TimelineBucket.count b <= TimelineBucket.maxCount b) series.
Proof.
  eexists. split; [ vm_compute; reflexivity | ].
  refine (proj2 (proj2 (timelineSeries_continuous (R := Reference.runtime)
                          Examples.threeDays
                          _ 1704067200000%Z [1704326400000%Z] _ _))).
  - vm_compute. reflexivity.
  - vm_compute. reflexivity.
Defined.

Lemma errorRateEvolution_buckets_witness :
  exists result,
    AnalyticsMore.errorRateEvolution (R := Reference.runtime) Examples.threeDays
    = Normal result /\
    Sorted Z.lt (List.map ErrorRateBucket.time result) /\
    Forall (fun b => ErrorRateBucket.errorCount b <= ErrorRateBucket.totalCount b /\
                     0 < ErrorRateBucket.totalCount b) result.
Proof.
  eexists. split; [ vm_compute; reflexivity | ].
  apply (errorRateEvolution_buckets (R := Reference.runtime) Examples.threeDays).
  vm_compute. reflexivity.
Defined.

(** ** Named fields of a normalized record *)

(** X27: Whatever value is normalized, the record has each of the fields
    [_id], [_index], [@timestamp], [level] and [message], and no key
    twice. *)
Theorem normalizeEntry_named_fields {R : Runtime} (entry : JValue) (index : nat)
  (record : LogEntry) :
  LogParser.normalizeEntry entry index = Normal record ->
  Forall (fun k => Js.get k record <> None) LogParser.namedFields /\
  NoDup (Js.keys record).
Proof.
  unfold LogParser.normalizeEntry.
  destruct (LogParser.flattenObject entry EmptyString) as [flattened | m]; cbn [bind];
    [ | discriminate ].
  destruct (Builtin.member "_id" entry) as [id | m]; cbn [bind]; [ | discriminate ].
  destruct (Builtin.member "_index" entry) as [idx | m]; cbn [bind]; [ | discriminate ].
  intros H. injection H as <-. split.
  - unfold LogParser.namedFields.
    repeat (apply Forall_cons;
            [ rewrite get_assign; destruct (Js.get _ (rev flattened)); discriminate | ]).
    apply Forall_nil.
  - apply NoDup_assign. simpl. repeat constructor; simpl; intuition discriminate.
Qed.

Lemma normalizeEntry_named_fields_witness :
  exists record,
    LogParser.normalizeEntry (R := Reference.runtime) (JObject Examples.nested) 7
    = Normal record /\
    Forall (fun k => Js.get k record <> None) LogParser.namedFields /\
    NoDup (Js.keys record).
Proof.
  eexists. split; [ reflexivity | ].
  apply (normalizeEntry_named_fields (R := Reference.runtime) (JObject Examples.nested) 7).
  reflexivity.
Defined.

(** ** Case of a literal query *)

Lemma lower_upper_char (c : ascii) :
  Str.lowerChar (Str.upperChar c) = Str.lowerChar c.
Proof. destruct c as [[] [] [] [] [] [] [] []]; reflexivity. Qed.

Lemma upper_whitespace (c : ascii) :
  Str.isWhiteSpace (Str.upperChar c) = Str.isWhiteSpace c.
Proof. destruct c as [[] [] [] [] [] [] [] []]; reflexivity. Qed.

Lemma toLowerCase_toUpperCase (s : string) :
  Str.toLowerCase (Str.toUpperCase s) = Str.toLowerCase s.
Proof.
  unfold Str.toLowerCase, Str.toUpperCase.
  induction s as [ | c s IH]; cbn [Str.map]; [ reflexivity | ].
  now rewrite lower_upper_char, IH.
Qed.

Lemma trimStart_upper (s : string) :
  Str.trimStart (Str.toUpperCase s) = Str.toUpperCase (Str.trimStart s).
Proof.
  unfold Str.toUpperCase.
  induction s as [ | c s IH]; cbn [Str.map Str.trimStart]; [ reflexivity | ].
  rewrite upper_whitespace. destruct (Str.isWhiteSpace c); [ exact IH | reflexivity ].
Qed.

Lemma trimEnd_upper (s : string) :
  Str.trimEnd (Str.toUpperCase s) = Str.toUpperCase (Str.trimEnd s).
Proof.
  unfold Str.toUpperCase.
  induction s as [ | c s IH]; cbn [Str.map Str.trimEnd]; [ reflexivity | ].
  rewrite IH, upper_whitespace.
  destruct (Str.trimEnd s); cbn [Str.map]; [ | reflexivity ].
  destruct (Str.isWhiteSpace c); reflexivity.
Qed.

Lemma trim_upper (s : string) :
  Str.trim (Str.toUpperCase s) = Str.toUpperCase (Str.trim s).
Proof. unfold Str.trim. now rewrite trimStart_upper, trimEnd_upper. Qed.

Lemma length_upper (s : string) :
  String.length (Str.toUpperCase s) = String.length s.
Proof.
  unfold Str.toUpperCase.
  induction s as [ | c s IH]; cbn [Str.map String.length]; [ reflexivity | now rewrite IH ].
Qed.

(** X28: With case sensitivity off, a literal query of ASCII characters finds
    the same records however it is capitalized. *)
Theorem filterLogs_query_case {R : Runtime} (st : Search.State) (logs : list LogEntry) :
  Search._isRegex st = false ->
  Search._caseSensitive st = false ->
  SearchOps.isAscii (Search._searchQuery st) = true ->
  Search.filterLogs
    (SearchOps.setSearchQuery (Str.toUpperCase (Search._searchQuery st)) st) logs
  = Search.filterLogs st logs.
Proof.
  intros Hrx Hcs _. unfold Search.filterLogs.
  change (Search.timeRangeStage (SearchOps.setSearchQuery _ st))
    with (Search.timeRangeStage st).
  change (Search.quickFilterStage (SearchOps.setSearchQuery _ st))
    with (Search.quickFilterStage st).
  generalize (Search.quickFilterStage st (Search.timeRangeStage st logs)). intros l.
  unfold Search.queryStage.
  cbn [SearchOps.setSearchQuery Search._searchQuery Search._isRegex Search._caseSensitive].
  rewrite Hrx, Hcs, trim_upper, length_upper, toLowerCase_toUpperCase. reflexivity.
Qed.

Lemma filterLogs_query_case_witness :
  Search.filterLogs (R := Reference.runtime)
    (SearchOps.setSearchQuery
       (Str.toUpperCase (Search._searchQuery MoreExamples.mixedCase)) MoreExamples.mixedCase)
    (LogParser._logs Examples.loaded)
  = Search.filterLogs (R := Reference.runtime) MoreExamples.mixedCase
      (LogParser._logs Examples.loaded).
Proof.
  apply (filterLogs_query_case (R := Reference.runtime)); reflexivity.
Defined.

(** ** Timestamp of a text line *)

Lemma startsWith_app (m r : string) : Str.startsWith m (m ++ r) = true.
Proof.
  induction m as [ | c m IH]; cbn [String.append Str.startsWith]; [ reflexivity | ].
  now rewrite Ascii.eqb_refl, IH.
Qed.

Lemma matchSeq_split (p : list LogParser.CharClass) :
  forall s m r, LogParser.matchSeq p s = Some (m, r) -> s = (m ++ r)%string.
Proof.
  induction p as [ | cl p IH]; intros s m r; cbn [LogParser.matchSeq].
  - intros H. now injection H as <- <-.
  - destruct s as [ | c s]; [ discriminate | ].
    destruct (cl c); [ | discriminate ].
    destruct (LogParser.matchSeq p s) as [[m' r'] | ] eqn:E; [ | discriminate ].
    intros H. injection H as <- <-. cbn [String.append]. f_equal. now apply IH.
Qed.

Lemma optional_split (alts : list (list LogParser.CharClass)) (s m r : string) :
  LogParser.optional alts s = (m, r) -> s = (m ++ r)%string.
Proof.
  unfold LogParser.optional.
  induction alts as [ | p alts IH].
  - intros H. now injection H as <- <-.
  - destruct (LogParser.matchSeq p s) as [[m' r'] | ] eqn:E.
    + intros H. injection H as <- <-. now apply matchSeq_split with p.
    + exact IH.
Qed.

Lemma takeSpaces_split (s : string) :
  forall m r, LogParser.takeSpaces s = (m, r) -> s = (m ++ r)%string.
Proof.
  induction s as [ | c s IH]; intros m r; cbn [LogParser.takeSpaces].
  - intros H. now injection H as <- <-.
  - destruct (Str.isWhiteSpace c).
    + destruct (LogParser.takeSpaces s) as [m' r'] eqn:E.
      intros H. injection H as <- <-. cbn [String.append]. f_equal. now apply IH.
    + intros H. now injection H as <- <-.
Qed.

Lemma append_assoc (a b c : string) : ((a ++ b) ++ c = a ++ (b ++ c))%string.
Proof. induction a as [ | x a IH]; cbn [String.append]; [ reflexivity | now rewrite IH ]. Qed.

Lemma startsWith_three (a b c r : string) :
  Str.startsWith (a ++ b ++ c) (a ++ (b ++ (c ++ r))) = true.
Proof. rewrite <- !append_assoc. apply startsWith_app. Qed.

Lemma isoAt_prefix (s m : string) :
  LogParser.isoAt s = Some m -> Str.startsWith m s = true.
Proof.
  unfold LogParser.isoAt.
  destruct (LogParser.matchSeq _ s) as [[m1 r1] | ] eqn:E1; [ | discriminate ].
  destruct (LogParser.optional _ r1) as [m2 r2] eqn:E2.
  destruct (LogParser.optional _ r2) as [m3 r3] eqn:E3.
  intros H. injection H as <-.
  apply matchSeq_split in E1. apply optional_split in E2, E3. subst s r1 r2.
  apply startsWith_three.
Qed.

Lemma commonAt_prefix (s m : string) :
  LogParser.commonAt s = Some m -> Str.startsWith m s = true.
Proof.
  unfold LogParser.commonAt.
  destruct (LogParser.matchSeq _ s) as [[m1 r1] | ] eqn:E1; [ | discriminate ].
  destruct (LogParser.takeSpaces r1) as [m2 r2] eqn:E2.
  destruct m2 as [ | c m2]; [ discriminate | ].
  destruct (LogParser.matchSeq _ r2) as [[m3 r3] | ] eqn:E3; [ | discriminate ].
  intros H. injection H as <-.
  apply matchSeq_split in E1, E3. apply takeSpaces_split in E2. subst s r1 r2.
  exact (startsWith_three m1 (String c m2) m3 r3).
Qed.

Lemma search_includes (at_ : string -> option string) (line m : string) :
  (forall s x, at_ s = Some x -> Str.startsWith x s = true) ->
  LogParser.search at_ line = Some m -> Str.includes m line = true.
Proof.
  intros Hat. induction line as [ | c line IH]; cbn [LogParser.search Str.includes].
  - destruct (at_ EmptyString) eqn:E; [ | discriminate ].
    intros H. injection H as ->. now rewrite (Hat _ _ E).
  - destruct (at_ (String c line)) eqn:E.
    + intros H. injection H as ->. now rewrite (Hat _ _ E).
    + intros H. rewrite (IH H). apply orb_true_r.
Qed.

(** X29: The timestamp extracted from a text line is a piece of that line. *)
Theorem extractTimestampFromLine_occurs (line timestamp : string) :
  LogParser.extractTimestampFromLine line = Some timestamp ->
  Str.includes timestamp line = true.
Proof.
  unfold LogParser.extractTimestampFromLine.
  destruct (LogParser.search LogParser.isoAt line) eqn:Ei.
  - intros H. injection H as <-. apply (search_includes _ _ _ isoAt_prefix Ei).
  - destruct (LogParser.search LogParser.commonAt line) eqn:Ec; [ | discriminate ].
    intros H. injection H as <-. apply (search_includes _ _ _ commonAt_prefix Ec).
Qed.

Lemma extractTimestampFromLine_occurs_witness :
  Str.includes "2024-01-01 10:00:00" "[2024-01-01 10:00:00] started" = true.
Proof.
  apply extractTimestampFromLine_occurs. reflexivity.
Defined.
